(** * Komi Reader Hub: directory scanning and metadata persistence

    A shallow embedding of the scanning and storage core of the
    application:

    - [electron/main.js]: the IPC handlers [read-directory] (with its
      recursive [scanForComics]), [write-file], [read-file],
      [file-exists] and [rename-folder];
    - [electron/scanDirectory.cjs]: the flat [scanDirectoryForComics];
    - [src/utils/fileStorage.ts]: [EnhancedFileStorage] ([saveComic],
      [getComic], [deleteComic], [renameComicFolder], [saveComics],
      [getAllComics], [setGenres]);
    - [src/components/ComicsLibrary.tsx]: [mergeReadingProgress],
      [convertComicFolderToComic] and the refresh pipeline;
    - [src/components/GenreManager.tsx]: [checkGenreUsage].

    JavaScript strings are modelled as [string] (one character per code
    unit, the ASCII range being the one the helpers below interpret),
    JavaScript objects used as dictionaries as insertion-ordered
    association lists, the application's JSON directory as a finite map
    from paths to documents, and the library tree through the three
    queries the scanner performs on it. *)

From Stdlib Require Import String Ascii List ZArith NArith Lia Bool.
From Stdlib Require Import Sorted Permutation.
From stdpp Require Import gmap strings list sorting pretty.

Local Open Scope string_scope.
Local Open Scope list_scope.
Local Open Scope nat_scope.

(** ** JavaScript string helpers *)

Module Js.

Fixpoint string_map (f : ascii -> ascii) (s : string) : string :=
  match s with
  | EmptyString => EmptyString
  | String c r => String (f c) (string_map f r)
  end.

(** [c.toLowerCase()] on one code unit of the ASCII range. *)
Definition ascii_toLowerCase (c : ascii) : ascii :=
  let n := N_of_ascii c in
  if ((65 <=? n) && (n <=? 90))%N then ascii_of_N (n + 32) else c.

(** [s.toLowerCase()]. *)
Definition toLowerCase (s : string) : string :=
  string_map ascii_toLowerCase s.

(** [s.startsWith(p)]. *)
Definition startsWith (s p : string) : bool := String.prefix p s.

(** [s.endsWith(p)]. *)
Definition endsWith (s p : string) : bool :=
  let n := String.length s in
  let m := String.length p in
  (m <=? n) && String.eqb (String.substring (n - m) m s) p.

(** The class [\s] of a regular expression, on the ASCII range:
    tab, line feed, vertical tab, form feed, carriage return, space. *)
Definition is_space (c : ascii) : bool :=
  let n := N_of_ascii c in
  ((9 <=? n) && (n <=? 13) || (n =? 32))%N.

(** [s.replace(/\s+/g, by)]: every maximal run of white space becomes
    one [by].  [inRun] tells that the previous code unit was white
    space, whose replacement has been written already. *)
Fixpoint replace_spaces_from (by_ : ascii) (inRun : bool) (s : string)
  : string :=
  match s with
  | EmptyString => EmptyString
  | String c r =>
      if is_space c
      then (if inRun then replace_spaces_from by_ true r
            else String by_ (replace_spaces_from by_ true r))
      else String c (replace_spaces_from by_ false r)
  end.

(** [s.replace(/\s+/g, '-')]. *)
Definition replace_spaces_with_dash (s : string) : string :=
  replace_spaces_from "-" false s.

(** [s.replace(/\s+/g, ' ')]. *)
Definition normalize_spaces (s : string) : string :=
  replace_spaces_from " " false s.

Fixpoint trimStart (s : string) : string :=
  match s with
  | String c r => if is_space c then trimStart r else s
  | EmptyString => EmptyString
  end.

Definition string_rev (s : string) : string :=
  string_of_list_ascii (rev (list_ascii_of_string s)).

(** [s.trim()]. *)
Definition trim (s : string) : string :=
  string_rev (trimStart (string_rev (trimStart s))).

(** [s.lastIndexOf(c)]; [None] stands for [-1]. *)
Fixpoint lastIndexOf_from (c : ascii) (i : nat) (s : string)
  : option nat :=
  match s with
  | EmptyString => None
  | String c' r =>
      match lastIndexOf_from c (S i) r with
      | Some j => Some j
      | None => if Ascii.eqb c' c then Some i else None
      end
  end.

Definition lastIndexOf (s : string) (c : ascii) : option nat :=
  lastIndexOf_from c 0 s.

(** [s.replace(/\\/g, ' / ')]. *)
Fixpoint replace_backslashes (s : string) : string :=
  match s with
  | EmptyString => EmptyString
  | String c r =>
      if Ascii.eqb c "\"
      then " / " +:+ replace_backslashes r
      else String c (replace_backslashes r)
  end.

(** The double quote as a one-character string. *)
Definition dquote : string := String (ascii_of_nat 34) EmptyString.

(** A JavaScript string is falsy exactly when it is empty. *)
Definition truthy (s : string) : bool :=
  match s with EmptyString => false | _ => true end.

(** [a || b] on strings. *)
Definition or_else (a b : string) : string :=
  if truthy a then a else b.

(** [a || b] when [a] may be [undefined]. *)
Definition opt_or_else (a : option string) (b : string) : string :=
  match a with
  | Some s => or_else s b
  | None => b
  end.

(** *** [Buffer.from(s).toString('base64')] *)

Definition base64_alphabet : list ascii :=
  list_ascii_of_string
    "ABCDEFGHIJKLMNOPQRSTUVWXYZabcdefghijklmnopqrstuvwxyz0123456789+/".

Definition base64_digit (n : N) : ascii :=
  nth (N.to_nat n) base64_alphabet "="%char.

Fixpoint base64_bytes (l : list N) : list ascii :=
  match l with
  | [] => []
  | [a] =>
      [base64_digit (a / 4); base64_digit ((a mod 4) * 16);
       "="%char; "="%char]
  | [a; b] =>
      [base64_digit (a / 4); base64_digit ((a mod 4) * 16 + b / 16);
       base64_digit ((b mod 16) * 4); "="%char]
  | a :: b :: c :: rest =>
      base64_digit (a / 4)
        :: base64_digit ((a mod 4) * 16 + b / 16)
        :: base64_digit ((b mod 16) * 4 + c / 64)
        :: base64_digit (c mod 64)
        :: base64_bytes rest
  end%N.

Definition base64 (s : string) : string :=
  string_of_list_ascii
    (base64_bytes (List.map N_of_ascii (list_ascii_of_string s))).

(** *** [Array.prototype.sort()] without a comparator

    The default comparison orders strings by their code units, upper
    case before lower case; the engine's sort is a stable merge
    sort. *)

Definition code_unit_le (a b : string) : Prop := String.leb a b = true.

#[global] Instance code_unit_le_dec : RelDecision code_unit_le.
Proof. intros a b. unfold code_unit_le. apply _. Defined.

Definition sort (l : list string) : list string :=
  merge_sort code_unit_le l.

End Js.

(** ** Node's [path] module (POSIX flavour, the platform the application
    is built for) *)

Module Path.

Definition slash : ascii := "/"%char.

(** [s.split('/')]. *)
Fixpoint split_from (cur : string) (s : string) : list string :=
  match s with
  | EmptyString => [cur]
  | String c r =>
      if Ascii.eqb c slash
      then cur :: split_from EmptyString r
      else split_from (cur +:+ String c EmptyString) r
  end.

Definition split (s : string) : list string := split_from EmptyString s.

(** [segments.join('/')]. *)
Fixpoint join_segments (l : list string) : string :=
  match l with
  | [] => EmptyString
  | [x] => x
  | x :: r => x +:+ "/" +:+ join_segments r
  end.

(** [normalizeString]: drops empty and [.] segments and resolves
    [..]; [acc] holds the segments kept so far, last one first. *)
Fixpoint normalize_segments (allowAboveRoot : bool)
         (acc : list string) (segs : list string) : list string :=
  match segs with
  | [] => rev acc
  | seg :: rest =>
      if String.eqb seg EmptyString || String.eqb seg "."
      then normalize_segments allowAboveRoot acc rest
      else if String.eqb seg ".."
      then match acc with
           | top :: acc' =>
               if String.eqb top ".."
               then normalize_segments allowAboveRoot (seg :: acc) rest
               else normalize_segments allowAboveRoot acc' rest
           | [] =>
               if allowAboveRoot
               then normalize_segments allowAboveRoot [seg] rest
               else normalize_segments allowAboveRoot [] rest
           end
      else normalize_segments allowAboveRoot (seg :: acc) rest
  end.

Definition isAbsolute (p : string) : bool := Js.startsWith p "/".

(** [path.normalize(p)]. *)
Definition normalize (p : string) : string :=
  if String.eqb p EmptyString then "."
  else
    let absolute := isAbsolute p in
    let trailing := Js.endsWith p "/" in
    let body :=
      join_segments (normalize_segments (negb absolute) [] (split p)) in
    if String.eqb body EmptyString
    then (if absolute then "/" else if trailing then "./" else ".")
    else
      let body := if trailing then body +:+ "/" else body in
      if absolute then "/" +:+ body else body.

(** [path.join(a, b)]. *)
Definition join (a b : string) : string :=
  let joined :=
    if String.eqb a EmptyString then b
    else if String.eqb b EmptyString then a
    else a +:+ "/" +:+ b in
  if String.eqb joined EmptyString then "." else normalize joined.

(** The backwards scan shared by [dirname] and [basename]: [rev_tail]
    holds the code units still to be visited, last one first, and
    [matchedSlash] tells that only slashes have been seen so far. *)
Fixpoint dirname_scan (matchedSlash : bool) (rev_tail : list ascii)
  : option (list ascii) :=
  match rev_tail with
  | [] => None
  | c :: rest =>
      if Ascii.eqb c slash
      then (if matchedSlash then dirname_scan true rest else Some rest)
      else dirname_scan false rest
  end.

(** [path.dirname(p)]. *)
Definition dirname (p : string) : string :=
  match list_ascii_of_string p with
  | [] => "."
  | c0 :: tail =>
      let hasRoot := Ascii.eqb c0 slash in
      match dirname_scan true (rev tail) with
      | None => if hasRoot then "/" else "."
      | Some rest =>
          match rest with
          | [] => if hasRoot then "//" else String c0 EmptyString
          | _ => string_of_list_ascii (c0 :: rev rest)
          end
      end
  end.

Fixpoint drop_slashes (l : list ascii) : list ascii :=
  match l with
  | c :: r => if Ascii.eqb c slash then drop_slashes r else l
  | [] => []
  end.

Fixpoint take_segment (l : list ascii) : list ascii :=
  match l with
  | c :: r => if Ascii.eqb c slash then [] else c :: take_segment r
  | [] => []
  end.

(** [path.basename(p)]. *)
Definition basename (p : string) : string :=
  string_of_list_ascii
    (rev (take_segment (drop_slashes (rev (list_ascii_of_string p))))).

(** [path.resolve(p)] as a list of segments, relative paths being
    taken from the working directory [cwd]. *)
Definition resolve_segments (cwd p : string) : list string :=
  normalize_segments false []
    (split (if isAbsolute p then p else cwd +:+ "/" +:+ p)).

Fixpoint drop_common (from to : list string)
  : list string * list string :=
  match from, to with
  | f :: from', t :: to' =>
      if String.eqb f t then drop_common from' to' else (from, to)
  | _, _ => (from, to)
  end.

(** [path.relative(from, to)]: climb out of what is left of [from]
    after the common leading segments, then descend into what is left
    of [to]. *)
Definition relative (cwd from to : string) : string :=
  let '(up, down) :=
    drop_common (resolve_segments cwd from) (resolve_segments cwd to) in
  join_segments (List.map (fun _ => "..") up ++ down).

End Path.

(** ** The library tree as the main process sees it *)

(** A [Date] is a number of milliseconds since the epoch. *)
Definition Date : Type := Z.

(** The outcome of a call that may throw. *)
Inductive Try (A : Type) : Type :=
| Returns (a : A)
| Throws (message : string).
Arguments Returns {A} a.
Arguments Throws {A} message.

(** [`${e}`] for an [Error] whose message is [message]. *)
Definition error_toString (message : string) : string :=
  "Error: " +:+ message.

Module Fs.

Inductive DirentKind : Type := RegularFile | Directory | OtherEntry.

(** An [fs.Dirent]; a symbolic link, a socket and the like are
    neither a file nor a directory. *)
Record Dirent : Type := { name : string; kind : DirentKind }.

Definition isDirectory (d : Dirent) : bool :=
  match kind d with Directory => true | _ => false end.

Definition isFile (d : Dirent) : bool :=
  match kind d with RegularFile => true | _ => false end.

(** What the handlers ask of the file system that holds the comics:
    [fs.readdirSync(p, { withFileTypes: true })],
    [fs.statSync(p).mtime] and [fs.existsSync(p)]. *)
Record Tree : Type := {
  readdirSync : string -> Try (list Dirent);
  statSync_mtime : string -> Try Date;
  existsSync : string -> bool
}.

End Fs.

(** ** Scan records ([ComicFolder] of [src/lib/directoryScanner.ts],
    with the fields the main process adds) *)

Module ComicFolder.

Record t : Type := {
  id : string;
  title : string;
  displayTitle : option string;
  folderPath : string;
  coverImage : option string;
  totalPages : nat;
  pages : list string;
  lastModified : Date;
  author : option string;
  depth : option nat
}.

End ComicFolder.

Module DirectoryScanResult.

Record t : Type := {
  comics : list ComicFolder.t;
  totalComics : nat;
  errors : list string
}.

End DirectoryScanResult.

(** ** [electron/main.js]: the [read-directory] handler *)

Module Main.

Import Fs.

(** [/\.(jpg|jpeg|png|webp|gif)$/i.test(name)]. *)
Definition image_extensions : list string :=
  ["jpg"; "jpeg"; "png"; "webp"; "gif"].

Definition isImageName (name : string) : bool :=
  existsb (fun ext => Js.endsWith (Js.toLowerCase name) ("." +:+ ext))
          image_extensions.

(** [dirent.isDirectory() && !dirent.name.startsWith('.') &&
     dirent.name !== '__MACOSX']. *)
Definition isVisibleDirectory (dirent : Dirent) : bool :=
  isDirectory dirent
  && negb (Js.startsWith (name dirent) ".")
  && negb (String.eqb (name dirent) "__MACOSX").

(** [dirContents.filter(item => item.isFile() && ...test(item.name))
      .map(item => item.name)]: the names of the image files, in
    directory order. *)
Definition imageNames (dirContents : list Dirent) : list string :=
  List.map name
    (List.filter (fun item => isFile item && isImageName (name item))
                 dirContents).

(** The same after [.sort()]. *)
Definition imageFilesOf (dirContents : list Dirent) : list string :=
  Js.sort (imageNames dirContents).

(** ['file://' + path.join(fullPath, f)]. *)
Definition pageUrl (fullPath f : string) : string :=
  "file://" +:+ Path.join fullPath f.

Definition maxDepth : nat := 10.

Section Scan.

Variable tree : Tree.
(** [process.cwd()], which [path.relative] consults for relative
    paths. *)
Variable cwd : string.
(** The argument of the handler, which [scanForComics] closes
    over. *)
Variable directoryPath : string.

(** The record pushed for a folder that holds images. *)
Definition comicRecord (dirent : Dirent) (fullPath : string)
           (depth : nat) (imageFiles : list string) (mtime : Date)
  : ComicFolder.t :=
  {| ComicFolder.id :=
       Js.replace_spaces_with_dash (Js.toLowerCase (name dirent))
         +:+ "-" +:+ pretty depth +:+ "-"
         +:+ String.substring 0 8 (Js.base64 fullPath);
     ComicFolder.title := name dirent;
     ComicFolder.displayTitle :=
       Some (Js.replace_backslashes
               (Path.relative cwd directoryPath fullPath));
     ComicFolder.folderPath := fullPath;
     ComicFolder.coverImage :=
       Some (pageUrl fullPath (hd EmptyString imageFiles));
     ComicFolder.totalPages := length imageFiles;
     ComicFolder.pages := List.map (pageUrl fullPath) imageFiles;
     ComicFolder.lastModified := mtime;
     ComicFolder.author :=
       Some (Path.basename (Path.dirname fullPath));
     ComicFolder.depth := Some depth |}.

(** One turn of the [for (const dirent of files)] loop: what the
    entry [dirent] of [dirPath] adds to [comics].  [recur] is the
    recursive call.  An exception inside the inner [try] is logged
    and the entry adds nothing. *)
Definition scanEntry (recur : string -> nat -> list ComicFolder.t)
           (dirPath : string) (depth : nat) (dirent : Dirent)
  : list ComicFolder.t :=
  if isVisibleDirectory dirent then
    let fullPath := Path.join dirPath (name dirent) in
    match readdirSync tree fullPath with
    | Throws _ => []
    | Returns dirContents =>
        let imageFiles := imageFilesOf dirContents in
        if 0 <? length imageFiles then
          match statSync_mtime tree fullPath with
          | Throws _ => []
          | Returns mtime =>
              [comicRecord dirent fullPath depth imageFiles mtime]
          end
        else recur fullPath (depth + 1)
    end
  else [].

(** The body of [scanForComics] below the depth test.  The
    recursion descends one level per call and the depth test cuts
    it after [maxDepth]; [levels] counts the levels still allowed,
    so that [levels = 0] is the case [depth > maxDepth]. *)
Fixpoint scanLevels (levels : nat) (dirPath : string) (depth : nat)
  : list ComicFolder.t :=
  match levels with
  | O => []
  | S levels' =>
      match readdirSync tree dirPath with
      | Throws _ => []
      | Returns files =>
          List.flat_map (scanEntry (scanLevels levels') dirPath depth)
                        files
      end
  end.

(** [scanForComics(dirPath, depth = 0)]. *)
Definition scanForComics (dirPath : string) (depth : nat)
  : list ComicFolder.t :=
  if maxDepth <? depth then []
  else scanLevels (maxDepth + 1 - depth) dirPath depth.

(** The call [scanForComics(directoryPath)] as the handler sees it.
    Whatever [fs.readdirSync] or [fs.statSync] throw is caught by one
    of the two [try] blocks inside [scanForComics], so the call always
    returns. *)
Definition scanFromRoot : Try (list ComicFolder.t) :=
  Returns (scanForComics directoryPath 0).

(** The handler: the regular return, with its empty [errors], and the
    [catch] around the call. *)
Definition read_directory : DirectoryScanResult.t :=
  match scanFromRoot with
  | Returns comics =>
      {| DirectoryScanResult.comics := comics;
         DirectoryScanResult.totalComics := length comics;
         DirectoryScanResult.errors := [] |}
  | Throws message =>
      {| DirectoryScanResult.comics := [];
         DirectoryScanResult.totalComics := 0;
         DirectoryScanResult.errors :=
           [Js.or_else message "Unknown error"] |}
  end.

End Scan.

(** *** The [rename-folder] handler *)

Section Rename.

(** [fs.renameSync(oldPath, newPath)] on the library tree: the
    tree after the call, or the exception it throws. *)
Variable renameSync : Tree -> string -> string -> Try Tree.

Definition rename_folder (tree : Tree) (oldPath newPath : string)
  : bool * Tree :=
  if negb (existsSync tree oldPath) then (false, tree)
  else if existsSync tree newPath then (false, tree)
  else
    match renameSync tree oldPath newPath with
    | Returns tree' => (true, tree')
    | Throws _ => (false, tree)
    end.

End Rename.

End Main.

(** ** [electron/scanDirectory.cjs] *)

Module ScanDirectory.

Import Fs.

(** [/\.(jpg|jpeg|png|gif|webp|bmp)$/i.test(fileName)]. *)
Definition image_extensions : list string :=
  ["jpg"; "jpeg"; "png"; "gif"; "webp"; "bmp"].

Definition isImageFile (fileName : string) : bool :=
  existsb (fun ext => Js.endsWith (Js.toLowerCase fileName) ("." +:+ ext))
          image_extensions.

Section Scan.

Variable tree : Tree.

(** One turn of [folders.forEach]: the record pushed, or the
    message pushed on [errors]. *)
Definition scanFolder (directoryPath : string) (folder : Dirent)
  : Try ComicFolder.t :=
  let folderPath := Path.join directoryPath (name folder) in
  match readdirSync tree folderPath with
  | Throws e =>
      Throws ("Failed to process folder " +:+ Js.dquote +:+ name folder
                +:+ Js.dquote +:+ ": " +:+ error_toString e)
  | Returns entries =>
      let files := List.map name entries in
      let imageFiles := Js.sort (List.filter isImageFile files) in
      let pages :=
        List.map (fun img => "file://" +:+ Path.join folderPath img)
                 imageFiles in
      match statSync_mtime tree folderPath with
      | Throws e =>
          Throws ("Failed to process folder " +:+ Js.dquote +:+ name folder
                    +:+ Js.dquote +:+ ": " +:+ error_toString e)
      | Returns mtime =>
          Returns
            {| ComicFolder.id :=
                 Js.replace_spaces_with_dash
                   (Js.toLowerCase (name folder));
               ComicFolder.title := name folder;
               ComicFolder.displayTitle := None;
               ComicFolder.folderPath := folderPath;
               ComicFolder.coverImage := head pages;
               ComicFolder.totalPages := length pages;
               ComicFolder.pages := pages;
               ComicFolder.lastModified := mtime;
               ComicFolder.author := None;
               ComicFolder.depth := None |}
      end
  end.

Fixpoint collect (results : list (Try ComicFolder.t))
  : list ComicFolder.t * list string :=
  match results with
  | [] => ([], [])
  | Returns c :: rest =>
      let '(comics, errors) := collect rest in (c :: comics, errors)
  | Throws e :: rest =>
      let '(comics, errors) := collect rest in (comics, e :: errors)
  end.

(** [scanDirectoryForComics(directoryPath)]. *)
Definition scanDirectoryForComics (directoryPath : string)
  : DirectoryScanResult.t :=
  match readdirSync tree directoryPath with
  | Throws e =>
      {| DirectoryScanResult.comics := [];
         DirectoryScanResult.totalComics := 0;
         DirectoryScanResult.errors :=
           ["Failed to scan directory: " +:+ error_toString e] |}
  | Returns entries =>
      let folders := List.filter Main.isVisibleDirectory entries in
      let '(comics, errors) :=
        collect (List.map (scanFolder directoryPath) folders) in
      {| DirectoryScanResult.comics := comics;
         DirectoryScanResult.totalComics := length comics;
         DirectoryScanResult.errors := errors |}
  end.

End Scan.

End ScanDirectory.

(** ** Insertion-ordered dictionaries

    A JavaScript object used as a dictionary: [o[k] = v] overwrites in
    place or appends, [delete o[k]] removes, and [for (k in o)]
    enumerates in insertion order (the order JavaScript gives to keys
    that are not canonical array indices, as the ids of this
    application are). *)

Module JsObject.

Definition t (V : Type) : Type := list (string * V).

Fixpoint get {V} (k : string) (o : t V) : option V :=
  match o with
  | [] => None
  | (k', v) :: r => if String.eqb k' k then Some v else get k r
  end.

Fixpoint set {V} (k : string) (v : V) (o : t V) : t V :=
  match o with
  | [] => [(k, v)]
  | (k', v') :: r =>
      if String.eqb k' k then (k, v) :: r else (k', v') :: set k v r
  end.

Definition delete {V} (k : string) (o : t V) : t V :=
  List.filter (fun kv => negb (String.eqb (fst kv) k)) o.

Definition keys {V} (o : t V) : list string := List.map fst o.

(** The properties that every object inherits from
    [Object.prototype].  For an object [o] without an entry of its own
    for such a name [k], [o[k]] is the inherited value: a function,
    or the prototype itself for [__proto__]. *)
Definition prototype_keys : list string :=
  ["constructor"; "__defineGetter__"; "__defineSetter__";
   "hasOwnProperty"; "__lookupGetter__"; "__lookupSetter__";
   "isPrototypeOf"; "propertyIsEnumerable"; "toString"; "valueOf";
   "__proto__"; "toLocaleString"].

Definition inherited (k : string) : bool :=
  existsb (String.eqb k) prototype_keys.

End JsObject.

(** ** The data model ([src/types/comic.ts]) *)

Module ComicGenres.

(** The four tiers; each may be missing. *)
Record t : Type := {
  protagonist : option (list string);
  antagonist : option (list string);
  supporting : option (list string);
  narrative : option (list string)
}.

(** [Object.values(comicGenres)]. *)
Definition values (g : t) : list (list string) :=
  omap id [protagonist g; antagonist g; supporting g; narrative g].

End ComicGenres.

Module Comic.

Record t : Type := {
  id : string;
  title : string;
  displayTitle : option string;
  author : option string;
  groupAuthor : option string;
  genres : list string;
  comicGenres : option ComicGenres.t;
  genre : option string;
  tags : option (list string);
  description : option string;
  releaseDate : option Date;
  lastRead : option Date;
  lastReadPage : option nat;
  lastReadDate : option string;
  coverImage : string;
  totalPages : nat;
  currentPage : nat;
  folderPath : string;
  pages : option (list string);
  depth : option nat
}.

End Comic.

Module GenreCatalogType.

Inductive t : Type := personality | verb | plot.

End GenreCatalogType.

Module GenreCatalog.

Record t : Type := {
  personality : list string;
  verb : list string;
  plot : list string
}.

(** [genres[category]]. *)
Definition get (g : t) (category : GenreCatalogType.t) : list string :=
  match category with
  | GenreCatalogType.personality => personality g
  | GenreCatalogType.verb => verb g
  | GenreCatalogType.plot => plot g
  end.

(** [{ ...genres, [category]: l }]. *)
Definition set (g : t) (category : GenreCatalogType.t) (l : list string)
  : t :=
  match category with
  | GenreCatalogType.personality =>
      {| personality := l; verb := verb g; plot := plot g |}
  | GenreCatalogType.verb =>
      {| personality := personality g; verb := l; plot := plot g |}
  | GenreCatalogType.plot =>
      {| personality := personality g; verb := verb g; plot := l |}
  end.

(** [createEmptyGenreCatalog()]. *)
Definition empty : t :=
  {| personality := []; verb := []; plot := [] |}.

End GenreCatalog.

Module IndexEntry.

Record t : Type := {
  title : string;
  folderPath : string;
  lastModified : string
}.

End IndexEntry.

Module LibraryIndex.

Record t : Type := {
  comics : JsObject.t IndexEntry.t;
  lastScan : string;
  totalComics : nat
}.

Definition empty : t :=
  {| comics := []; lastScan := EmptyString; totalComics := 0 |}.

Definition with_comics (i : t) (c : JsObject.t IndexEntry.t) : t :=
  {| comics := c; lastScan := lastScan i; totalComics := totalComics i |}.

End LibraryIndex.

(** Reading progress of one comic; both fields are tested for presence
    by the code that merges them. *)
Module Progress.

Record t : Type := {
  lastRead : option Date;
  currentPage : option nat
}.

End Progress.

(** ** The application's JSON directory *)

(** The content of one JSON file.  [Corrupt] is a file that exists but
    that [JSON.parse] rejects. *)
Inductive Document : Type :=
| ComicDoc (comic : Comic.t)
| IndexDoc (index : LibraryIndex.t)
| GenresDoc (genres : GenreCatalog.t)
| ProgressDoc (progress : JsObject.t Progress.t)
| Corrupt.

Module Disk.

(** [files] is what is on disk; [failing] are the paths at which
    [fs.writeFileSync] throws (a missing parent directory, a
    read-only file, a full disk); [journal] records the writes
    attempted, oldest first, with their outcome. *)
Record t : Type := {
  files : gmap string Document;
  failing : gset string;
  journal : list (string * bool)
}.

(** The [write-file] handler: [true] when [fs.writeFileSync]
    returned, [false] when it threw. *)
Definition write_file (d : t) (filePath : string) (data : Document)
  : bool * t :=
  if decide (filePath ∈ failing d)
  then (false,
        {| files := files d; failing := failing d;
           journal := journal d ++ [(filePath, false)] |})
  else (true,
        {| files := <[filePath := data]> (files d); failing := failing d;
           journal := journal d ++ [(filePath, true)] |}).

(** The [file-exists] handler. *)
Definition file_exists (d : t) (filePath : string) : bool :=
  bool_decide (is_Some (files d !! filePath)).

(** The [read-file] handler: the parsed document, or [null] when
    reading or parsing throws. *)
Definition read_file (d : t) (filePath : string) : option Document :=
  match files d !! filePath with
  | Some Corrupt => None
  | other => other
  end.

End Disk.

(** ** [src/utils/fileStorage.ts]: [EnhancedFileStorage] *)

Module FileStorage.

(** The singleton together with the world it acts on: the JSON
    directory behind the IPC handlers, the browser's [localStorage]
    and the clock.  [clock n] is what the [n]-th evaluation of
    [new Date().toISOString()] yields and [ticks] counts the
    evaluations made. *)
Record t : Type := {
  isElectron : bool;
  dataPath : string;
  comicsPath : string;
  genres : GenreCatalog.t;
  libraryIndex : LibraryIndex.t;
  disk : Disk.t;
  localStorage : gmap string Document;
  clock : nat -> string;
  ticks : nat
}.

Definition with_disk (s : t) (d : Disk.t) : t :=
  {| isElectron := isElectron s; dataPath := dataPath s;
     comicsPath := comicsPath s; genres := genres s;
     libraryIndex := libraryIndex s; disk := d;
     localStorage := localStorage s; clock := clock s;
     ticks := ticks s |}.

Definition with_libraryIndex (s : t) (i : LibraryIndex.t) : t :=
  {| isElectron := isElectron s; dataPath := dataPath s;
     comicsPath := comicsPath s; genres := genres s;
     libraryIndex := i; disk := disk s;
     localStorage := localStorage s; clock := clock s;
     ticks := ticks s |}.

Definition with_genres (s : t) (g : GenreCatalog.t) : t :=
  {| isElectron := isElectron s; dataPath := dataPath s;
     comicsPath := comicsPath s; genres := g;
     libraryIndex := libraryIndex s; disk := disk s;
     localStorage := localStorage s; clock := clock s;
     ticks := ticks s |}.

Definition with_localStorage (s : t) (l : gmap string Document) : t :=
  {| isElectron := isElectron s; dataPath := dataPath s;
     comicsPath := comicsPath s; genres := genres s;
     libraryIndex := libraryIndex s; disk := disk s;
     localStorage := l; clock := clock s;
     ticks := ticks s |}.

Definition with_ticks (s : t) (n : nat) : t :=
  {| isElectron := isElectron s; dataPath := dataPath s;
     comicsPath := comicsPath s; genres := genres s;
     libraryIndex := libraryIndex s; disk := disk s;
     localStorage := localStorage s; clock := clock s;
     ticks := n |}.

(** What [initializeStorage] makes of the two paths:
    [dataPath = `${appData}/json`] and
    [comicsPath = `${dataPath}/comics`]. *)
Definition paths_initialized (s : t) : Prop :=
  comicsPath s = dataPath s +:+ "/comics".

(** *** A state monad for the methods *)

Definition M (A : Type) : Type := t -> A * t.

Definition ret {A} (a : A) : M A := fun s => (a, s).

Definition bind {A B} (m : M A) (k : A -> M B) : M B :=
  fun s => let '(a, s') := m s in k a s'.

Definition gets {A} (f : t -> A) : M A := fun s => (f s, s).

Definition modify (f : t -> t) : M unit := fun s => (tt, f s).

Notation "'let*' x ':=' m 'in' k" :=
  (bind m (fun x => k))
    (at level 10, x name, m at level 100, k at level 200).

Notation "m ';;' k" :=
  (bind m (fun _ => k))
    (at level 100, k at level 200, right associativity).

(** [new Date().toISOString()]. *)
Definition now : M string :=
  fun s => (clock s (ticks s), with_ticks s (S (ticks s))).

(** *** The private helpers *)

Definition readFile (filePath : string) : M (option Document) :=
  fun s =>
    if negb (isElectron s) then (None, s)
    else if negb (Disk.file_exists (disk s) filePath) then (None, s)
    else (Disk.read_file (disk s) filePath, s).

Definition writeFile (filePath : string) (data : Document) : M bool :=
  fun s =>
    if negb (isElectron s) then (false, s)
    else
      let '(result, d) := Disk.write_file (disk s) filePath data in
      (result, with_disk s d).

(** [`${this.comicsPath}/comic_${comicId}.json`]. *)
Definition comicFilePath (s : t) (comicId : string) : string :=
  comicsPath s +:+ "/" +:+ ("comic_" +:+ comicId +:+ ".json").

(** [`${this.dataPath}/library_index.json`]. *)
Definition libraryIndexPath (s : t) : string :=
  dataPath s +:+ "/library_index.json".

(** *** Individual comic files *)

Definition saveComic (comic : Comic.t) : M bool :=
  let* electron := gets isElectron in
  if negb electron then ret false
  else
    let* filePath := gets (fun s => comicFilePath s (Comic.id comic)) in
    let* success := writeFile filePath (ComicDoc comic) in
    if success then
      let* lastModified := now in
      modify (fun s =>
        with_libraryIndex s
          (LibraryIndex.with_comics (libraryIndex s)
             (JsObject.set (Comic.id comic)
                {| IndexEntry.title := Comic.title comic;
                   IndexEntry.folderPath := Comic.folderPath comic;
                   IndexEntry.lastModified := lastModified |}
                (LibraryIndex.comics (libraryIndex s)))));;
      let* indexPath := gets libraryIndexPath in
      let* index := gets libraryIndex in
      writeFile indexPath (IndexDoc index);;
      ret true
    else ret false.

(** [getComic]: the document of the per-id file, [null] when there is
    none.  A document that is not a comic record has none of the
    fields the callers read and is treated as [null]. *)
Definition getComic (comicId : string) : M (option Comic.t) :=
  let* electron := gets isElectron in
  if negb electron then ret None
  else
    let* filePath := gets (fun s => comicFilePath s comicId) in
    let* comic := readFile filePath in
    match comic with
    | Some (ComicDoc c) => ret (Some c)
    | _ => ret None
    end.

Definition deleteComic (comicId : string) : M bool :=
  let* electron := gets isElectron in
  if negb electron then ret false
  else
    modify (fun s =>
      with_libraryIndex s
        (LibraryIndex.with_comics (libraryIndex s)
           (JsObject.delete comicId
              (LibraryIndex.comics (libraryIndex s)))));;
    let* indexPath := gets libraryIndexPath in
    let* index := gets libraryIndex in
    writeFile indexPath (IndexDoc index);;
    ret true.

(** *** Bulk operations *)

(** [for (const comic of comics) await this.saveComic(comic)]. *)
Fixpoint saveEach (comics : list Comic.t) : M unit :=
  match comics with
  | [] => ret tt
  | comic :: rest => saveComic comic;; saveEach rest
  end.

Definition saveComics (comics : list Comic.t) : M bool :=
  let* electron := gets isElectron in
  if negb electron then ret false
  else
    saveEach comics;;
    let* lastScan := now in
    modify (fun s =>
      with_libraryIndex s
        {| LibraryIndex.comics := LibraryIndex.comics (libraryIndex s);
           LibraryIndex.lastScan := lastScan;
           LibraryIndex.totalComics := length comics |});;
    let* indexPath := gets libraryIndexPath in
    let* index := gets libraryIndex in
    writeFile indexPath (IndexDoc index);;
    ret true.

(** [for (const comicId in this.libraryIndex.comics)]: load each
    file, skipping the ids whose file gives nothing. *)
Fixpoint loadEach (comicIds : list string) : M (list Comic.t) :=
  match comicIds with
  | [] => ret []
  | comicId :: rest =>
      let* comic := getComic comicId in
      let* others := loadEach rest in
      ret (match comic with
           | Some c => c :: others
           | None => others
           end)
  end.

Definition getAllComics : M (list Comic.t) :=
  let* electron := gets isElectron in
  if negb electron then ret []
  else
    let* index := gets libraryIndex in
    loadEach (JsObject.keys (LibraryIndex.comics index)).

Definition getLibrary : M (list Comic.t) := getAllComics.

Definition setLibrary (library : list Comic.t) : M unit :=
  saveComics library;; ret tt.

(** *** Genres *)

Definition getGenres : M GenreCatalog.t :=
  let* electron := gets isElectron in
  if electron then gets genres
  else
    let* stored := gets (fun s => localStorage s !! "komi-genres") in
    ret (match stored with
         | Some (GenresDoc g) => g
         | _ => GenreCatalog.empty
         end).

Definition setGenres (g : GenreCatalog.t) : M unit :=
  let* electron := gets isElectron in
  if electron then
    modify (fun s => with_genres s g);;
    let* path := gets (fun s => dataPath s +:+ "/genres.json") in
    writeFile path (GenresDoc g);;
    ret tt
  else
    modify (fun s =>
      with_localStorage s (<["komi-genres" := GenresDoc g]> (localStorage s))).

(** *** Folder renaming *)

(** The code units that [sanitizeTitle] replaces: the angle
    brackets, the colon, the double quote, both slashes, the bar, the
    question mark and the star. *)
Definition invalid_title_char (c : ascii) : bool :=
  existsb (Ascii.eqb c) (list_ascii_of_string ("<>:/\|?*" +:+ Js.dquote)).

(** [sanitizeTitle]: each such code unit becomes an underscore,
    every run of white space one space, and the result is
    trimmed. *)
Definition sanitizeTitle (title : string) : string :=
  Js.trim
    (Js.normalize_spaces
       (Js.string_map
          (fun c => if invalid_title_char c then "_"%char else c)
          title)).

(** The path computed for the renamed folder:
    [oldPath.substring(0, oldPath.lastIndexOf('/'))], then a slash,
    then the new folder name.  [substring] takes a negative end for
    zero. *)
Definition siblingPath (oldPath newFolderName : string) : string :=
  let lastSlashIndex := Js.lastIndexOf oldPath "/" in
  let directoryPath :=
    String.substring 0 (default 0 lastSlashIndex) oldPath in
  directoryPath +:+ "/" +:+ newFolderName.

Section RenameComicFolder.

Variable renameSync : Fs.Tree -> string -> string -> Try Fs.Tree.

(** [renameComicFolder(oldTitle, newTitle, oldPath)] acting on the
    library tree [tree]: the new path ([None] for [null]) and the
    tree afterwards. *)
Definition renameComicFolder (oldTitle newTitle oldPath : string)
           (tree : Fs.Tree) : M (option string * Fs.Tree) :=
  let* electron := gets isElectron in
  if negb electron then ret (None, tree)
  else
    let oldFolderName := sanitizeTitle oldTitle in
    let newFolderName := sanitizeTitle newTitle in
    if String.eqb oldFolderName newFolderName
    then ret (Some oldPath, tree)
    else
      let newPath := siblingPath oldPath newFolderName in
      let '(success, tree') :=
        Main.rename_folder renameSync tree oldPath newPath in
      if success then ret (Some newPath, tree')
      else ret (None, tree').

End RenameComicFolder.

End FileStorage.

(** ** [src/components/ComicsLibrary.tsx] *)

Module ComicsLibrary.

Import FileStorage.

Section MergeReadingProgress.

(** [Date.prototype.toISOString]. *)
Variable toISOString : Date -> string.

(** [readingProgress[id]] as the merge reads it, [None] for
    [undefined].  The entry of [id] is found when there is one.
    Without one, the lookup goes on to [Object.prototype]: for the
    names in [JsObject.prototype_keys] it finds an inherited function
    (or the prototype itself), which is truthy and has neither a
    [lastRead] nor a [currentPage]. *)
Definition progressOf (readingProgress : JsObject.t Progress.t)
           (id : string) : option Progress.t :=
  match JsObject.get id readingProgress with
  | Some progress => Some progress
  | None =>
      if JsObject.inherited id
      then Some {| Progress.lastRead := None;
                   Progress.currentPage := None |}
      else None
  end.

(** The callback of [comics.map] in [mergeReadingProgress]. *)
Definition mergeOne (readingProgress : JsObject.t Progress.t)
           (comic : Comic.t) : Comic.t :=
  match progressOf readingProgress (Comic.id comic) with
  | Some progress =>
      {| Comic.id := Comic.id comic;
         Comic.title := Comic.title comic;
         Comic.displayTitle := Comic.displayTitle comic;
         Comic.author := Comic.author comic;
         Comic.groupAuthor := Comic.groupAuthor comic;
         Comic.genres := Comic.genres comic;
         Comic.comicGenres := Comic.comicGenres comic;
         Comic.genre := Comic.genre comic;
         Comic.tags := Comic.tags comic;
         Comic.description := Comic.description comic;
         Comic.releaseDate := Comic.releaseDate comic;
         Comic.lastRead := Progress.lastRead progress;
         Comic.lastReadPage := Comic.lastReadPage comic;
         Comic.lastReadDate :=
           match Progress.lastRead progress with
           | Some d => Some (toISOString d)
           | None => Comic.lastReadDate comic
           end;
         Comic.coverImage := Comic.coverImage comic;
         Comic.totalPages := Comic.totalPages comic;
         Comic.currentPage :=
           match Progress.currentPage progress with
           | Some page => page
           | None => Comic.currentPage comic
           end;
         Comic.folderPath := Comic.folderPath comic;
         Comic.pages := Comic.pages comic;
         Comic.depth := Comic.depth comic |}
  | None => comic
  end.

Definition mergeReadingProgress (comics : list Comic.t)
           (readingProgress : JsObject.t Progress.t) : list Comic.t :=
  List.map (mergeOne readingProgress) comics.

End MergeReadingProgress.

(** The object literal returned by [convertComicFolderToComic], for
    the saved [metadata] that [fileStorage.getComic] gave. *)
Definition mergedComic (comicFolder : ComicFolder.t)
           (metadata : option Comic.t) : Comic.t :=
  let coverImage :=
    Js.opt_or_else (ComicFolder.coverImage comicFolder)
                   "/placeholder.svg" in
  {| Comic.id := ComicFolder.id comicFolder;
     Comic.title :=
       Js.opt_or_else (Comic.title <$> metadata)
                      (ComicFolder.title comicFolder);
     Comic.displayTitle := None;
     Comic.author :=
       Some (Js.opt_or_else (metadata ≫= Comic.author) "Unknown");
     Comic.groupAuthor := None;
     Comic.genres := [];
     Comic.comicGenres := metadata ≫= Comic.comicGenres;
     Comic.genre := metadata ≫= Comic.genre;
     Comic.tags := None;
     Comic.description := metadata ≫= Comic.description;
     Comic.releaseDate := None;
     Comic.lastRead := Some (ComicFolder.lastModified comicFolder);
     Comic.lastReadPage := None;
     Comic.lastReadDate := None;
     Comic.coverImage := coverImage;
     Comic.totalPages := ComicFolder.totalPages comicFolder;
     Comic.currentPage := 1;
     Comic.folderPath := ComicFolder.folderPath comicFolder;
     Comic.pages := Some (ComicFolder.pages comicFolder);
     Comic.depth := None |}.

Definition convertComicFolderToComic (comicFolder : ComicFolder.t)
  : M Comic.t :=
  let* metadata := getComic (ComicFolder.id comicFolder) in
  ret (mergedComic comicFolder metadata).

(** [await Promise.all(result.comics.map(convertComicFolderToComic))]. *)
Fixpoint convertAll (folders : list ComicFolder.t) : M (list Comic.t) :=
  match folders with
  | [] => ret []
  | comicFolder :: rest =>
      let* comic := convertComicFolderToComic comicFolder in
      let* others := convertAll rest in
      ret (comic :: others)
  end.

(** [handleRefresh(directory)] for the directory it settles on: the
    new [comics] state of the component ([None] when the function
    returns before scanning) and the storage afterwards. *)
Definition handleRefresh (tree : Fs.Tree) (cwd : string)
           (targetDirectory : string) : M (option (list Comic.t)) :=
  if negb (Js.truthy targetDirectory) then ret None
  else
    let result := Main.read_directory tree cwd targetDirectory in
    let* convertedComics :=
      convertAll (DirectoryScanResult.comics result) in
    saveComics convertedComics;;
    ret (Some convertedComics).

End ComicsLibrary.

(** ** [src/components/GenreManager.tsx] *)

Module GenreManager.

Import FileStorage.

Record Selection : Type := {
  category : GenreCatalogType.t;
  index : nat;
  value : string
}.

(** An entry of [affectedComics]. *)
Record Affected : Type := {
  id : string;
  title : string;
  folderPath : string
}.

(** The pieces of component state that [checkGenreUsage] touches. *)
Record State : Type := {
  genres : GenreCatalog.t;
  selectedGenre : option Selection;
  showDeleteAlert : bool;
  genreToDelete : option Selection;
  affectedComics : list Affected;
  isCheckingGenres : bool
}.

(** [Object.values(comic.comicGenres).some(genreList =>
      Array.isArray(genreList) && genreList.includes(value))],
    guarded by [if (comic.comicGenres)]. *)
Definition hasGenre (comic : Comic.t) (value : string) : bool :=
  match Comic.comicGenres comic with
  | Some g =>
      existsb (fun genreList => existsb (String.eqb value) genreList)
              (ComicGenres.values g)
  | None => false
  end.

(** [comic.folderPath || comic.title]. *)
Definition uniqueKey (comic : Comic.t) : string :=
  Js.or_else (Comic.folderPath comic) (Comic.title comic).

Definition summary (comic : Comic.t) : Affected :=
  {| id := Comic.id comic;
     title := Comic.title comic;
     folderPath := Comic.folderPath comic |}.

(** One turn of [allComics.forEach]: [uniqueAffectedComics] is the
    [Map], in insertion order. *)
Definition visit (value : string)
           (uniqueAffectedComics : JsObject.t Affected)
           (comic : Comic.t) : JsObject.t Affected :=
  if hasGenre comic value then
    match JsObject.get (uniqueKey comic) uniqueAffectedComics with
    | Some _ => uniqueAffectedComics
    | None => uniqueAffectedComics ++ [(uniqueKey comic, summary comic)]
    end
  else uniqueAffectedComics.

(** [Array.from(uniqueAffectedComics.values())] after the loop. *)
Definition affectedBy (value : string) (allComics : list Comic.t)
  : list Affected :=
  List.map snd (fold_left (visit value) allComics []).

(** [l.filter((_, i) => keep(i))], [i] being the index from which
    [l] starts. *)
Fixpoint filter_index {A} (keep : nat -> bool) (i : nat) (l : list A)
  : list A :=
  match l with
  | [] => []
  | x :: r =>
      if keep i then x :: filter_index keep (S i) r
      else filter_index keep (S i) r
  end.

(** [saveGenres(newGenres)]: the catalog goes to storage, then into
    the component. *)
Definition saveGenres (newGenres : GenreCatalog.t) (st : State)
  : M State :=
  setGenres newGenres;;
  ret {| genres := newGenres;
         selectedGenre := selectedGenre st;
         showDeleteAlert := showDeleteAlert st;
         genreToDelete := genreToDelete st;
         affectedComics := affectedComics st;
         isCheckingGenres := isCheckingGenres st |}.

(** [checkGenreUsage(category, index, value)], what [deleteGenre]
    runs for the selected genre. *)
Definition checkGenreUsage (category : GenreCatalogType.t) (index : nat)
           (value : string) (st : State) : M State :=
  let* allComics := getLibrary in
  let affected := affectedBy value allComics in
  if Nat.eqb (length affected) 0 then
    let newGenres :=
      GenreCatalog.set (genres st) category
        (filter_index (fun i => negb (Nat.eqb i index)) 0
                      (GenreCatalog.get (genres st) category)) in
    let* st' :=
      saveGenres newGenres
        {| genres := genres st;
           selectedGenre := selectedGenre st;
           showDeleteAlert := showDeleteAlert st;
           genreToDelete := genreToDelete st;
           affectedComics := affected;
           isCheckingGenres := true |} in
    ret {| genres := genres st';
           selectedGenre := None;
           showDeleteAlert := showDeleteAlert st';
           genreToDelete := genreToDelete st';
           affectedComics := affectedComics st';
           isCheckingGenres := false |}
  else
    ret {| genres := genres st;
           selectedGenre := selectedGenre st;
           showDeleteAlert := true;
           genreToDelete :=
             Some {| category := category; index := index;
                     value := value |};
           affectedComics := affected;
           isCheckingGenres := false |}.

End GenreManager.

(** ** Concrete libraries and stores used below *)

Module Examples.

Import Fs.

Definition file (n : string) : Dirent :=
  {| name := n; kind := RegularFile |}.

Definition dir (n : string) : Dirent :=
  {| name := n; kind := Directory |}.

(** A tree given by the listing of each of its directories; any other
    path cannot be read. *)
Definition tree_of (listing : list (string * list Dirent)) : Tree :=
  {| readdirSync p :=
       match JsObject.get p listing with
       | Some entries => Returns entries
       | None => Throws ("ENOENT: no such file or directory, scandir " +:+ p)
       end;
     statSync_mtime p :=
       match JsObject.get p listing with
       | Some _ => Returns 1700000000000%Z
       | None => Throws ("ENOENT: no such file or directory, stat " +:+ p)
       end;
     existsSync p :=
       match JsObject.get p listing with
       | Some _ => true
       | None => false
       end |}.

(** [/Lib] holds [AuthorA/SeriesX/{1.jpg,2.png}] and [AuthorB/a.jpg]. *)
Definition library : Tree :=
  tree_of
    [("/Lib", [dir "AuthorA"; dir "AuthorB"]);
     ("/Lib/AuthorA", [dir "SeriesX"]);
     ("/Lib/AuthorA/SeriesX", [file "2.png"; file "1.jpg"]);
     ("/Lib/AuthorB", [file "a.jpg"])].

(** [/Shelf/Mixed] holds [a.jpg], [B.jpg] and a folder [Extra] with
    [c.jpg] in it. *)
Definition mixed_case_library : Tree :=
  tree_of
    [("/Shelf", [dir "Mixed"]);
     ("/Shelf/Mixed", [file "a.jpg"; file "B.jpg"; dir "Extra"]);
     ("/Shelf/Mixed/Extra", [file "c.jpg"])].

(** A library in which nothing can be read. *)
Definition nothing : Tree := tree_of [].

Definition disk_of (files : gmap string Document) (failing : gset string)
  : Disk.t :=
  {| Disk.files := files; Disk.failing := failing; Disk.journal := [] |}.

(** A store as [initializeStorage] leaves it the first time, on the
    given disk and with the given index. *)
Definition storage_on (index : LibraryIndex.t) (d : Disk.t)
  : FileStorage.t :=
  {| FileStorage.isElectron := true;
     FileStorage.dataPath := "/data/json";
     FileStorage.comicsPath := "/data/json/comics";
     FileStorage.genres := GenreCatalog.empty;
     FileStorage.libraryIndex := index;
     FileStorage.disk := d;
     FileStorage.localStorage := ∅;
     FileStorage.clock := fun n => "2025-01-01T00:00:0" +:+ pretty n;
     FileStorage.ticks := 0 |}.

Definition fresh_storage : FileStorage.t :=
  storage_on LibraryIndex.empty (disk_of ∅ ∅).

(** The record of [/Lib/AuthorB] as a refresh of [library] saves it,
    with the user's edits [author] and [comicGenres]. *)
Definition authorB (author : option string)
           (comicGenres : option ComicGenres.t) : Comic.t :=
  {| Comic.id := "authorb-0-L0xpYi9B";
     Comic.title := "AuthorB";
     Comic.displayTitle := None;
     Comic.author := author;
     Comic.groupAuthor := None;
     Comic.genres := [];
     Comic.comicGenres := comicGenres;
     Comic.genre := None;
     Comic.tags := None;
     Comic.description := Some "A short story";
     Comic.releaseDate := None;
     Comic.lastRead := Some 1700000000000%Z;
     Comic.lastReadPage := None;
     Comic.lastReadDate := None;
     Comic.coverImage := "file:///Lib/AuthorB/a.jpg";
     Comic.totalPages := 1;
     Comic.currentPage := 1;
     Comic.folderPath := "/Lib/AuthorB";
     Comic.pages := Some ["file:///Lib/AuthorB/a.jpg"];
     Comic.depth := None |}.

(** The record that the scan of [library] makes for [/Lib/AuthorB]. *)
Definition authorB_folder : ComicFolder.t :=
  {| ComicFolder.id := "authorb-0-L0xpYi9B";
     ComicFolder.title := "AuthorB";
     ComicFolder.displayTitle := Some "AuthorB";
     ComicFolder.folderPath := "/Lib/AuthorB";
     ComicFolder.coverImage := Some "file:///Lib/AuthorB/a.jpg";
     ComicFolder.totalPages := 1;
     ComicFolder.pages := ["file:///Lib/AuthorB/a.jpg"];
     ComicFolder.lastModified := 1700000000000%Z;
     ComicFolder.author := Some "Lib";
     ComicFolder.depth := Some 0 |}.

Definition brave : ComicGenres.t :=
  {| ComicGenres.protagonist := Some ["brave"];
     ComicGenres.antagonist := Some [];
     ComicGenres.supporting := Some [];
     ComicGenres.narrative := Some [] |}.

Definition index_of (comic : Comic.t) : LibraryIndex.t :=
  {| LibraryIndex.comics :=
       [(Comic.id comic,
         {| IndexEntry.title := Comic.title comic;
            IndexEntry.folderPath := Comic.folderPath comic;
            IndexEntry.lastModified := "2024-12-31T00:00:00" |})];
     LibraryIndex.lastScan := "2024-12-31T00:00:00";
     LibraryIndex.totalComics := 1 |}.

(** A store that holds the one record [comic]. *)
Definition storage_with (comic : Comic.t) (failing : gset string)
  : FileStorage.t :=
  storage_on (index_of comic)
    (disk_of
       {[ "/data/json/comics/comic_" +:+ Comic.id comic +:+ ".json"
            := ComicDoc comic ]}
       failing).

(** A catalog with two personality genres, and the component with the
    second one selected. *)
Definition catalog : GenreCatalog.t :=
  {| GenreCatalog.personality := ["brave"; "shy"];
     GenreCatalog.verb := ["fighting"];
     GenreCatalog.plot := [] |}.

Definition manager_state : GenreManager.State :=
  {| GenreManager.genres := catalog;
     GenreManager.selectedGenre :=
       Some {| GenreManager.category := GenreCatalogType.personality;
               GenreManager.index := 1;
               GenreManager.value := "shy" |};
     GenreManager.showDeleteAlert := false;
     GenreManager.genreToDelete := None;
     GenreManager.affectedComics := [];
     GenreManager.isCheckingGenres := false |}.

End Examples.

(** ** More of [src/components/GenreManager.tsx] *)

Module GenreEditing.

Import FileStorage GenreManager.

(** The [newGenre] state: the category and the text of the input. *)
Record NewGenre : Type := {
  newCategory : GenreCatalogType.t;
  newValue : string
}.

(** [addGenre()]: nothing for a blank input; otherwise the trimmed
    input goes to the end of its category, the catalog is saved and the
    input is emptied. *)
Definition addGenre (newGenre : NewGenre) (st : State)
  : M (State * NewGenre) :=
  if negb (Js.truthy (Js.trim (newValue newGenre)))
  then ret (st, newGenre)
  else
    let newGenres :=
      GenreCatalog.set (genres st) (newCategory newGenre)
        (GenreCatalog.get (genres st) (newCategory newGenre)
           ++ [Js.trim (newValue newGenre)]) in
    let* st' := saveGenres newGenres st in
    ret (st', {| newCategory := newCategory newGenre;
                 newValue := EmptyString |}).

(** [l.map((x, i) => f(x, i))], [i] being the index from which [l]
    starts. *)
Fixpoint map_index {A B} (f : A -> nat -> B) (i : nat) (l : list A)
  : list B :=
  match l with
  | [] => []
  | x :: r => f x i :: map_index f (S i) r
  end.

(** [saveEdit()] for the [editingGenre] state: the state of the
    component and [editingGenre] afterwards. *)
Definition saveEdit (editingGenre : option Selection) (st : State)
  : M (State * option Selection) :=
  match editingGenre with
  | None => ret (st, editingGenre)
  | Some editing =>
      if negb (Js.truthy (Js.trim (value editing)))
      then ret (st, editingGenre)
      else
        let newGenres :=
          GenreCatalog.set (genres st) (category editing)
            (map_index
               (fun genre i =>
                  if Nat.eqb i (index editing)
                  then Js.trim (value editing) else genre)
               0 (GenreCatalog.get (genres st) (category editing))) in
        let* st' := saveGenres newGenres st in
        ret ({| genres := genres st';
                selectedGenre := None;
                showDeleteAlert := showDeleteAlert st';
                genreToDelete := genreToDelete st';
                affectedComics := affectedComics st';
                isCheckingGenres := isCheckingGenres st' |},
             None)
  end.

(** [deleteGenre()]: nothing without a selection, otherwise the usage
    check for the selected genre. *)
Definition deleteGenre (st : State) : M State :=
  match selectedGenre st with
  | None => ret st
  | Some selected =>
      checkGenreUsage (category selected) (index selected)
                      (value selected) st
  end.

End GenreEditing.

(** ** More of [src/components/ComicsLibrary.tsx]: what the library
    shows *)

Module LibraryView.

(** [s.includes(sub)]. *)
Fixpoint includes (s sub : string) : bool :=
  String.prefix sub s
  || match s with
     | EmptyString => false
     | String _ r => includes r sub
     end.

(** [formatGenres(comicGenres)]: the values of all tiers, one after
    the other ([Object.values] in the order of [ComicGenres.values]). *)
Definition formatGenres (comicGenres : option ComicGenres.t)
  : list string :=
  match comicGenres with
  | None => []
  | Some g => List.concat (ComicGenres.values g)
  end.

(** The text test of the filter: the search text, in lower case, occurs
    in the lower-case title, display title, author or description. *)
Definition matchesText (searchText : string) (comic : Comic.t) : bool :=
  let needle := Js.toLowerCase searchText in
  includes (Js.toLowerCase (Comic.title comic)) needle
  || match Comic.displayTitle comic with
     | Some displayTitle =>
         Js.truthy displayTitle
         && includes (Js.toLowerCase displayTitle) needle
     | None => false
     end
  || match Comic.author comic with
     | Some author => includes (Js.toLowerCase author) needle
     | None => false
     end
  || match Comic.description comic with
     | Some description => includes (Js.toLowerCase description) needle
     | None => false
     end.

(** The genre test of the filter:
    [selectedGenres.some(selectedGenre =>
       Object.values(comic.comicGenres || {}).some(genreList =>
         Array.isArray(genreList) && genreList.includes(selectedGenre)))]. *)
Definition matchesGenres (selectedGenres : list string) (comic : Comic.t)
  : bool :=
  existsb
    (fun selectedGenre =>
       existsb (fun genreList => existsb (String.eqb selectedGenre) genreList)
               (match Comic.comicGenres comic with
                | Some g => ComicGenres.values g
                | None => []
                end))
    selectedGenres.

(** The filtering effect: [filteredComics] for the comics, the search
    text and the selected genres. *)
Definition filterComics (comics : list Comic.t) (searchText : string)
           (selectedGenres : list string) : list Comic.t :=
  let filtered :=
    if Js.truthy searchText
    then List.filter (matchesText searchText) comics
    else comics in
  if 0 <? length selectedGenres
  then List.filter (matchesGenres selectedGenres) filtered
  else filtered.

(** [handleGenreToggle(genre)] on the selected genres. *)
Definition handleGenreToggle (prev : list string) (genre : string)
  : list string :=
  if existsb (String.eqb genre) prev
  then List.filter (fun g => negb (String.eqb g genre)) prev
  else prev ++ [genre].

End LibraryView.

(** ** [src/hooks/useAutoRefreshMetadata.ts] *)

Module AutoRefresh.

Import FileStorage.

(** Milliseconds between two automatic refreshes. *)
Definition refreshCooldown : Z := 5000.

(** [refreshMetadata()] at the time [now] ([Date.now()]), for the
    [lastRefreshTime] kept by the hook: the comics handed to
    [onMetadataRefreshed] ([None] when the call returns early) and
    [lastRefreshTime] afterwards. *)
Definition refreshMetadata (mainDirectory : option string) (enabled : bool)
           (now lastRefreshTime : Z) : M (option (list Comic.t) * Z) :=
  match mainDirectory with
  | None => ret (None, lastRefreshTime)
  | Some directory =>
      if negb (Js.truthy directory) || negb enabled
      then ret (None, lastRefreshTime)
      else if (now - lastRefreshTime <? refreshCooldown)%Z
      then ret (None, lastRefreshTime)
      else
        let* updatedComics := getLibrary in
        let directoryComics :=
          List.filter
            (fun comic => String.eqb (Comic.folderPath comic) directory)
            updatedComics in
        ret (Some directoryComics, now)
  end.

End AutoRefresh.

(** ** More concrete libraries and stores *)

Module MoreExamples.

Import Fs.

(** The application outside Electron (in a browser). *)
Definition browser_storage : FileStorage.t :=
  {| FileStorage.isElectron := false;
     FileStorage.dataPath := EmptyString;
     FileStorage.comicsPath := EmptyString;
     FileStorage.genres := GenreCatalog.empty;
     FileStorage.libraryIndex := LibraryIndex.empty;
     FileStorage.disk := Examples.disk_of ∅ ∅;
     FileStorage.localStorage := ∅;
     FileStorage.clock := fun n => pretty n;
     FileStorage.ticks := 0 |}.

(** [/Library] holds two authors with a series of the same name. *)
Definition twin_library : Tree :=
  Examples.tree_of
    [("/Library", [Examples.dir "A"; Examples.dir "B"]);
     ("/Library/A", [Examples.dir "Vol 1"]);
     ("/Library/A/Vol 1", [Examples.file "1.jpg"]);
     ("/Library/B", [Examples.dir "Vol 1"]);
     ("/Library/B/Vol 1", [Examples.file "1.jpg"; Examples.file "2.jpg"])].

(** [/Lib] with a hidden folder, a plain file, a folder that cannot be
    read and a comic. *)
Definition rough_library : Tree :=
  Examples.tree_of
    [("/Lib", [Examples.dir ".cache"; Examples.file "notes.txt";
               Examples.dir "Locked"; Examples.dir "AuthorB"]);
     ("/Lib/.cache", [Examples.file "thumb.jpg"]);
     ("/Lib/AuthorB", [Examples.file "a.jpg"])].

(** The comic of a folder [/Lib/constructor], with the id that the
    flat scans give it: the lower-case folder name. *)
Definition constructor_comic : Comic.t :=
  {| Comic.id := "constructor";
     Comic.title := "constructor";
     Comic.displayTitle := None;
     Comic.author := Some "Unknown";
     Comic.groupAuthor := None;
     Comic.genres := [];
     Comic.comicGenres := None;
     Comic.genre := None;
     Comic.tags := None;
     Comic.description := None;
     Comic.releaseDate := None;
     Comic.lastRead := Some 1700000000000%Z;
     Comic.lastReadPage := None;
     Comic.lastReadDate := None;
     Comic.coverImage := "file:///Lib/constructor/1.jpg";
     Comic.totalPages := 1;
     Comic.currentPage := 1;
     Comic.folderPath := "/Lib/constructor";
     Comic.pages := Some ["file:///Lib/constructor/1.jpg"];
     Comic.depth := None |}.

(** A store on a disk on which neither the file of [authorB] nor the
    index can be written. *)
Definition read_only_storage : FileStorage.t :=
  Examples.storage_on LibraryIndex.empty
    (Examples.disk_of ∅
       {[ "/data/json/comics/comic_authorb-0-L0xpYi9B.json";
          "/data/json/library_index.json" ]}).

End MoreExamples.

(** ** Steps of the store methods *)

Module StoreSteps.

Import FileStorage.

(** The last step of [saveComics], on the store that the saves left. *)
Definition closeIndex (total : nat) (s : t) : t :=
  snd ((let* lastScan := now in
        modify (fun s =>
          with_libraryIndex s
            {| LibraryIndex.comics := LibraryIndex.comics (libraryIndex s);
               LibraryIndex.lastScan := lastScan;
               LibraryIndex.totalComics := total |});;
        let* indexPath := gets libraryIndexPath in
        let* index := gets libraryIndex in
        writeFile indexPath (IndexDoc index);;
        ret true) s).

End StoreSteps.

(** ** Notions used in the statements *)

Module Notions.

(** Ascending and case-insensitive, as a reader of the words would
    order file names: by the code units of their lower-case forms. *)
Definition case_insensitive_le (a b : string) : Prop :=
  Js.code_unit_le (Js.toLowerCase a) (Js.toLowerCase b).

(** The edits of a saved record that a merged record carries: the
    description and the four tiers as they are, the title and the
    author when they are not empty. *)
Definition keeps_edits (saved merged : Comic.t) : Prop :=
  Comic.description merged = Comic.description saved
  /\ Comic.comicGenres merged = Comic.comicGenres saved
  /\ (Comic.title saved <> EmptyString ->
      Comic.title merged = Comic.title saved)
  /\ (forall author,
        Comic.author saved = Some author ->
        author <> EmptyString ->
        Comic.author merged = Some author).

(** The per-id file of [i] holds a record that satisfies [P]. *)
Definition holds_record (P : Comic.t -> Prop) (i : string) (s : FileStorage.t) : Prop :=
  FileStorage.isElectron s = true
  /\ FileStorage.paths_initialized s
  /\ exists comic,
       Disk.files (FileStorage.disk s) !! FileStorage.comicFilePath s i = Some (ComicDoc comic)
       /\ P comic.

(** Every key of the map stands for a comic that uses the genre, and
    holds the summary of such a comic. *)
Definition sound (value : string) (allComics : list Comic.t)
           (entries : JsObject.t GenreManager.Affected) : Prop :=
  forall key affected,
    In (key, affected) entries ->
    exists comic,
      In comic allComics
      /\ GenreManager.hasGenre comic value = true
      /\ key = GenreManager.uniqueKey comic
      /\ affected = GenreManager.summary comic.

End Notions.

(** * Properties *)

(** ** Strings *)

Module StringFacts.

Lemma length_append (a b : string) :
  String.length (a +:+ b) = String.length a + String.length b.
Proof. induction a as [|c a IH]; simpl; [reflexivity | now rewrite IH]. Qed.

Lemma append_cancel_l (p a b : string) : p +:+ a = p +:+ b -> a = b.
Proof.
  induction p as [|c p IH]; simpl; intros H; [exact H|].
  injection H as H. now apply IH.
Qed.

Lemma append_cancel_r (a b suffix : string) :
  a +:+ suffix = b +:+ suffix -> a = b.
Proof.
  revert b. induction a as [|c a IH]; intros [|c' b] H; simpl in H.
  - reflexivity.
  - apply (f_equal String.length) in H.
    rewrite !length_append in H. simpl in H. lia.
  - apply (f_equal String.length) in H.
    rewrite !length_append in H. simpl in H. lia.
  - injection H as -> H. f_equal. now apply IH.
Qed.

Lemma truthy_nonempty (a : string) : Js.truthy a = true <-> a <> EmptyString.
Proof. destruct a; simpl; split; congruence. Qed.

Lemma or_else_nonempty (a b : string) :
  a <> EmptyString -> Js.or_else a b = a.
Proof. destruct a; simpl; [congruence | reflexivity]. Qed.

End StringFacts.

(** ** The default sort *)

Module SortFacts.

#[global] Instance code_unit_le_total : Total Js.code_unit_le.
Proof. intros a b. unfold Js.code_unit_le. apply String.leb_total. Qed.

Lemma sort_sorted (l : list string) : Sorted Js.code_unit_le (Js.sort l).
Proof. unfold Js.sort. apply Sorted_merge_sort; apply _. Qed.

Lemma sort_permutation (l : list string) : Permutation (Js.sort l) l.
Proof. unfold Js.sort. apply merge_sort_Permutation. Qed.

Lemma sort_length (l : list string) : length (Js.sort l) = length l.
Proof. apply Permutation_length, sort_permutation. Qed.

Lemma sort_nil_iff (l : list string) : Js.sort l = [] <-> l = [].
Proof.
  split; intros H.
  - apply length_zero_iff_nil. rewrite <- sort_length, H. reflexivity.
  - subst l. reflexivity.
Qed.

End SortFacts.

(** ** Insertion-ordered dictionaries *)

Module JsObjectFacts.

Import JsObject.

Section Facts.

Context {V : Type}.
Implicit Types (o : JsObject.t V) (k : string) (v : V).

Lemma get_delete_eq k o : get k (delete k o) = None.
Proof.
  induction o as [|[k' v'] o IH]; simpl; [reflexivity|].
  destruct (String.eqb_spec k' k) as [->|Hne]; simpl; [exact IH|].
  destruct (String.eqb_spec k' k); [contradiction | exact IH].
Qed.

Lemma get_delete_ne k k' o : k' <> k -> get k' (delete k o) = get k' o.
Proof.
  intros Hne. induction o as [|[k0 v0] o IH]; simpl; [reflexivity|].
  destruct (String.eqb_spec k0 k) as [->|Hne0]; simpl.
  - destruct (String.eqb_spec k k'); [congruence | exact IH].
  - destruct (String.eqb_spec k0 k'); [reflexivity | exact IH].
Qed.


Lemma get_set_ne k k' v o : k' <> k -> get k' (set k v o) = get k' o.
Proof.
  intros Hne. induction o as [|[k0 v0] o IH]; simpl.
  - destruct (String.eqb_spec k k'); [congruence | reflexivity].
  - destruct (String.eqb_spec k0 k) as [->|Hne0]; simpl.
    + destruct (String.eqb_spec k k'); [congruence | reflexivity].
    + destruct (String.eqb_spec k0 k'); [reflexivity | exact IH].
Qed.

Lemma get_None_not_key k o : get k o = None -> ~ In k (keys o).
Proof.
  induction o as [|[k0 v0] o IH]; simpl; [tauto|].
  destruct (String.eqb_spec k0 k); [discriminate|].
  intros H [Heq|Hin]; [contradiction | now apply IH].
Qed.

End Facts.

End JsObjectFacts.

(** ** The recursive scan of [main.js] *)

Module ScanFacts.

Import Fs Main Notions.

Section Facts.

Variable tree : Tree.
Variables cwd directoryPath : string.

Local Abbreviation scan := (scanForComics tree cwd directoryPath).
Local Abbreviation entry := (scanEntry tree cwd directoryPath).

(** The equation of the source: the depth test, then the loop over
    the entries, each recursive call being [scanForComics]
    itself. *)
Lemma scanForComics_eq (dirPath : string) (depth : nat) :
  scan dirPath depth =
  if maxDepth <? depth then []
  else match readdirSync tree dirPath with
       | Throws _ => []
       | Returns files => List.flat_map (entry scan dirPath depth) files
       end.
Proof.
  unfold scanForComics at 1.
  destruct (maxDepth <? depth) eqn:Hd; [reflexivity|].
  apply Nat.ltb_ge in Hd.
  replace (maxDepth + 1 - depth) with (S (maxDepth - depth)) by lia.
  simpl. destruct (readdirSync tree dirPath) as [files|]; [|reflexivity].
  apply flat_map_ext. intros dirent.
  unfold scanEntry.
  destruct (isVisibleDirectory dirent); [|reflexivity].
  destruct (readdirSync tree _) as [dirContents|]; [|reflexivity].
  destruct (0 <? _); [reflexivity|].
  unfold scanForComics.
  destruct (maxDepth <? depth + 1) eqn:Hd'.
  - apply Nat.ltb_lt in Hd'.
    replace (maxDepth - depth) with 0 by lia. reflexivity.
  - apply Nat.ltb_ge in Hd'. f_equal. lia.
Qed.

Lemma scanForComics_beyond_maxDepth (dirPath : string) (depth : nat) :
  maxDepth < depth -> scan dirPath depth = [].
Proof.
  intros H. unfold scanForComics.
  apply Nat.ltb_lt in H. now rewrite H.
Qed.

Lemma scanLevels_depth (levels : nat) :
  forall dirPath depth record,
    In record (scanLevels tree cwd directoryPath levels dirPath depth) ->
    exists d, ComicFolder.depth record = Some d /\ depth <= d.
Proof.
  induction levels as [|levels IH]; intros dirPath depth record;
    simpl; [tauto|].
  destruct (readdirSync tree dirPath) as [files|]; [|simpl; tauto].
  rewrite in_flat_map. intros (dirent & _ & Hin).
  unfold scanEntry in Hin.
  destruct (isVisibleDirectory dirent); [|destruct Hin].
  destruct (readdirSync tree _) as [dirContents|]; [|destruct Hin].
  destruct (0 <? _).
  - destruct (statSync_mtime tree _) as [mtime|]; [|destruct Hin].
    destruct Hin as [<-|[]]. exists depth. simpl. split; [reflexivity|lia].
  - apply IH in Hin as (d & Hd & Hle). exists d. split; [exact Hd|lia].
Qed.

Lemma scanForComics_depth (dirPath : string) (depth : nat)
      (record : ComicFolder.t) :
  In record (scan dirPath depth) ->
  exists d, ComicFolder.depth record = Some d /\ depth <= d.
Proof.
  unfold scanForComics. destruct (maxDepth <? depth); [intros []|].
  apply scanLevels_depth.
Qed.

(** What a folder with images adds to the scan of its parent. *)
Lemma scanEntry_leaf recur dirPath depth dirent dirContents mtime :
  isVisibleDirectory dirent = true ->
  readdirSync tree (Path.join dirPath (name dirent))
    = Returns dirContents ->
  statSync_mtime tree (Path.join dirPath (name dirent))
    = Returns mtime ->
  imageNames dirContents <> [] ->
  entry recur dirPath depth dirent =
  [comicRecord cwd directoryPath dirent
     (Path.join dirPath (name dirent)) depth
     (imageFilesOf dirContents) mtime].
Proof.
  intros Hvis Hdir Hstat Himg. unfold scanEntry.
  rewrite Hvis, Hdir, Hstat.
  destruct (0 <? length (imageFilesOf dirContents)) eqn:Hlen;
    [reflexivity|].
  apply Nat.ltb_ge in Hlen. exfalso. apply Himg.
  unfold imageFilesOf in Hlen. rewrite SortFacts.sort_length in Hlen.
  apply length_zero_iff_nil. lia.
Qed.

(** What a folder without images adds to the scan of its parent. *)
Lemma scanEntry_container recur dirPath depth dirent dirContents :
  isVisibleDirectory dirent = true ->
  readdirSync tree (Path.join dirPath (name dirent))
    = Returns dirContents ->
  imageNames dirContents = [] ->
  entry recur dirPath depth dirent =
  recur (Path.join dirPath (name dirent)) (depth + 1).
Proof.
  intros Hvis Hdir Himg. unfold scanEntry.
  rewrite Hvis, Hdir. unfold imageFilesOf. rewrite Himg. reflexivity.
Qed.

Lemma scan_split dirPath depth before dirent after :
  depth <= maxDepth ->
  readdirSync tree dirPath = Returns (before ++ dirent :: after) ->
  scan dirPath depth =
  List.flat_map (entry scan dirPath depth) before
    ++ entry scan dirPath depth dirent
    ++ List.flat_map (entry scan dirPath depth) after.
Proof.
  intros Hd Hdir. rewrite scanForComics_eq, Hdir.
  apply Nat.ltb_ge in Hd. rewrite Hd.
  rewrite flat_map_app. reflexivity.
Qed.

(** C3 (amended).  Let [dirent] be a visible directory entry (not
    dot-prefixed, not [__MACOSX]) of a directory [dirPath] that the
    scan lists at a depth of at most [maxDepth], and let the folder
    be readable and hold at least one supported image file.  Then
    the scan of [dirPath] consists of what the entries before it
    add, exactly one record for the folder, and what the entries
    after it add.  That record has the folder's path, its
    [totalPages] is the number of image files of the folder, its
    [pages] are the locators of exactly those files in ascending
    order of their code units (case-sensitive), and its cover is
    the first page. *)
Theorem leaf_folder_record dirPath depth before dirent after
        dirContents mtime :
  depth <= maxDepth ->
  readdirSync tree dirPath = Returns (before ++ dirent :: after) ->
  isVisibleDirectory dirent = true ->
  readdirSync tree (Path.join dirPath (name dirent))
    = Returns dirContents ->
  statSync_mtime tree (Path.join dirPath (name dirent))
    = Returns mtime ->
  imageNames dirContents <> [] ->
  exists record names,
    scan dirPath depth =
      List.flat_map (entry scan dirPath depth) before
        ++ [record]
        ++ List.flat_map (entry scan dirPath depth) after
    /\ ComicFolder.folderPath record = Path.join dirPath (name dirent)
    /\ ComicFolder.totalPages record = length (imageNames dirContents)
    /\ ComicFolder.pages record =
         List.map (pageUrl (Path.join dirPath (name dirent))) names
    /\ Permutation names (imageNames dirContents)
    /\ Sorted Js.code_unit_le names
    /\ ComicFolder.coverImage record = head (ComicFolder.pages record).
Proof.
  intros Hd Hdir Hvis Hsub Hstat Himg.
  exists (comicRecord cwd directoryPath dirent
            (Path.join dirPath (name dirent)) depth
            (imageFilesOf dirContents) mtime),
         (imageFilesOf dirContents).
  split.
  { rewrite (scan_split dirPath depth before dirent after Hd Hdir).
    now rewrite (scanEntry_leaf _ _ _ _ _ _ Hvis Hsub Hstat Himg). }
  simpl. repeat split.
  - unfold imageFilesOf. apply SortFacts.sort_length.
  - apply SortFacts.sort_permutation.
  - apply SortFacts.sort_sorted.
  - destruct (imageFilesOf dirContents) as [|f files] eqn:Hsorted;
      [|reflexivity].
    unfold imageFilesOf in Hsorted.
    exfalso. apply Himg. now apply SortFacts.sort_nil_iff.
Qed.

(** C4.  Let [dirent] be a visible directory entry of a directory
    [dirPath] that the scan lists at a depth of at most [maxDepth],
    and let the folder be readable and hold no image file.  Then
    what the folder adds to the scan of [dirPath] is the scan of
    the folder itself at [depth + 1] and nothing else; that scan is
    the concatenation of what the entries of the folder add, or
    nothing once [depth + 1] exceeds [maxDepth].  The records of the
    subfolders are discovered: while [depth + 1] is within
    [maxDepth], every visible subfolder that can be read, holds an
    image file and can be stat-ed has its record, made at
    [depth + 1], among the records that the scan of [dirPath]
    returns, and every subfolder that is itself a readable container
    hands on what its own scan at [depth + 2] finds.  Every record
    that the folder adds was made at a depth greater than [depth], so
    none stands for the folder; a scan beyond [maxDepth] returns the
    empty list; and the handler reports no error. *)
Theorem container_folder_recursion dirPath depth before dirent after
        dirContents :
  depth <= maxDepth ->
  readdirSync tree dirPath = Returns (before ++ dirent :: after) ->
  isVisibleDirectory dirent = true ->
  readdirSync tree (Path.join dirPath (name dirent))
    = Returns dirContents ->
  imageNames dirContents = [] ->
  let fullPath := Path.join dirPath (name dirent) in
  scan dirPath depth =
    List.flat_map (entry scan dirPath depth) before
      ++ scan fullPath (depth + 1)
      ++ List.flat_map (entry scan dirPath depth) after
  /\ scan fullPath (depth + 1) =
       (if maxDepth <? depth + 1 then []
        else List.flat_map (entry scan fullPath (depth + 1)) dirContents)
  /\ (forall sub subContents mtime,
        depth + 1 <= maxDepth ->
        In sub dirContents ->
        isVisibleDirectory sub = true ->
        readdirSync tree (Path.join fullPath (name sub))
          = Returns subContents ->
        imageNames subContents <> [] ->
        statSync_mtime tree (Path.join fullPath (name sub))
          = Returns mtime ->
        In (comicRecord cwd directoryPath sub
              (Path.join fullPath (name sub)) (depth + 1)
              (imageFilesOf subContents) mtime)
           (scan dirPath depth))
  /\ (forall sub subContents record,
        depth + 1 <= maxDepth ->
        In sub dirContents ->
        isVisibleDirectory sub = true ->
        readdirSync tree (Path.join fullPath (name sub))
          = Returns subContents ->
        imageNames subContents = [] ->
        In record (scan (Path.join fullPath (name sub)) (depth + 2)) ->
        In record (scan dirPath depth))
  /\ Forall (fun record =>
               exists d, ComicFolder.depth record = Some d /\ depth < d)
            (scan fullPath (depth + 1))
  /\ (forall p d, maxDepth < d -> scan p d = [])
  /\ DirectoryScanResult.errors (read_directory tree cwd directoryPath)
       = [].
Proof.
  intros Hd Hdir Hvis Hsub Himg fullPath.
  assert (Hsplit : scan dirPath depth =
                   List.flat_map (entry scan dirPath depth) before
                     ++ scan fullPath (depth + 1)
                     ++ List.flat_map (entry scan dirPath depth) after).
  { rewrite (scan_split dirPath depth before dirent after Hd Hdir).
    now rewrite (scanEntry_container _ _ _ _ _ Hvis Hsub Himg). }
  assert (Hinside : scan fullPath (depth + 1) =
                    (if maxDepth <? depth + 1 then []
                     else List.flat_map (entry scan fullPath (depth + 1))
                                        dirContents)).
  { rewrite scanForComics_eq. subst fullPath. now rewrite Hsub. }
  assert (Hfound : forall sub record,
             depth + 1 <= maxDepth ->
             In sub dirContents ->
             In record (entry scan fullPath (depth + 1) sub) ->
             In record (scan dirPath depth)).
  { intros sub record Hdeep Hin Hrecord.
    rewrite Hsplit. apply in_or_app. right. apply in_or_app. left.
    rewrite Hinside. apply Nat.ltb_ge in Hdeep. rewrite Hdeep.
    apply in_flat_map. exists sub. auto. }
  split; [exact Hsplit|]. split; [exact Hinside|].
  split; [|split; [|split; [|split]]].
  - intros sub subContents mtime Hdeep Hin Hsubvis Hlist Himages Hstat.
    apply (Hfound sub _ Hdeep Hin).
    rewrite (scanEntry_leaf scan fullPath (depth + 1) sub subContents mtime
               Hsubvis Hlist Hstat Himages).
    now left.
  - intros sub subContents record Hdeep Hin Hsubvis Hlist Hnone Hrecord.
    apply (Hfound sub _ Hdeep Hin).
    rewrite (scanEntry_container scan fullPath (depth + 1) sub subContents
               Hsubvis Hlist Hnone).
    now replace (depth + 1 + 1) with (depth + 2) by lia.
  - apply List.Forall_forall. intros record Hin.
    apply scanForComics_depth in Hin as (d & Hdepth & Hle).
    exists d. split; [exact Hdepth | lia].
  - apply scanForComics_beyond_maxDepth.
  - reflexivity.
Qed.

End Facts.

Lemma leaf_folder_record_witness :
  exists record names,
    scanForComics Examples.library "/" "/Lib" "/Lib" 0 =
      List.flat_map
        (scanEntry Examples.library "/" "/Lib"
           (scanForComics Examples.library "/" "/Lib") "/Lib" 0)
        [Examples.dir "AuthorA"]
        ++ [record]
        ++ List.flat_map
             (scanEntry Examples.library "/" "/Lib"
                (scanForComics Examples.library "/" "/Lib") "/Lib" 0)
             []
    /\ ComicFolder.folderPath record = Path.join "/Lib" "AuthorB"
    /\ ComicFolder.totalPages record
       = length (imageNames [Examples.file "a.jpg"])
    /\ ComicFolder.pages record =
         List.map (pageUrl (Path.join "/Lib" "AuthorB")) names
    /\ Permutation names (imageNames [Examples.file "a.jpg"])
    /\ Sorted Js.code_unit_le names
    /\ ComicFolder.coverImage record = head (ComicFolder.pages record).
Proof.
  apply (leaf_folder_record Examples.library "/" "/Lib" "/Lib" 0
           [Examples.dir "AuthorA"] (Examples.dir "AuthorB") []
           [Examples.file "a.jpg"] 1700000000000%Z).
  - unfold maxDepth. lia.
  - reflexivity.
  - reflexivity.
  - reflexivity.
  - reflexivity.
  - discriminate.
Defined.

(** C3 (as stated).  In [/Shelf/Mixed], which holds [a.jpg] and
    [B.jpg], the one record of the scan lists [B.jpg] before [a.jpg],
    which is not ascending when case is ignored; and the folder
    [/Shelf/Mixed/Extra], which holds the image [c.jpg], gets no
    record, for the scan does not enter a folder that holds images. *)
Lemma pages_sorted_by_code_units_not_ignoring_case :
  imageNames [Examples.file "a.jpg"; Examples.file "B.jpg";
              Examples.dir "Extra"] = ["a.jpg"; "B.jpg"]
  /\ List.map ComicFolder.folderPath
       (DirectoryScanResult.comics
          (read_directory Examples.mixed_case_library "/" "/Shelf"))
     = ["/Shelf/Mixed"]
  /\ List.map ComicFolder.pages
       (DirectoryScanResult.comics
          (read_directory Examples.mixed_case_library "/" "/Shelf"))
     = [List.map (pageUrl "/Shelf/Mixed") ["B.jpg"; "a.jpg"]]
  /\ ~ Sorted case_insensitive_le ["B.jpg"; "a.jpg"]
  /\ readdirSync Examples.mixed_case_library "/Shelf/Mixed/Extra"
     = Returns [Examples.file "c.jpg"]
  /\ imageNames [Examples.file "c.jpg"] = ["c.jpg"].
Proof.
  repeat split; try reflexivity.
  intros Hsorted. inversion Hsorted as [|? ? _ Hhd]; subst.
  inversion Hhd as [|? ? Hle]; subst.
  unfold case_insensitive_le, Js.code_unit_le in Hle.
  vm_compute in Hle. discriminate.
Qed.

Lemma container_folder_recursion_witness :
  let scan := scanForComics Examples.library "/" "/Lib" in
  let entry := scanEntry Examples.library "/" "/Lib" in
  let fullPath := Path.join "/Lib" "AuthorA" in
  scan "/Lib" 0 =
    List.flat_map (entry scan "/Lib" 0) []
      ++ scan fullPath (0 + 1)
      ++ List.flat_map (entry scan "/Lib" 0) [Examples.dir "AuthorB"]
  /\ scan fullPath (0 + 1) =
       (if maxDepth <? 0 + 1 then []
        else List.flat_map (entry scan fullPath (0 + 1))
                           [Examples.dir "SeriesX"])
  /\ (forall sub subContents mtime,
        0 + 1 <= maxDepth ->
        In sub [Examples.dir "SeriesX"] ->
        isVisibleDirectory sub = true ->
        readdirSync Examples.library (Path.join fullPath (name sub))
          = Returns subContents ->
        imageNames subContents <> [] ->
        statSync_mtime Examples.library (Path.join fullPath (name sub))
          = Returns mtime ->
        In (comicRecord "/" "/Lib" sub
              (Path.join fullPath (name sub)) (0 + 1)
              (imageFilesOf subContents) mtime)
           (scan "/Lib" 0))
  /\ (forall sub subContents record,
        0 + 1 <= maxDepth ->
        In sub [Examples.dir "SeriesX"] ->
        isVisibleDirectory sub = true ->
        readdirSync Examples.library (Path.join fullPath (name sub))
          = Returns subContents ->
        imageNames subContents = [] ->
        In record (scan (Path.join fullPath (name sub)) (0 + 2)) ->
        In record (scan "/Lib" 0))
  /\ Forall (fun record =>
               exists d, ComicFolder.depth record = Some d /\ 0 < d)
            (scan fullPath (0 + 1))
  /\ (forall p d, maxDepth < d -> scan p d = [])
  /\ DirectoryScanResult.errors (read_directory Examples.library "/" "/Lib")
       = [].
Proof.
  apply (container_folder_recursion Examples.library "/" "/Lib" "/Lib" 0
           [] (Examples.dir "AuthorA") [Examples.dir "AuthorB"]
           [Examples.dir "SeriesX"]).
  - unfold maxDepth. lia.
  - reflexivity.
  - reflexivity.
  - reflexivity.
  - reflexivity.
Defined.

(** The series of [AuthorA] in [library]: the container [AuthorA] has
    no record, and the record of its subfolder [SeriesX], made at
    depth 1, is what the scan of [/Lib] returns first. *)
Example container_subfolder_is_discovered :
  In (comicRecord "/" "/Lib" (Examples.dir "SeriesX")
        "/Lib/AuthorA/SeriesX" 1 ["1.jpg"; "2.png"] 1700000000000%Z)
     (scanForComics Examples.library "/" "/Lib" "/Lib" 0)
  /\ List.map ComicFolder.folderPath
       (scanForComics Examples.library "/" "/Lib" "/Lib" 0)
     = ["/Lib/AuthorA/SeriesX"; "/Lib/AuthorB"].
Proof. split; [left|]; reflexivity. Qed.

(** The example of the specification: two records, of two pages and
    of one page, and none for [/Lib] or [AuthorA]. *)
Example scan_of_library :
  List.map (fun record => (ComicFolder.folderPath record,
                           ComicFolder.totalPages record,
                           ComicFolder.author record))
           (DirectoryScanResult.comics
              (read_directory Examples.library "/" "/Lib"))
  = [("/Lib/AuthorA/SeriesX", 2, Some "AuthorA");
     ("/Lib/AuthorB", 1, Some "Lib")].
Proof. reflexivity. Qed.

(** A root that cannot be listed: [scanForComics] logs the exception
    and returns what it has, the handler returns normally. *)
Lemma read_directory_unreadable tree cwd directoryPath message :
  readdirSync tree directoryPath = Throws message ->
  read_directory tree cwd directoryPath =
  {| DirectoryScanResult.comics := [];
     DirectoryScanResult.totalComics := 0;
     DirectoryScanResult.errors := [] |}.
Proof.
  intros Hroot. unfold read_directory, scanFromRoot.
  rewrite scanForComics_eq, Hroot. reflexivity.
Qed.

(** The flat scanner of [scanDirectory.cjs] reports such a root. *)
Lemma scanDirectoryForComics_unreadable tree directoryPath message :
  readdirSync tree directoryPath = Throws message ->
  ScanDirectory.scanDirectoryForComics tree directoryPath =
  {| DirectoryScanResult.comics := [];
     DirectoryScanResult.totalComics := 0;
     DirectoryScanResult.errors :=
       ["Failed to scan directory: " +:+ error_toString message] |}.
Proof.
  intros Hroot. unfold ScanDirectory.scanDirectoryForComics.
  now rewrite Hroot.
Qed.

(** C7 (the handler of [main.js] at an unreadable root).  The root
    [/missing] of a library in which nothing can be read: the
    [read-directory] handler returns no comics and an empty [errors]
    list, where [scanDirectoryForComics] of [scanDirectory.cjs]
    returns no comics and one error. *)
Theorem read_directory_unreadable_root_reports_no_error :
  readdirSync Examples.nothing "/missing"
    = Throws "ENOENT: no such file or directory, scandir /missing"
  /\ read_directory Examples.nothing "/" "/missing" =
     {| DirectoryScanResult.comics := [];
        DirectoryScanResult.totalComics := 0;
        DirectoryScanResult.errors := [] |}
  /\ ScanDirectory.scanDirectoryForComics Examples.nothing "/missing" =
     {| DirectoryScanResult.comics := [];
        DirectoryScanResult.totalComics := 0;
        DirectoryScanResult.errors :=
          ["Failed to scan directory: Error: ENOENT: no such file or directory, scandir /missing"] |}.
Proof.
  split; [reflexivity|]. split.
  - now apply read_directory_unreadable
      with (message := "ENOENT: no such file or directory, scandir /missing").
  - now apply scanDirectoryForComics_unreadable.
Qed.

End ScanFacts.

(** ** The store *)

Module FileStorageFacts.

Import FileStorage.

Lemma append_assoc (a b c : string) : (a +:+ b) +:+ c = a +:+ (b +:+ c).
Proof.
  induction a as [|x a IH]; [reflexivity|].
  change (String x ((a +:+ b) +:+ c) = String x (a +:+ (b +:+ c))).
  now rewrite IH.
Qed.

(** Distinct ids have distinct files. *)
Lemma comicFilePath_inj (s : t) (i j : string) :
  comicFilePath s i = comicFilePath s j -> i = j.
Proof.
  unfold comicFilePath. intros H.
  apply StringFacts.append_cancel_l in H.
  apply StringFacts.append_cancel_l in H.
  apply StringFacts.append_cancel_l in H.
  now apply StringFacts.append_cancel_r in H.
Qed.

(** Once the paths are set up, no per-id file is the index file. *)
Lemma comicFilePath_not_index (s : t) (i : string) :
  paths_initialized s -> comicFilePath s i <> libraryIndexPath s.
Proof.
  unfold paths_initialized, comicFilePath, libraryIndexPath.
  intros -> H. rewrite append_assoc in H.
  apply StringFacts.append_cancel_l in H.
  cbn in H. discriminate H.
Qed.

(** Running the methods: take the store apart, so that its fields
    compute, and unfold the monad down to the handlers. *)
Ltac run_storage :=
  unfold saveComics, saveComic, deleteComic, getComic, getAllComics,
    getLibrary, setGenres, getGenres, readFile, writeFile, now,
    bind, gets, modify, ret, Disk.write_file, Disk.file_exists,
    Disk.read_file, comicFilePath, libraryIndexPath, paths_initialized in *;
  cbn in *.

Ltac open_storage s :=
  destruct s as [electron dataPath comicsPath genres libraryIndex
                   [files failing journal] localStorage clock ticks];
  run_storage.

Lemma getComic_state (comicId : string) (s : t) :
  snd (getComic comicId s) = s.
Proof.
  open_storage s. destruct electron; cbn; [|reflexivity].
  destruct (bool_decide _); cbn; [|reflexivity].
  destruct (files !! _) as [[]|]; reflexivity.
Qed.

(** [getComic] finds a record exactly when the application runs in
    Electron and the per-id file holds that record. *)
Lemma getComic_Some (comicId : string) (s : t) (comic : Comic.t) :
  fst (getComic comicId s) = Some comic <->
  isElectron s = true
  /\ Disk.files (disk s) !! comicFilePath s comicId = Some (ComicDoc comic).
Proof.
  open_storage s.
  destruct electron; cbn;
    [|split; [discriminate | intros [H _]; discriminate H]].
  destruct (files !! _) as [doc|] eqn:Hf.
  - rewrite bool_decide_eq_true_2 by eauto. cbn.
    destruct doc; cbn; split; try discriminate; try tauto;
      try (intros [_ H]; discriminate H).
    + intros [= ->]. tauto.
    + intros [_ [= ->]]. reflexivity.
  - rewrite bool_decide_eq_false_2 by (intros [? ?]; discriminate). cbn.
    split; [discriminate | intros [_ H]; discriminate H].
Qed.

(** C9.  In Electron, with the paths set up, [deleteComic(comicId)]
    returns [true]; the index it leaves is the former one without the
    entry of [comicId], every other entry being what it was; the index
    is written to its file (one write, recorded with its outcome), and
    the file holds the updated index when that write goes through; and
    every per-id file, the one of [comicId] included, is on disk with
    the content it had. *)
Theorem deleteComic_removes_index_entry_only (comicId : string) (s : t) :
  isElectron s = true ->
  paths_initialized s ->
  fst (deleteComic comicId s) = true
  /\ LibraryIndex.comics (libraryIndex (snd (deleteComic comicId s)))
     = JsObject.delete comicId (LibraryIndex.comics (libraryIndex s))
  /\ JsObject.get comicId
       (LibraryIndex.comics (libraryIndex (snd (deleteComic comicId s))))
     = None
  /\ (forall other,
        other <> comicId ->
        JsObject.get other
          (LibraryIndex.comics (libraryIndex (snd (deleteComic comicId s))))
        = JsObject.get other (LibraryIndex.comics (libraryIndex s)))
  /\ Disk.journal (disk (snd (deleteComic comicId s)))
     = Disk.journal (disk s)
         ++ [(libraryIndexPath s,
              bool_decide (libraryIndexPath s ∉ Disk.failing (disk s)))]
  /\ (libraryIndexPath s ∉ Disk.failing (disk s) ->
      Disk.files (disk (snd (deleteComic comicId s))) !! libraryIndexPath s
      = Some (IndexDoc (libraryIndex (snd (deleteComic comicId s)))))
  /\ (forall anyId,
        Disk.files (disk (snd (deleteComic comicId s)))
          !! comicFilePath s anyId
        = Disk.files (disk s) !! comicFilePath s anyId).
Proof.
  intros He Hp.
  assert (Hpaths : forall anyId, comicFilePath s anyId <> libraryIndexPath s)
    by (intros anyId; now apply comicFilePath_not_index).
  open_storage s. subst electron. cbn.
  destruct (decide (_ ∈ failing)) as [Hfail|Hok]; cbn.
  - repeat split.
    + apply JsObjectFacts.get_delete_eq.
    + intros other Hne. now apply JsObjectFacts.get_delete_ne.
    + now rewrite bool_decide_eq_false_2 by tauto.
    + intros Hnot. contradiction.
  - repeat split.
    + apply JsObjectFacts.get_delete_eq.
    + intros other Hne. now apply JsObjectFacts.get_delete_ne.
    + now rewrite bool_decide_eq_true_2.
    + intros _. apply lookup_insert_eq.
    + intros anyId. apply lookup_insert_ne.
      intros Heq. now apply (Hpaths anyId).
Qed.

Lemma deleteComic_removes_index_entry_only_witness :
  isElectron (Examples.storage_with (Examples.authorB None None) ∅) = true
  /\ paths_initialized (Examples.storage_with (Examples.authorB None None) ∅)
  /\ fst (deleteComic "authorb-0-L0xpYi9B"
            (Examples.storage_with (Examples.authorB None None) ∅)) = true
  /\ JsObject.get "authorb-0-L0xpYi9B"
       (LibraryIndex.comics
          (libraryIndex
             (snd (deleteComic "authorb-0-L0xpYi9B"
                     (Examples.storage_with (Examples.authorB None None) ∅)))))
     = None
  /\ Disk.files
       (disk (snd (deleteComic "authorb-0-L0xpYi9B"
                     (Examples.storage_with (Examples.authorB None None) ∅))))
       !! "/data/json/comics/comic_authorb-0-L0xpYi9B.json"
     = Some (ComicDoc (Examples.authorB None None)).
Proof.
  split; [reflexivity|]. split; [reflexivity|].
  destruct (deleteComic_removes_index_entry_only "authorb-0-L0xpYi9B"
              (Examples.storage_with (Examples.authorB None None) ∅)
              eq_refl eq_refl)
    as (Hresult & _ & Hgone & _ & _ & _ & Hfiles).
  split; [exact Hresult|]. split; [exact Hgone|].
  exact (Hfiles "authorb-0-L0xpYi9B").
Defined.

(** C8 (amended).  In Electron, [saveComic(comic)] first writes the
    record to its per-id file.  When that write fails it returns
    [false], and neither the index nor any file has changed: the index
    write is not attempted.  When it goes through, the entry of the id
    in the index becomes [{title, folderPath, lastModified}] with the
    time read at that moment, the index is then written to its file,
    and [saveComic] returns [true] whether or not the index write went
    through; when it did not, the per-id file written just before stays
    (no rollback). *)
Theorem saveComic_file_then_index (comic : Comic.t) (s : t) :
  isElectron s = true ->
  (comicFilePath s (Comic.id comic) ∈ Disk.failing (disk s) ->
   fst (saveComic comic s) = false
   /\ libraryIndex (snd (saveComic comic s)) = libraryIndex s
   /\ Disk.files (disk (snd (saveComic comic s))) = Disk.files (disk s)
   /\ Disk.journal (disk (snd (saveComic comic s)))
      = Disk.journal (disk s) ++ [(comicFilePath s (Comic.id comic), false)])
  /\ (comicFilePath s (Comic.id comic) ∉ Disk.failing (disk s) ->
      fst (saveComic comic s) = true
      /\ LibraryIndex.comics (libraryIndex (snd (saveComic comic s)))
         = JsObject.set (Comic.id comic)
             {| IndexEntry.title := Comic.title comic;
                IndexEntry.folderPath := Comic.folderPath comic;
                IndexEntry.lastModified := clock s (ticks s) |}
             (LibraryIndex.comics (libraryIndex s))
      /\ Disk.journal (disk (snd (saveComic comic s)))
         = Disk.journal (disk s)
             ++ [(comicFilePath s (Comic.id comic), true);
                 (libraryIndexPath s,
                  bool_decide (libraryIndexPath s ∉ Disk.failing (disk s)))]
      /\ (libraryIndexPath s ∉ Disk.failing (disk s) ->
          Disk.files (disk (snd (saveComic comic s)))
          = <[libraryIndexPath s :=
                IndexDoc (libraryIndex (snd (saveComic comic s)))]>
              (<[comicFilePath s (Comic.id comic) := ComicDoc comic]>
                 (Disk.files (disk s))))
      /\ (libraryIndexPath s ∈ Disk.failing (disk s) ->
          Disk.files (disk (snd (saveComic comic s)))
          = <[comicFilePath s (Comic.id comic) := ComicDoc comic]>
              (Disk.files (disk s)))).
Proof.
  intros He. open_storage s. subst electron. cbn.
  destruct (decide (_ ∈ failing)) as [Hfail|Hok]; cbn.
  - split; [intros _; repeat split | intros Hnot; contradiction].
  - split; [intros Hin; contradiction | intros _].
    destruct (decide (_ ∈ failing)) as [Hifail|Hiok]; cbn.
    + repeat split.
      * rewrite <- app_assoc. cbn.
        now rewrite bool_decide_eq_false_2 by tauto.
      * intros Hnot. contradiction.
    + repeat split.
      * rewrite <- app_assoc. cbn. now rewrite bool_decide_eq_true_2.
      * intros Hin. contradiction.
Qed.


Lemma saveComic_file_then_index_witness :
  isElectron Examples.fresh_storage = true
  /\ fst (saveComic (Examples.authorB None None) Examples.fresh_storage)
     = true
  /\ Disk.journal
       (disk (snd (saveComic (Examples.authorB None None)
                     Examples.fresh_storage)))
     = [("/data/json/comics/comic_authorb-0-L0xpYi9B.json", true);
        ("/data/json/library_index.json", true)].
Proof.
  split; [reflexivity|].
  destruct (saveComic_file_then_index (Examples.authorB None None)
              Examples.fresh_storage eq_refl) as [_ Hsaved].
  destruct Hsaved as (Hresult & _ & Hjournal & _).
  { cbn. apply not_elem_of_empty. }
  split; [exact Hresult | exact Hjournal].
Defined.

(** C8 (as stated).  A store whose index file cannot be written: the
    per-id file is written, the write of the index fails, and
    [saveComic] returns [true]. *)
Lemma saveComic_true_despite_failed_index_write :
  fst (saveComic (Examples.authorB None None)
         (Examples.storage_on LibraryIndex.empty
            (Examples.disk_of ∅ {[ "/data/json/library_index.json" ]})))
  = true
  /\ Disk.journal
       (disk
          (snd (saveComic (Examples.authorB None None)
                  (Examples.storage_on LibraryIndex.empty
                     (Examples.disk_of ∅
                        {[ "/data/json/library_index.json" ]})))))
     = [("/data/json/comics/comic_authorb-0-L0xpYi9B.json", true);
        ("/data/json/library_index.json", false)].
Proof. split; vm_compute; reflexivity. Qed.

End FileStorageFacts.

(** ** Refreshing the library *)

Module ComicsLibraryFacts.

Import FileStorage ComicsLibrary FileStorageFacts Notions.



(** A comic with an entry, next to one without. *)
Example mergeReadingProgress_of_two :
  List.map (fun comic => (Comic.lastRead comic, Comic.currentPage comic))
    (mergeReadingProgress (fun _ => "2024-01-01T00:00:00.000Z")
       [Examples.authorB None None; MoreExamples.constructor_comic]
       [("authorb-0-L0xpYi9B",
         {| Progress.lastRead := Some 1704067200000%Z;
            Progress.currentPage := Some 7 |})])
  = [(Some 1704067200000%Z, 7); (None, 1)].
Proof. reflexivity. Qed.

Lemma mergeOne_progress (toISOString : Date -> string)
      (readingProgress : JsObject.t Progress.t) (comic : Comic.t)
      (progress : Progress.t) :
  JsObject.get (Comic.id comic) readingProgress = Some progress ->
  Comic.lastRead (mergeOne toISOString readingProgress comic)
    = Progress.lastRead progress
  /\ Comic.currentPage (mergeOne toISOString readingProgress comic)
     = default (Comic.currentPage comic) (Progress.currentPage progress).
Proof.
  intros H. unfold mergeOne, progressOf. rewrite H. cbn.
  split; [reflexivity|]. now destruct (Progress.currentPage progress).
Qed.

Lemma keeps_edits_refl (saved : Comic.t) : keeps_edits saved saved.
Proof. repeat split; auto. Qed.

Lemma mergedComic_keeps_edits (comicFolder : ComicFolder.t)
      (saved : Comic.t) :
  keeps_edits saved (mergedComic comicFolder (Some saved)).
Proof.
  repeat split; cbn.
  - intros Htitle. now apply StringFacts.or_else_nonempty.
  - intros author -> Hauthor. cbn.
    now rewrite StringFacts.or_else_nonempty.
Qed.

Lemma mergedComic_id (comicFolder : ComicFolder.t)
      (metadata : option Comic.t) :
  Comic.id (mergedComic comicFolder metadata) = ComicFolder.id comicFolder.
Proof. reflexivity. Qed.

(** Without a saved record the author is the literal of the merge. *)
Lemma mergedComic_default_author (comicFolder : ComicFolder.t) :
  Comic.author (mergedComic comicFolder None) = Some "Unknown".
Proof. reflexivity. Qed.

(** The conversions only read the store. *)
Lemma convertAll_eq (folders : list ComicFolder.t) (s : t) :
  convertAll folders s =
  (List.map
     (fun comicFolder =>
        mergedComic comicFolder
          (fst (getComic (ComicFolder.id comicFolder) s)))
     folders,
   s).
Proof.
  induction folders as [|comicFolder folders IH]; [reflexivity|].
  unfold convertAll; fold convertAll.
  unfold bind, convertComicFolderToComic, bind, ret.
  pose proof (getComic_state (ComicFolder.id comicFolder) s) as Hstate.
  cbn [List.map].
  destruct (getComic (ComicFolder.id comicFolder) s) as [metadata s0].
  cbn [fst snd] in *. subst s0. rewrite IH. reflexivity.
Qed.

Lemma saveComic_holds (P : Comic.t -> Prop) (i : string)
      (comic : Comic.t) (s : t) :
  (Comic.id comic = i -> P comic) ->
  holds_record P i s ->
  holds_record P i (snd (saveComic comic s)).
Proof.
  intros HP (He & Hp & held & Hfile & Hheld).
  pose proof (comicFilePath_not_index s i Hp) as Hindex.
  pose proof (comicFilePath_inj s (Comic.id comic) i) as Hinj.
  unfold holds_record.
  open_storage s. subst electron. cbn.
  destruct (decide (_ ∈ failing)) as [Hfail|Hok]; cbn.
  { split; [reflexivity|]. split; [assumption|]. eauto. }
  destruct (decide (_ ∈ failing)) as [Hifail|Hiok]; cbn;
    (split; [reflexivity|]; split; [assumption|]).
  - destruct (decide (comicsPath +:+ "/" +:+ "comic_" +:+ Comic.id comic
                        +:+ ".json"
                      = comicsPath +:+ "/" +:+ "comic_" +:+ i +:+ ".json"))
      as [Heq|Hne].
    + exists comic. rewrite <- Heq, lookup_insert_eq. auto.
    + exists held. rewrite lookup_insert_ne by exact Hne. auto.
  - rewrite lookup_insert_ne by (intros Heq; now apply Hindex).
    destruct (decide (comicsPath +:+ "/" +:+ "comic_" +:+ Comic.id comic
                        +:+ ".json"
                      = comicsPath +:+ "/" +:+ "comic_" +:+ i +:+ ".json"))
      as [Heq|Hne].
    + exists comic. rewrite <- Heq, lookup_insert_eq. auto.
    + exists held. rewrite lookup_insert_ne by exact Hne. auto.
Qed.

Lemma saveEach_holds (P : Comic.t -> Prop) (i : string)
      (comics : list Comic.t) :
  forall s,
    List.Forall (fun comic => Comic.id comic = i -> P comic) comics ->
    holds_record P i s ->
    holds_record P i (snd (saveEach comics s)).
Proof.
  induction comics as [|comic comics IH]; intros s Hall Hs; [exact Hs|].
  inversion Hall as [|? ? Hcomic Hrest]; subst.
  cbn. unfold bind.
  pose proof (saveComic_holds P i comic s Hcomic Hs) as Hstep.
  destruct (saveComic comic s) as [result s1]. cbn in Hstep.
  now apply IH.
Qed.

Lemma saveComics_holds (P : Comic.t -> Prop) (i : string)
      (comics : list Comic.t) (s : t) :
  List.Forall (fun comic => Comic.id comic = i -> P comic) comics ->
  holds_record P i s ->
  holds_record P i (snd (saveComics comics s)).
Proof.
  intros Hall Hs.
  pose proof (saveEach_holds P i comics s Hall Hs) as Hsaved.
  destruct Hs as (He & _).
  unfold saveComics, bind, gets. cbn. rewrite He. cbn.
  destruct (saveEach comics s) as [[] s1]. cbn in Hsaved.
  destruct Hsaved as (He1 & Hp1 & held & Hfile & Hheld).
  pose proof (comicFilePath_not_index s1 i Hp1) as Hindex.
  unfold holds_record.
  open_storage s1. subst electron. cbn.
  destruct (decide (_ ∈ failing)) as [Hifail|Hiok]; cbn;
    (split; [reflexivity|]; split; [assumption|]); exists held.
  - auto.
  - rewrite lookup_insert_ne by (intros Heq; now apply Hindex). auto.
Qed.

(** A refresh converts every scanned folder against the store as it is
    before the refresh, then saves the converted records. *)
Lemma handleRefresh_eq (tree : Fs.Tree) (cwd targetDirectory : string)
      (s : t) :
  targetDirectory <> EmptyString ->
  handleRefresh tree cwd targetDirectory s =
  (Some
     (List.map
        (fun comicFolder =>
           mergedComic comicFolder
             (fst (getComic (ComicFolder.id comicFolder) s)))
        (DirectoryScanResult.comics
           (Main.read_directory tree cwd targetDirectory))),
   snd (saveComics
          (List.map
             (fun comicFolder =>
                mergedComic comicFolder
                  (fst (getComic (ComicFolder.id comicFolder) s)))
             (DirectoryScanResult.comics
                (Main.read_directory tree cwd targetDirectory)))
          s)).
Proof.
  intros Hdir. unfold handleRefresh.
  rewrite (proj2 (StringFacts.truthy_nonempty _) Hdir). cbn [negb].
  unfold bind. rewrite convertAll_eq.
  destruct (saveComics _ s). reflexivity.
Qed.

(** C1 (amended).  Let a refresh scan a folder whose id has a saved
    record.  The record merged for the folder carries the saved
    description and the saved four genre tiers as they are, the saved
    title when it is not empty and the saved author when it is not
    empty; and so does the record that the per-id file holds once the
    refresh has saved its results. *)
Theorem refresh_keeps_saved_edits (tree : Fs.Tree)
        (cwd targetDirectory : string) (s : t)
        (comicFolder : ComicFolder.t) (saved : Comic.t) :
  paths_initialized s ->
  targetDirectory <> EmptyString ->
  In comicFolder
     (DirectoryScanResult.comics
        (Main.read_directory tree cwd targetDirectory)) ->
  fst (getComic (ComicFolder.id comicFolder) s) = Some saved ->
  exists comics resaved,
    fst (handleRefresh tree cwd targetDirectory s) = Some comics
    /\ In (mergedComic comicFolder (Some saved)) comics
    /\ keeps_edits saved (mergedComic comicFolder (Some saved))
    /\ fst (getComic (ComicFolder.id comicFolder)
              (snd (handleRefresh tree cwd targetDirectory s)))
       = Some resaved
    /\ keeps_edits saved resaved.
Proof.
  intros Hpaths Hdir Hscanned Hsaved.
  rewrite (handleRefresh_eq tree cwd targetDirectory s Hdir). cbn [fst snd].
  set (folders := DirectoryScanResult.comics
                    (Main.read_directory tree cwd targetDirectory)) in *.
  set (comics := List.map _ folders).
  apply getComic_Some in Hsaved as Hfile. destruct Hfile as [He Hfile].
  assert (Hholds : holds_record (keeps_edits saved)
                     (ComicFolder.id comicFolder)
                     (snd (saveComics comics s))).
  { apply saveComics_holds.
    - apply List.Forall_forall. intros comic Hin.
      apply in_map_iff in Hin as (folder & <- & _).
      rewrite mergedComic_id. intros Hid. rewrite Hid, Hsaved.
      apply mergedComic_keeps_edits.
    - split; [exact He|]. split; [exact Hpaths|].
      exists saved. split; [exact Hfile | apply keeps_edits_refl]. }
  destruct Hholds as (He' & _ & resaved & Hfile' & Hkeeps).
  exists comics, resaved.
  split; [reflexivity|]. split.
  { rewrite <- Hsaved. subst comics.
    apply (in_map (fun folder =>
                     mergedComic folder
                       (fst (getComic (ComicFolder.id folder) s))));
      exact Hscanned. }
  split; [apply mergedComic_keeps_edits|].
  split; [|exact Hkeeps].
  apply getComic_Some. split; [exact He' | exact Hfile'].
Qed.

Lemma refresh_keeps_saved_edits_witness :
  exists comics resaved,
    fst (handleRefresh Examples.library "/" "/Lib"
           (Examples.storage_with
              (Examples.authorB (Some "X") (Some Examples.brave)) ∅))
    = Some comics
    /\ In (mergedComic Examples.authorB_folder
             (Some (Examples.authorB (Some "X") (Some Examples.brave))))
          comics
    /\ keeps_edits (Examples.authorB (Some "X") (Some Examples.brave))
         (mergedComic Examples.authorB_folder
            (Some (Examples.authorB (Some "X") (Some Examples.brave))))
    /\ fst (getComic (ComicFolder.id Examples.authorB_folder)
              (snd (handleRefresh Examples.library "/" "/Lib"
                      (Examples.storage_with
                         (Examples.authorB (Some "X") (Some Examples.brave))
                         ∅))))
       = Some resaved
    /\ keeps_edits (Examples.authorB (Some "X") (Some Examples.brave))
         resaved.
Proof.
  apply (refresh_keeps_saved_edits Examples.library "/" "/Lib"
           (Examples.storage_with
              (Examples.authorB (Some "X") (Some Examples.brave)) ∅)
           Examples.authorB_folder
           (Examples.authorB (Some "X") (Some Examples.brave))).
  - reflexivity.
  - discriminate.
  - right. left. reflexivity.
  - reflexivity.
Defined.

(** The example of the specification: a saved author [X] and a saved
    tag [brave] come back from a refresh and from the store after
    it. *)
Example refresh_of_library_keeps_X_and_brave :
  option_map (List.map (fun comic => (Comic.author comic,
                                      Comic.comicGenres comic)))
    (fst (handleRefresh Examples.library "/" "/Lib"
            (Examples.storage_with
               (Examples.authorB (Some "X") (Some Examples.brave)) ∅)))
  = Some [(Some "Unknown", None); (Some "X", Some Examples.brave)]
  /\ fst (getComic "authorb-0-L0xpYi9B"
            (snd (handleRefresh Examples.library "/" "/Lib"
                    (Examples.storage_with
                       (Examples.authorB (Some "X") (Some Examples.brave))
                       ∅))))
     = Some (Examples.authorB (Some "X") (Some Examples.brave)).
Proof. split; vm_compute; reflexivity. Qed.

(** C1 (as stated).  A saved record whose author the user has blanked:
    the record merged by a refresh, and the record in the store after
    the refresh, have another author than the saved one. *)
Lemma refresh_replaces_blank_author :
  option_map Comic.author
    (fst (getComic "authorb-0-L0xpYi9B"
            (Examples.storage_with
               (Examples.authorB (Some EmptyString) (Some Examples.brave))
               ∅)))
  = Some (Some EmptyString)
  /\ In Examples.authorB_folder
        (DirectoryScanResult.comics
           (Main.read_directory Examples.library "/" "/Lib"))
  /\ Comic.author
       (mergedComic Examples.authorB_folder
          (Some (Examples.authorB (Some EmptyString) (Some Examples.brave))))
     <> Some EmptyString
  /\ option_map Comic.author
       (fst (getComic "authorb-0-L0xpYi9B"
               (snd (handleRefresh Examples.library "/" "/Lib"
                       (Examples.storage_with
                          (Examples.authorB (Some EmptyString)
                                            (Some Examples.brave))
                          ∅)))))
     = Some (Some "Unknown").
Proof.
  split; [vm_compute; reflexivity|].
  split; [right; left; reflexivity|].
  split; [discriminate|].
  vm_compute; reflexivity.
Qed.

(** C2 (the merge without a saved record).  In the library of the
    specification nothing is saved yet.  The scan gives [/Lib/AuthorB]
    the author [Lib], the name of its parent directory, and
    [/Lib/AuthorA/SeriesX] the author [AuthorA]; the records merged by
    the refresh, and the records it saves, have the author
    [Unknown]. *)
Theorem refresh_defaults_author_to_Unknown :
  List.map (fun record => (ComicFolder.folderPath record,
                           ComicFolder.author record))
    (DirectoryScanResult.comics
       (Main.read_directory Examples.library "/" "/Lib"))
  = [("/Lib/AuthorA/SeriesX", Some "AuthorA"); ("/Lib/AuthorB", Some "Lib")]
  /\ fst (getComic "authorb-0-L0xpYi9B" Examples.fresh_storage) = None
  /\ option_map (List.map (fun comic => (Comic.folderPath comic,
                                         Comic.author comic)))
       (fst (handleRefresh Examples.library "/" "/Lib"
               Examples.fresh_storage))
     = Some [("/Lib/AuthorA/SeriesX", Some "Unknown");
             ("/Lib/AuthorB", Some "Unknown")]
  /\ option_map Comic.author
       (fst (getComic "authorb-0-L0xpYi9B"
               (snd (handleRefresh Examples.library "/" "/Lib"
                       Examples.fresh_storage))))
     = Some (Some "Unknown").
Proof. repeat split; vm_compute; reflexivity. Qed.

End ComicsLibraryFacts.

(** ** Renaming a folder *)

Module RenameFacts.

Import FileStorage.

Section Facts.

Variable renameSync : Fs.Tree -> string -> string -> Try Fs.Tree.

(** The handler refuses, and leaves the tree as it is, when the old
    path is missing or the new one is taken. *)
Lemma rename_folder_refused (tree : Fs.Tree) (oldPath newPath : string) :
  Fs.existsSync tree oldPath = false \/ Fs.existsSync tree newPath = true ->
  Main.rename_folder renameSync tree oldPath newPath = (false, tree).
Proof.
  intros Hrefused. unfold Main.rename_folder.
  destruct (Fs.existsSync tree oldPath); cbn; [|reflexivity].
  destruct Hrefused as [Hold|Hnew]; [discriminate|]. now rewrite Hnew.
Qed.

(** C6.  Let a rename be requested, the sanitized old and new titles
    being different, and let the old folder path be missing or the
    sibling path computed from the new title exist already.  Then
    [renameComicFolder] returns [null] and mutates nothing: the library
    tree (the old folder and its files) and the store (the saved record
    of the comic) are what they were, and [fs.renameSync] has no part in
    the outcome, whatever it would have done.  Under the same condition
    on the paths, whatever the titles are, the tree and the store are
    unchanged, and the value returned is the old path exactly when the
    application runs in Electron and the sanitized titles are equal. *)
Theorem renameComicFolder_refused (oldTitle newTitle oldPath : string)
        (tree : Fs.Tree) (s : t) :
  Fs.existsSync tree oldPath = false
  \/ Fs.existsSync tree (siblingPath oldPath (sanitizeTitle newTitle))
     = true ->
  (sanitizeTitle oldTitle <> sanitizeTitle newTitle ->
   renameComicFolder renameSync oldTitle newTitle oldPath tree s
   = (None, tree, s))
  /\ renameComicFolder renameSync oldTitle newTitle oldPath tree s
     = (if isElectron s
           && String.eqb (sanitizeTitle oldTitle) (sanitizeTitle newTitle)
        then Some oldPath else None,
        tree, s).
Proof.
  intros Hrefused. unfold renameComicFolder, bind, gets, ret. cbn.
  destruct (isElectron s); cbn; [|split; reflexivity].
  destruct (String.eqb_spec (sanitizeTitle oldTitle) (sanitizeTitle newTitle))
    as [Hsame|Hdiff]; cbn.
  - split; [|reflexivity]. intros Hne. contradiction.
  - rewrite (rename_folder_refused tree oldPath _ Hrefused).
    split; reflexivity.
Qed.

(** When the sanitized titles are equal nothing is looked up on disk:
    the old path is returned. *)
Lemma renameComicFolder_same_name (oldTitle newTitle oldPath : string)
      (tree : Fs.Tree) (s : t) :
  isElectron s = true ->
  sanitizeTitle oldTitle = sanitizeTitle newTitle ->
  renameComicFolder renameSync oldTitle newTitle oldPath tree s
  = (Some oldPath, tree, s).
Proof.
  intros He Hsame. unfold renameComicFolder, bind, gets, ret. cbn.
  rewrite He. cbn.
  apply String.eqb_eq in Hsame. now rewrite Hsame.
Qed.

End Facts.

(** A rename that would have gone through on disk, had it been
    attempted: [AuthorA] exists already, so nothing is renamed. *)
Lemma renameComicFolder_refused_witness :
  renameComicFolder (fun _ _ _ => Returns Examples.nothing)
    "AuthorB" "AuthorA" "/Lib/AuthorB" Examples.library
    Examples.fresh_storage
  = (None, Examples.library, Examples.fresh_storage).
Proof.
  refine (proj1 (renameComicFolder_refused
                   (fun _ _ _ => Returns Examples.nothing)
                   "AuthorB" "AuthorA" "/Lib/AuthorB" Examples.library
                   Examples.fresh_storage _) _).
  - right. reflexivity.
  - discriminate.
Defined.

(** The other way to be refused: the folder [/Lib/Gone] is missing. *)
Example rename_of_missing_folder_fails :
  Fs.existsSync Examples.library "/Lib/Gone" = false
  /\ renameComicFolder (fun _ _ _ => Returns Examples.nothing)
       "Gone" "Found" "/Lib/Gone" Examples.library Examples.fresh_storage
     = (None, Examples.library, Examples.fresh_storage).
Proof. split; reflexivity. Qed.

(** The no-op that comes before the checks: the new title differs from
    the old one by a trailing space only, the sanitized names are equal
    and the old path is returned without the disk being looked at. *)
Example rename_to_the_same_name_returns_the_old_path :
  sanitizeTitle "Gone" = sanitizeTitle "Gone "
  /\ renameComicFolder (fun _ _ _ => Throws "EPERM")
       "Gone" "Gone " "/Lib/Gone" Examples.library Examples.fresh_storage
     = (Some "/Lib/Gone", Examples.library, Examples.fresh_storage).
Proof. split; reflexivity. Qed.

End RenameFacts.

(** ** Deleting a genre of the catalog *)

Module GenreManagerFacts.

Import FileStorage GenreManager FileStorageFacts Notions.

(** *** The affected comics *)

Lemma visit_keys_NoDup (value : string) (entries : JsObject.t Affected)
      (comic : Comic.t) :
  NoDup (JsObject.keys entries) ->
  NoDup (JsObject.keys (visit value entries comic)).
Proof.
  intros Hnodup. unfold visit.
  destruct (hasGenre comic value); [|exact Hnodup].
  destruct (JsObject.get (uniqueKey comic) entries) eqn:Hget;
    [exact Hnodup|].
  unfold JsObject.keys. rewrite map_app. cbn.
  apply NoDup_app. split; [exact Hnodup|]. split.
  - intros key Hin Hin'. apply list_elem_of_In in Hin.
    apply list_elem_of_In in Hin'. destruct Hin' as [<-|[]].
    now apply (JsObjectFacts.get_None_not_key _ _ Hget).
  - apply NoDup_singleton.
Qed.

Lemma visit_keys_incl (value : string) (entries : JsObject.t Affected)
      (comic : Comic.t) (key : string) :
  In key (JsObject.keys entries) ->
  In key (JsObject.keys (visit value entries comic)).
Proof.
  intros Hin. unfold visit.
  destruct (hasGenre comic value); [|exact Hin].
  destruct (JsObject.get (uniqueKey comic) entries); [exact Hin|].
  unfold JsObject.keys. rewrite map_app. apply in_or_app. now left.
Qed.

Lemma visit_keys_has (value : string) (entries : JsObject.t Affected)
      (comic : Comic.t) :
  hasGenre comic value = true ->
  In (uniqueKey comic) (JsObject.keys (visit value entries comic)).
Proof.
  intros Hhas. unfold visit. rewrite Hhas.
  destruct (JsObject.get (uniqueKey comic) entries) eqn:Hget.
  - destruct (In_dec string_dec (uniqueKey comic) (JsObject.keys entries))
      as [Hin|Hnot]; [exact Hin|].
    exfalso. clear Hhas. induction entries as [|[k0 v0] entries IH];
      cbn in *; [discriminate|].
    destruct (String.eqb_spec k0 (uniqueKey comic)); [tauto|].
    apply IH; [exact Hget | tauto].
  - unfold JsObject.keys. rewrite map_app. apply in_or_app.
    right. now left.
Qed.

Lemma visit_sound (value : string) (allComics : list Comic.t)
      (entries : JsObject.t Affected) (comic : Comic.t) :
  In comic allComics ->
  sound value allComics entries ->
  sound value allComics (visit value entries comic).
Proof.
  intros Hin Hsound. unfold visit.
  destruct (hasGenre comic value) eqn:Hhas; [|exact Hsound].
  destruct (JsObject.get (uniqueKey comic) entries); [exact Hsound|].
  intros key affected Hentry. apply in_app_or in Hentry as [Hold|Hnew].
  - now apply Hsound.
  - destruct Hnew as [[= <- <-]|[]]. exists comic. auto.
Qed.

Lemma fold_visit_facts (value : string) (allComics : list Comic.t) :
  forall (comics : list Comic.t) (entries : JsObject.t Affected),
    incl comics allComics ->
    NoDup (JsObject.keys entries) ->
    sound value allComics entries ->
    NoDup (JsObject.keys (fold_left (visit value) comics entries))
    /\ sound value allComics (fold_left (visit value) comics entries)
    /\ (forall key, In key (JsObject.keys entries) ->
                    In key (JsObject.keys
                              (fold_left (visit value) comics entries)))
    /\ (forall comic,
          In comic comics ->
          hasGenre comic value = true ->
          In (uniqueKey comic)
             (JsObject.keys (fold_left (visit value) comics entries))).
Proof.
  induction comics as [|comic comics IH]; intros entries Hincl Hnodup Hsound.
  - cbn. repeat split; auto. intros comic [].
  - cbn.
    assert (Hin : In comic allComics) by (apply Hincl; now left).
    assert (Hincl' : incl comics allComics)
      by (intros c Hc; apply Hincl; now right).
    destruct (IH (visit value entries comic) Hincl'
                 (visit_keys_NoDup value entries comic Hnodup)
                 (visit_sound value allComics entries comic Hin Hsound))
      as (Hn & Hs & Hk & Hc).
    repeat split; [exact Hn | exact Hs | |].
    + intros key Hkey. apply Hk. now apply visit_keys_incl.
    + intros c [<-|Hrest] Hhas.
      * apply Hk. now apply visit_keys_has.
      * now apply Hc.
Qed.

Lemma fold_visit_unused (value : string) :
  forall (comics : list Comic.t) (entries : JsObject.t Affected),
    List.Forall (fun comic => hasGenre comic value = false) comics ->
    fold_left (visit value) comics entries = entries.
Proof.
  induction comics as [|comic comics IH]; intros entries Hall;
    [reflexivity|].
  inversion Hall as [|? ? Hcomic Hrest]; subst. cbn.
  unfold visit at 2. rewrite Hcomic. now apply IH.
Qed.

Lemma affectedBy_unused (value : string) (allComics : list Comic.t) :
  List.Forall (fun comic => hasGenre comic value = false) allComics ->
  affectedBy value allComics = [].
Proof.
  intros Hall. unfold affectedBy. now rewrite fold_visit_unused.
Qed.

(** With folder paths that are not empty, the affected comics are the
    comics that use the genre, one per folder path. *)
Lemma affectedBy_spec (value : string) (allComics : list Comic.t) :
  List.Forall (fun comic => Comic.folderPath comic <> EmptyString)
              allComics ->
  (forall affected,
     In affected (affectedBy value allComics) ->
     exists comic,
       In comic allComics /\ hasGenre comic value = true
       /\ affected = summary comic)
  /\ (forall comic,
        In comic allComics ->
        hasGenre comic value = true ->
        exists affected,
          In affected (affectedBy value allComics)
          /\ folderPath affected = Comic.folderPath comic)
  /\ NoDup (List.map folderPath (affectedBy value allComics)).
Proof.
  intros Hpaths.
  destruct (fold_visit_facts value allComics allComics []
              (incl_refl _) (NoDup_nil_2) (fun _ _ H => match H with end))
    as (Hnodup & Hsound & _ & Hcomplete).
  set (entries := fold_left (visit value) allComics []) in *.
  assert (Hkey : forall key affected,
             In (key, affected) entries -> folderPath affected = key).
  { intros key affected Hentry.
    destruct (Hsound key affected Hentry) as (comic & Hin & _ & -> & ->).
    unfold uniqueKey. cbn. symmetry.
    apply StringFacts.or_else_nonempty.
    rewrite List.Forall_forall in Hpaths. now apply Hpaths. }
  unfold affectedBy. fold entries. repeat split.
  - intros affected Hin. apply in_map_iff in Hin as ([key a] & <- & Hentry).
    destruct (Hsound key a Hentry) as (comic & Hc & Hhas & _ & ->).
    exists comic. auto.
  - intros comic Hin Hhas.
    pose proof (Hcomplete comic Hin Hhas) as Hk.
    apply in_map_iff in Hk as ([key a] & Hfst & Hentry). cbn in Hfst.
    exists a. split; [apply in_map_iff; exists (key, a); auto|].
    rewrite (Hkey key a Hentry), Hfst. unfold uniqueKey.
    apply StringFacts.or_else_nonempty.
    rewrite List.Forall_forall in Hpaths. now apply Hpaths.
  - assert (Hmap : List.map folderPath (List.map snd entries)
                   = JsObject.keys entries).
    { unfold JsObject.keys. rewrite List.map_map.
      apply map_ext_in. intros [key a] Hentry. cbn.
      now apply Hkey. }
    rewrite Hmap. exact Hnodup.
Qed.

Lemma affectedBy_used (value : string) (allComics : list Comic.t) :
  List.Exists (fun comic => hasGenre comic value = true) allComics ->
  affectedBy value allComics <> [].
Proof.
  intros Hused. apply List.Exists_exists in Hused as (comic & Hin & Hhas).
  destruct (fold_visit_facts value allComics allComics []
              (incl_refl _) (NoDup_nil_2) (fun _ _ H => match H with end))
    as (_ & _ & _ & Hcomplete).
  pose proof (Hcomplete comic Hin Hhas) as Hkey.
  unfold affectedBy.
  destruct (fold_left (visit value) allComics []); [destruct Hkey|].
  discriminate.
Qed.

(** *** Removing the element at an index *)

Lemma filter_index_ext {A} (keep keep' : nat -> bool) (l : list A) :
  forall i,
    (forall j, i <= j -> keep j = keep' j) ->
    filter_index keep i l = filter_index keep' i l.
Proof.
  induction l as [|x l IH]; intros i Hext; [reflexivity|].
  cbn. rewrite (Hext i) by lia.
  rewrite (IH (S i)) by (intros j Hj; apply Hext; lia). reflexivity.
Qed.

Lemma filter_index_all {A} (keep : nat -> bool) (l : list A) :
  forall i,
    (forall j, i <= j -> keep j = true) ->
    filter_index keep i l = l.
Proof.
  induction l as [|x l IH]; intros i Hall; [reflexivity|].
  cbn. rewrite (Hall i) by lia.
  rewrite (IH (S i)) by (intros j Hj; apply Hall; lia). reflexivity.
Qed.

(** [l.filter((_, i) => i !== index)] removes the element at [index],
    and nothing when there is none. *)
Lemma filter_index_delete {A} (l : list A) :
  forall i index,
    filter_index (fun j => negb (Nat.eqb j (i + index))) i l
    = delete index l.
Proof.
  induction l as [|x l IH]; intros i index; [reflexivity|].
  cbn [filter_index]. destruct index as [|index].
  - change (delete 0 (x :: l)) with l.
    rewrite Nat.add_0_r, Nat.eqb_refl. cbn [negb].
    apply filter_index_all. intros j Hj.
    apply negb_true_iff, Nat.eqb_neq. lia.
  - change (delete (S index) (x :: l)) with (x :: delete index l).
    replace (Nat.eqb i (i + S index)) with false
      by (symmetry; apply Nat.eqb_neq; lia).
    cbn [negb]. f_equal. rewrite <- (IH (S i) index).
    apply filter_index_ext. intros j _. do 2 f_equal. lia.
Qed.

(** *** The store under [checkGenreUsage] *)

Lemma loadEach_state (comicIds : list string) (s : t) :
  snd (loadEach comicIds s) = s.
Proof.
  induction comicIds as [|comicId comicIds IH]; [reflexivity|].
  unfold loadEach; fold loadEach. unfold bind, ret.
  pose proof (getComic_state comicId s) as Hstate.
  destruct (getComic comicId s) as [comic s0]. cbn [snd] in Hstate.
  subst s0. destruct (loadEach comicIds s) as [others s1].
  cbn [snd] in IH. subst s1. reflexivity.
Qed.

Lemma getLibrary_state (s : t) : snd (getLibrary s) = s.
Proof.
  unfold getLibrary, getAllComics, bind, gets, ret. cbn.
  destruct (isElectron s); cbn; [|reflexivity].
  apply loadEach_state.
Qed.

(** What is read back after [setGenres]. *)
Lemma getGenres_setGenres (g : GenreCatalog.t) (s : t) :
  fst (getGenres (snd (setGenres g s))) = g.
Proof.
  open_storage s. destruct electron; cbn.
  - destruct (decide (_ ∈ failing)); reflexivity.
  - now rewrite lookup_insert_eq.
Qed.

(** C5.  Let [deleteGenre] run [checkGenreUsage] for a category, an
    index and a value.  When some comic of the library has the value in
    one of its genre tiers, the catalog of the component and the whole
    store are left as they were, the alert is raised, and the affected
    comics are summaries of comics that use the value; when moreover
    the folder paths are not empty, every comic that uses the value is
    represented by an affected comic with its folder path, and no two
    affected comics share a folder path.  When no comic uses the value,
    no comic is affected, the element at the index is removed from the
    category at once (the value itself, when it is the element at the
    index), the other categories are unchanged, and the catalog read
    back from storage is the new one. *)
Theorem checkGenreUsage_refuses_used_deletes_unused
        (category : GenreCatalogType.t) (index : nat) (value : string)
        (st : State) (s : t) :
  (List.Exists (fun comic => hasGenre comic value = true)
               (fst (getLibrary s)) ->
   genres (fst (checkGenreUsage category index value st s)) = genres st
   /\ snd (checkGenreUsage category index value st s) = s
   /\ showDeleteAlert (fst (checkGenreUsage category index value st s))
      = true
   /\ affectedComics (fst (checkGenreUsage category index value st s))
      <> []
   /\ (forall affected,
         In affected
            (affectedComics
               (fst (checkGenreUsage category index value st s))) ->
         exists comic,
           In comic (fst (getLibrary s))
           /\ hasGenre comic value = true
           /\ affected = summary comic)
   /\ (List.Forall (fun comic => Comic.folderPath comic <> EmptyString)
                   (fst (getLibrary s)) ->
       (forall comic,
          In comic (fst (getLibrary s)) ->
          hasGenre comic value = true ->
          exists affected,
            In affected
               (affectedComics
                  (fst (checkGenreUsage category index value st s)))
            /\ folderPath affected = Comic.folderPath comic)
       /\ NoDup
            (List.map folderPath
               (affectedComics
                  (fst (checkGenreUsage category index value st s))))))
  /\ (List.Forall (fun comic => hasGenre comic value = false)
                  (fst (getLibrary s)) ->
      affectedComics (fst (checkGenreUsage category index value st s)) = []
      /\ GenreCatalog.get
           (genres (fst (checkGenreUsage category index value st s)))
           category
         = delete index (GenreCatalog.get (genres st) category)
      /\ (forall other,
            other <> category ->
            GenreCatalog.get
              (genres (fst (checkGenreUsage category index value st s)))
              other
            = GenreCatalog.get (genres st) other)
      /\ fst (getGenres (snd (checkGenreUsage category index value st s)))
         = genres (fst (checkGenreUsage category index value st s))
      /\ (GenreCatalog.get (genres st) category !! index = Some value ->
          Permutation
            (GenreCatalog.get (genres st) category)
            (value
               :: GenreCatalog.get
                    (genres
                       (fst (checkGenreUsage category index value st s)))
                    category))).
Proof.
  unfold checkGenreUsage, bind.
  pose proof (getLibrary_state s) as Hstate.
  destruct (getLibrary s) as [allComics s0]. cbn [fst snd] in *. subst s0.
  split.
  - intros Hused.
    pose proof (affectedBy_used value allComics Hused) as Hne.
    destruct (Nat.eqb (length (affectedBy value allComics)) 0) eqn:Hlen.
    { apply Nat.eqb_eq, length_zero_iff_nil in Hlen. contradiction. }
    unfold ret. cbn [fst snd genres showDeleteAlert affectedComics].
    split; [reflexivity|]. split; [reflexivity|]. split; [reflexivity|].
    split; [exact Hne|]. split.
    + intros x Hx.
      destruct (fold_visit_facts value allComics allComics []
                  (incl_refl _) (NoDup_nil_2)
                  (fun _ _ H => match H with end))
        as (_ & Hsound & _ & _).
      unfold affectedBy in Hx.
      apply in_map_iff in Hx as ([key e] & <- & Hentry).
      destruct (Hsound key e Hentry) as (comic & Hc & Hhas & _ & ->).
      exists comic. auto.
    + intros Hpaths.
      destruct (affectedBy_spec value allComics Hpaths)
        as (_ & Hcomplete & Hnodup).
      split; [exact Hcomplete | exact Hnodup].
  - intros Hunused.
    rewrite (affectedBy_unused value allComics Hunused). cbn.
    unfold saveGenres, bind, ret.
    pose proof (getGenres_setGenres
                  (GenreCatalog.set (genres st) category
                     (filter_index (fun i => negb (Nat.eqb i index)) 0
                        (GenreCatalog.get (genres st) category))) s)
      as Hback.
    destruct (setGenres _ s) as [[] s1].
    cbn [fst snd genres affectedComics] in *.
    pose proof (filter_index_delete
                  (GenreCatalog.get (genres st) category) 0 index)
      as Hdelete.
    cbn in Hdelete.
    split; [reflexivity|]. split.
    { rewrite <- Hdelete. now destruct category. }
    split.
    { intros other Hother. destruct category, other; cbn; congruence. }
    split; [exact Hback|].
    intros Hat.
    replace (GenreCatalog.get
               (GenreCatalog.set (genres st) category
                  (filter_index (fun i => negb (Nat.eqb i index)) 0
                     (GenreCatalog.get (genres st) category)))
               category)
      with (delete index (GenreCatalog.get (genres st) category))
      by (rewrite <- Hdelete; now destruct category).
    now apply delete_Permutation.
Qed.

Lemma checkGenreUsage_refuses_used_deletes_unused_witness :
  (genres (fst (checkGenreUsage GenreCatalogType.personality 0 "brave"
                  Examples.manager_state
                  (Examples.storage_with
                     (Examples.authorB (Some "X") (Some Examples.brave)) ∅)))
   = Examples.catalog
   /\ affectedComics
        (fst (checkGenreUsage GenreCatalogType.personality 0 "brave"
                Examples.manager_state
                (Examples.storage_with
                   (Examples.authorB (Some "X") (Some Examples.brave)) ∅)))
      <> [])
  /\ (affectedComics
        (fst (checkGenreUsage GenreCatalogType.personality 1 "shy"
                Examples.manager_state
                (Examples.storage_with
                   (Examples.authorB (Some "X") (Some Examples.brave)) ∅)))
      = []
      /\ GenreCatalog.get
           (genres
              (fst (checkGenreUsage GenreCatalogType.personality 1 "shy"
                      Examples.manager_state
                      (Examples.storage_with
                         (Examples.authorB (Some "X") (Some Examples.brave))
                         ∅))))
           GenreCatalogType.personality
         = delete 1 (GenreCatalog.get Examples.catalog
                       GenreCatalogType.personality)).
Proof.
  split.
  - destruct (checkGenreUsage_refuses_used_deletes_unused
                GenreCatalogType.personality 0 "brave"
                Examples.manager_state
                (Examples.storage_with
                   (Examples.authorB (Some "X") (Some Examples.brave)) ∅))
      as [Hused _].
    destruct Hused as (Hgenres & _ & _ & Haffected & _).
    { apply List.Exists_cons_hd. reflexivity. }
    split; [exact Hgenres | exact Haffected].
  - destruct (checkGenreUsage_refuses_used_deletes_unused
                GenreCatalogType.personality 1 "shy"
                Examples.manager_state
                (Examples.storage_with
                   (Examples.authorB (Some "X") (Some Examples.brave)) ∅))
      as [_ Hunused].
    destruct Hunused as (Haffected & Hdeleted & _).
    { apply List.Forall_cons; [reflexivity | apply List.Forall_nil]. }
    split; [exact Haffected | exact Hdeleted].
Defined.

(** The two outcomes on a store with one comic tagged [brave]:
    deleting [brave] is refused and names the comic, deleting [shy]
    goes through. *)
Example checkGenreUsage_on_one_comic :
  (let st :=
     fst (checkGenreUsage GenreCatalogType.personality 0 "brave"
            Examples.manager_state
            (Examples.storage_with
               (Examples.authorB (Some "X") (Some Examples.brave)) ∅)) in
   (genres st, showDeleteAlert st, affectedComics st))
  = (Examples.catalog, true,
     [{| id := "authorb-0-L0xpYi9B"; title := "AuthorB";
         folderPath := "/Lib/AuthorB" |}])
  /\ (let st :=
        fst (checkGenreUsage GenreCatalogType.personality 1 "shy"
               Examples.manager_state
               (Examples.storage_with
                  (Examples.authorB (Some "X") (Some Examples.brave)) ∅)) in
      (GenreCatalog.personality (genres st), showDeleteAlert st,
       affectedComics st))
     = (["brave"], false, []).
Proof. split; vm_compute; reflexivity. Qed.

End GenreManagerFacts.

(** * Further properties *)

(** ** More on the recursive scan *)

Module ScanMore.

Import Fs Main ScanFacts.

Section Facts.

Variable tree : Tree.
Variables cwd directoryPath : string.

Local Abbreviation scan := (scanForComics tree cwd directoryPath).
Local Abbreviation entry := (scanEntry tree cwd directoryPath).

Lemma scanLevels_sound (levels : nat) :
  forall dirPath depth record,
    In record (scanLevels tree cwd directoryPath levels dirPath depth) ->
    exists parent files dirent d dirContents mtime,
      readdirSync tree parent = Returns files
      /\ In dirent files
      /\ isVisibleDirectory dirent = true
      /\ readdirSync tree (Path.join parent (name dirent))
         = Returns dirContents
      /\ statSync_mtime tree (Path.join parent (name dirent))
         = Returns mtime
      /\ imageNames dirContents <> []
      /\ depth <= d < depth + levels
      /\ record =
         comicRecord cwd directoryPath dirent
           (Path.join parent (name dirent)) d
           (imageFilesOf dirContents) mtime.
Proof.
  induction levels as [|levels IH]; intros dirPath depth record;
    simpl; [tauto|].
  destruct (readdirSync tree dirPath) as [files|] eqn:Hfiles;
    [|simpl; tauto].
  rewrite in_flat_map. intros (dirent & Hdirent & Hin).
  unfold scanEntry in Hin.
  destruct (isVisibleDirectory dirent) eqn:Hvis; [|destruct Hin].
  destruct (readdirSync tree (Path.join dirPath (name dirent)))
    as [dirContents|] eqn:Hsub; [|destruct Hin].
  destruct (0 <? length (imageFilesOf dirContents)) eqn:Hlen.
  - destruct (statSync_mtime tree (Path.join dirPath (name dirent)))
      as [mtime|] eqn:Hstat; [|destruct Hin].
    destruct Hin as [<-|[]].
    exists dirPath, files, dirent, depth, dirContents, mtime.
    repeat split; auto; try lia.
    intros Hnone. unfold imageFilesOf in Hlen. rewrite Hnone in Hlen.
    discriminate Hlen.
  - apply IH in Hin
      as (parent & files' & dirent' & d & contents & mtime & H1 & H2 & H3
          & H4 & H5 & H6 & H7 & H8).
    exists parent, files', dirent', d, contents, mtime.
    repeat split; auto; lia.
Qed.

(** X1.  Every record of a scan stands for a folder that is there: a
    visible entry of a directory that was listed, whose own listing and
    modification time could be read and which holds at least one image
    file.  The record was made at a depth between the one the scan
    started from and [maxDepth], and it is the record of that folder:
    its title is the entry's name, its pages are the folder's sorted
    image files. *)
Theorem scan_records_are_image_folders (dirPath : string) (depth : nat)
        (record : ComicFolder.t) :
  In record (scan dirPath depth) ->
  exists parent files dirent d dirContents mtime,
    readdirSync tree parent = Returns files
    /\ In dirent files
    /\ isVisibleDirectory dirent = true
    /\ readdirSync tree (Path.join parent (name dirent)) = Returns dirContents
    /\ statSync_mtime tree (Path.join parent (name dirent)) = Returns mtime
    /\ imageNames dirContents <> []
    /\ depth <= d <= maxDepth
    /\ record =
       comicRecord cwd directoryPath dirent
         (Path.join parent (name dirent)) d (imageFilesOf dirContents) mtime.
Proof.
  unfold scanForComics.
  destruct (maxDepth <? depth) eqn:Hd; [intros []|].
  apply Nat.ltb_ge in Hd. intros Hin.
  apply scanLevels_sound in Hin
    as (parent & files & dirent & d & contents & mtime & H1 & H2 & H3
        & H4 & H5 & H6 & H7 & H8).
  exists parent, files, dirent, d, contents, mtime.
  repeat split; auto; lia.
Qed.

(** X2.  Every record of a scan has at least one page, as many pages as
    [totalPages] says, the first page as its cover, and a folder path
    that its pages were built from. *)
Theorem scan_records_well_formed (dirPath : string) (depth : nat) :
  List.Forall
    (fun record =>
       ComicFolder.totalPages record = length (ComicFolder.pages record)
       /\ 0 < ComicFolder.totalPages record
       /\ ComicFolder.coverImage record = head (ComicFolder.pages record)
       /\ exists names,
            ComicFolder.pages record
            = List.map (pageUrl (ComicFolder.folderPath record)) names)
    (scan dirPath depth).
Proof.
  apply List.Forall_forall. intros record. unfold scanForComics.
  destruct (maxDepth <? depth); [intros []|]. intros Hin.
  apply scanLevels_sound in Hin
    as (parent & files & dirent & d & contents & mtime & _ & _ & _ & _
        & _ & Himg & _ & ->).
  cbn. rewrite length_map.
  assert (Hne : imageFilesOf contents <> []).
  { unfold imageFilesOf. intros Hnil.
    apply Himg. now apply SortFacts.sort_nil_iff. }
  destruct (imageFilesOf contents) as [|f rest]; [contradiction|].
  cbn. repeat split; [lia|]. now exists (f :: rest).
Qed.

(** X3.  The scan is fail-soft: an entry that is not a visible
    directory, or whose folder cannot be listed, or whose folder holds
    images but cannot be stat-ed, adds nothing, and the entries before
    and after it are scanned as if it were not there. *)
Theorem scan_skips_what_it_cannot_read dirPath depth before dirent after :
  depth <= maxDepth ->
  readdirSync tree dirPath = Returns (before ++ dirent :: after) ->
  (isVisibleDirectory dirent = false
   \/ (exists message,
         readdirSync tree (Path.join dirPath (name dirent))
         = Throws message)
   \/ (exists dirContents message,
         readdirSync tree (Path.join dirPath (name dirent))
         = Returns dirContents
         /\ imageNames dirContents <> []
         /\ statSync_mtime tree (Path.join dirPath (name dirent))
            = Throws message)) ->
  scan dirPath depth
  = List.flat_map (entry scan dirPath depth) (before ++ after).
Proof.
  intros Hd Hdir Hskip.
  rewrite (scan_split tree cwd directoryPath dirPath depth before dirent
             after Hd Hdir).
  rewrite flat_map_app.
  replace (entry scan dirPath depth dirent) with (@nil ComicFolder.t);
    [reflexivity|].
  unfold scanEntry.
  destruct Hskip as [Hvis|[(message & Hthrows)|(contents & message & Hsub
                                                 & Himg & Hstat)]].
  - now rewrite Hvis.
  - destruct (isVisibleDirectory dirent); [|reflexivity].
    now rewrite Hthrows.
  - destruct (isVisibleDirectory dirent); [|reflexivity].
    rewrite Hsub, Hstat.
    destruct (0 <? length (imageFilesOf contents)) eqn:Hlen; [reflexivity|].
    exfalso. apply Himg. apply Nat.ltb_ge in Hlen.
    unfold imageFilesOf in Hlen. rewrite SortFacts.sort_length in Hlen.
    apply length_zero_iff_nil. lia.
Qed.

End Facts.

Lemma scan_records_are_image_folders_witness :
  exists parent files dirent d dirContents mtime,
    readdirSync Examples.library parent = Returns files
    /\ In dirent files
    /\ isVisibleDirectory dirent = true
    /\ readdirSync Examples.library (Path.join parent (name dirent))
       = Returns dirContents
    /\ statSync_mtime Examples.library (Path.join parent (name dirent))
       = Returns mtime
    /\ imageNames dirContents <> []
    /\ 0 <= d <= maxDepth
    /\ Examples.authorB_folder =
       comicRecord "/" "/Lib" dirent
         (Path.join parent (name dirent)) d (imageFilesOf dirContents) mtime.
Proof.
  apply (scan_records_are_image_folders Examples.library "/" "/Lib"
           "/Lib" 0 Examples.authorB_folder).
  right. left. reflexivity.
Defined.

Lemma scan_skips_what_it_cannot_read_witness :
  scanForComics MoreExamples.rough_library "/" "/Lib" "/Lib" 0
  = List.flat_map
      (scanEntry MoreExamples.rough_library "/" "/Lib"
         (scanForComics MoreExamples.rough_library "/" "/Lib") "/Lib" 0)
      ([Examples.dir ".cache"; Examples.file "notes.txt"]
         ++ [Examples.dir "AuthorB"]).
Proof.
  apply (scan_skips_what_it_cannot_read MoreExamples.rough_library
           "/" "/Lib" "/Lib" 0
           [Examples.dir ".cache"; Examples.file "notes.txt"]
           (Examples.dir "Locked") [Examples.dir "AuthorB"]).
  - unfold maxDepth. lia.
  - reflexivity.
  - right. left.
    exists "ENOENT: no such file or directory, scandir /Lib/Locked".
    reflexivity.
Defined.

(** The rough library gives its one comic, whatever surrounds it. *)
Example scan_of_rough_library :
  List.map ComicFolder.folderPath
    (DirectoryScanResult.comics
       (read_directory MoreExamples.rough_library "/" "/Lib"))
  = ["/Lib/AuthorB"].
Proof. reflexivity. Qed.

End ScanMore.

(** ** The ids the scan gives *)

Module ScanIds.

Import Fs Main.

Lemma substring_0_0 (s : string) : String.substring 0 0 s = EmptyString.
Proof. now destruct s. Qed.

(** The eight base64 characters kept in an id encode the first six
    code units of the path and nothing else. *)
Lemma base64_head_of_six (head rest rest' : string) :
  String.length head = 6 ->
  String.substring 0 8 (Js.base64 (head +:+ rest))
  = String.substring 0 8 (Js.base64 (head +:+ rest')).
Proof.
  destruct head as [|a [|b [|c [|d [|e [|f [|g head]]]]]]];
    try discriminate.
  intros _.
  assert (Happ : forall r,
             String a (String b (String c (String d (String e
               (String f EmptyString))))) +:+ r
             = String a (String b (String c (String d (String e
                 (String f r))))))
    by reflexivity.
  rewrite !Happ. unfold Js.base64.
  cbn [list_ascii_of_string List.map Js.base64_bytes
         string_of_list_ascii String.substring].
  now rewrite !substring_0_0.
Qed.

(** X4.  The id of a record depends on the folder name only through its
    lower-case form with white space turned into dashes, on the depth,
    and on the first six code units of the folder path: two folders
    that agree on these get the same id, wherever they are. *)
Theorem same_name_depth_and_path_head_same_id
        (cwd cwd' directoryPath directoryPath' : string)
        (dirent dirent' : Dirent) (head rest rest' : string) (depth : nat)
        (imageFiles imageFiles' : list string) (mtime mtime' : Date) :
  Js.replace_spaces_with_dash (Js.toLowerCase (name dirent))
  = Js.replace_spaces_with_dash (Js.toLowerCase (name dirent')) ->
  String.length head = 6 ->
  ComicFolder.id
    (comicRecord cwd directoryPath dirent (head +:+ rest) depth
       imageFiles mtime)
  = ComicFolder.id
      (comicRecord cwd' directoryPath' dirent' (head +:+ rest') depth
         imageFiles' mtime').
Proof.
  intros Hname Hhead. cbn. rewrite Hname.
  now rewrite (base64_head_of_six head rest rest' Hhead).
Qed.

Lemma same_name_depth_and_path_head_same_id_witness :
  ComicFolder.id
    (comicRecord "/" "/Library" (Examples.dir "Vol 1")
       ("/Libra" +:+ "ry/A/Vol 1") 1 ["1.jpg"] 1700000000000%Z)
  = ComicFolder.id
      (comicRecord "/" "/Library" (Examples.dir "vol   1")
         ("/Libra" +:+ "ry/B/vol   1") 1 ["1.jpg"; "2.jpg"]
         1700000000001%Z).
Proof.
  apply (same_name_depth_and_path_head_same_id "/" "/" "/Library" "/Library"
           (Examples.dir "Vol 1") (Examples.dir "vol   1")
           "/Libra" "ry/A/Vol 1" "ry/B/vol   1" 1).
  - reflexivity.
  - reflexivity.
Defined.

(** Two series of the same name under two authors of one library: the
    scan gives them one id. *)
Example scan_of_twin_library :
  List.map (fun record => (ComicFolder.id record,
                           ComicFolder.folderPath record))
    (DirectoryScanResult.comics
       (read_directory MoreExamples.twin_library "/" "/Library"))
  = [("vol-1-1-L0xpYnJh", "/Library/A/Vol 1");
     ("vol-1-1-L0xpYnJh", "/Library/B/Vol 1")].
Proof. reflexivity. Qed.

End ScanIds.

(** ** The flat scan of [scanDirectory.cjs] *)

Module ScanDirectoryFacts.

Import Fs ScanDirectory.

Lemma collect_lengths (results : list (Try ComicFolder.t)) :
  length (fst (collect results)) + length (snd (collect results))
  = length results.
Proof.
  induction results as [|[c|e] results IH]; cbn; [reflexivity| |];
    destruct (collect results) as [comics errors]; cbn in *; lia.
Qed.

Lemma collect_comics (results : list (Try ComicFolder.t))
      (record : ComicFolder.t) :
  In record (fst (collect results)) <-> In (Returns record) results.
Proof.
  induction results as [|[c|e] results IH]; cbn; [tauto| |];
    destruct (collect results) as [comics errors]; cbn in *.
  - rewrite IH. split; intros [H|H]; auto; left; congruence.
  - rewrite IH. split; [auto | intros [H|H]; [discriminate | exact H]].
Qed.

Section Facts.

Variable tree : Tree.

(** X5.  When the root can be listed, every visible folder of it ends
    up either as one record or as one error message: the records and
    the errors together are as many as the visible folders, and
    [totalComics] counts the records. *)
Theorem every_folder_is_a_record_or_an_error (directoryPath : string)
        (entries : list Dirent) :
  readdirSync tree directoryPath = Returns entries ->
  length (DirectoryScanResult.comics
            (scanDirectoryForComics tree directoryPath))
  + length (DirectoryScanResult.errors
              (scanDirectoryForComics tree directoryPath))
  = length (List.filter Main.isVisibleDirectory entries)
  /\ DirectoryScanResult.totalComics
       (scanDirectoryForComics tree directoryPath)
     = length (DirectoryScanResult.comics
                 (scanDirectoryForComics tree directoryPath)).
Proof.
  intros Hroot. unfold scanDirectoryForComics. rewrite Hroot.
  pose proof (collect_lengths
                (List.map (scanFolder tree directoryPath)
                   (List.filter Main.isVisibleDirectory entries)))
    as Hlen.
  destruct (collect _) as [comics errors]. cbn in *.
  rewrite length_map in Hlen. split; [exact Hlen | reflexivity].
Qed.

Lemma scanFolder_record (directoryPath : string) (folder : Dirent)
      (record : ComicFolder.t) :
  scanFolder tree directoryPath folder = Returns record ->
  exists entries mtime,
    readdirSync tree (Path.join directoryPath (name folder))
    = Returns entries
    /\ statSync_mtime tree (Path.join directoryPath (name folder))
       = Returns mtime
    /\ record =
       {| ComicFolder.id :=
            Js.replace_spaces_with_dash (Js.toLowerCase (name folder));
          ComicFolder.title := name folder;
          ComicFolder.displayTitle := None;
          ComicFolder.folderPath := Path.join directoryPath (name folder);
          ComicFolder.coverImage :=
            head (List.map
                    (fun img =>
                       "file://"
                         +:+ Path.join
                               (Path.join directoryPath (name folder)) img)
                    (Js.sort (List.filter isImageFile
                                          (List.map name entries))));
          ComicFolder.totalPages :=
            length (List.map
                      (fun img =>
                         "file://"
                           +:+ Path.join
                                 (Path.join directoryPath (name folder)) img)
                      (Js.sort (List.filter isImageFile
                                            (List.map name entries))));
          ComicFolder.pages :=
            List.map
              (fun img =>
                 "file://"
                   +:+ Path.join (Path.join directoryPath (name folder)) img)
              (Js.sort (List.filter isImageFile (List.map name entries)));
          ComicFolder.lastModified := mtime;
          ComicFolder.author := None;
          ComicFolder.depth := None |}.
Proof.
  unfold scanFolder.
  destruct (readdirSync tree _) as [entries|]; [|discriminate].
  destruct (statSync_mtime tree _) as [mtime|]; [|discriminate].
  intros [= <-]. exists entries, mtime. auto.
Qed.

(** X6.  Every record of the flat scan has as many pages as
    [totalPages] says, its first page as cover when it has pages and no
    cover otherwise, the name of a visible folder of the root as title,
    and no author. *)
Theorem flat_scan_records_well_formed (directoryPath : string) :
  List.Forall
    (fun record =>
       ComicFolder.totalPages record = length (ComicFolder.pages record)
       /\ ComicFolder.coverImage record = head (ComicFolder.pages record)
       /\ ComicFolder.author record = None
       /\ exists entries folder,
            readdirSync tree directoryPath = Returns entries
            /\ In folder entries
            /\ Main.isVisibleDirectory folder = true
            /\ ComicFolder.title record = name folder
            /\ ComicFolder.folderPath record
               = Path.join directoryPath (name folder))
    (DirectoryScanResult.comics (scanDirectoryForComics tree directoryPath)).
Proof.
  apply List.Forall_forall. intros record.
  unfold scanDirectoryForComics.
  destruct (readdirSync tree directoryPath) as [entries|] eqn:Hroot;
    [|intros []].
  pose proof (collect_comics
                (List.map (scanFolder tree directoryPath)
                   (List.filter Main.isVisibleDirectory entries))
                record) as Hcomics.
  destruct (collect _) as [comics errors]. cbn in *.
  intros Hin. apply Hcomics in Hin.
  apply in_map_iff in Hin as (folder & Hscan & Hfolder).
  apply filter_In in Hfolder as [Hfolder Hvis].
  apply scanFolder_record in Hscan as (contents & mtime & _ & _ & ->).
  cbn. repeat split. exists entries, folder. auto.
Qed.

(** X7.  Unlike the recursive scan, the flat scan makes a record for a
    visible folder without image files: a record with no page and no
    cover. *)
Theorem flat_scan_records_empty_folder (directoryPath : string)
        (entries : list Dirent) (folder : Dirent)
        (contents : list Dirent) (mtime : Date) :
  readdirSync tree directoryPath = Returns entries ->
  In folder entries ->
  Main.isVisibleDirectory folder = true ->
  readdirSync tree (Path.join directoryPath (name folder))
  = Returns contents ->
  statSync_mtime tree (Path.join directoryPath (name folder))
  = Returns mtime ->
  List.filter isImageFile (List.map name contents) = [] ->
  exists record,
    In record
       (DirectoryScanResult.comics
          (scanDirectoryForComics tree directoryPath))
    /\ ComicFolder.folderPath record
       = Path.join directoryPath (name folder)
    /\ ComicFolder.totalPages record = 0
    /\ ComicFolder.pages record = []
    /\ ComicFolder.coverImage record = None.
Proof.
  intros Hroot Hin Hvis Hsub Hstat Hnone.
  unfold scanDirectoryForComics. rewrite Hroot.
  pose proof (collect_comics
                (List.map (scanFolder tree directoryPath)
                   (List.filter Main.isVisibleDirectory entries)))
    as Hcomics.
  destruct (collect _) as [comics errors]. cbn in *.
  assert (Hscan : exists record,
             scanFolder tree directoryPath folder = Returns record
             /\ ComicFolder.folderPath record
                = Path.join directoryPath (name folder)
             /\ ComicFolder.totalPages record = 0
             /\ ComicFolder.pages record = []
             /\ ComicFolder.coverImage record = None).
  { unfold scanFolder. rewrite Hsub, Hstat, Hnone.
    eexists. split; [reflexivity|]. cbn. auto. }
  destruct Hscan as (record & Hscan & Hfacts).
  exists record. split; [|exact Hfacts].
  apply Hcomics. rewrite <- Hscan. apply in_map.
  apply filter_In. auto.
Qed.

End Facts.

Lemma every_folder_is_a_record_or_an_error_witness :
  length (DirectoryScanResult.comics
            (scanDirectoryForComics MoreExamples.rough_library "/Lib"))
  + length (DirectoryScanResult.errors
              (scanDirectoryForComics MoreExamples.rough_library "/Lib"))
  = length (List.filter Main.isVisibleDirectory
              [Examples.dir ".cache"; Examples.file "notes.txt";
               Examples.dir "Locked"; Examples.dir "AuthorB"])
  /\ DirectoryScanResult.totalComics
       (scanDirectoryForComics MoreExamples.rough_library "/Lib")
     = length (DirectoryScanResult.comics
                 (scanDirectoryForComics MoreExamples.rough_library "/Lib")).
Proof.
  apply (every_folder_is_a_record_or_an_error MoreExamples.rough_library
           "/Lib").
  reflexivity.
Defined.

Lemma flat_scan_records_empty_folder_witness :
  exists record,
    In record
       (DirectoryScanResult.comics
          (scanDirectoryForComics Examples.library "/Lib"))
    /\ ComicFolder.folderPath record = Path.join "/Lib" "AuthorA"
    /\ ComicFolder.totalPages record = 0
    /\ ComicFolder.pages record = []
    /\ ComicFolder.coverImage record = None.
Proof.
  apply (flat_scan_records_empty_folder Examples.library "/Lib"
           [Examples.dir "AuthorA"; Examples.dir "AuthorB"]
           (Examples.dir "AuthorA") [Examples.dir "SeriesX"]
           1700000000000%Z).
  - reflexivity.
  - left. reflexivity.
  - reflexivity.
  - reflexivity.
  - reflexivity.
  - reflexivity.
Defined.

(** The rough library under the flat scan: one record, one error. *)
Example flat_scan_of_rough_library :
  (List.map ComicFolder.folderPath
     (DirectoryScanResult.comics
        (scanDirectoryForComics MoreExamples.rough_library "/Lib")),
   length (DirectoryScanResult.errors
             (scanDirectoryForComics MoreExamples.rough_library "/Lib")))
  = (["/Lib/AuthorB"], 1).
Proof. reflexivity. Qed.

End ScanDirectoryFacts.

(** ** More on the store *)

Module FileStorageMore.

Import FileStorage FileStorageFacts StoreSteps.

(** [getComic] looks at the mode, at the comics path and at one file. *)
Lemma getComic_ext (comicId : string) (s s' : t) :
  isElectron s' = isElectron s ->
  comicsPath s' = comicsPath s ->
  Disk.files (disk s') !! comicFilePath s comicId
  = Disk.files (disk s) !! comicFilePath s comicId ->
  fst (getComic comicId s') = fst (getComic comicId s).
Proof.
  destruct s as [electron dataPath comicsPath genres libraryIndex
                   [files failing journal] localStorage clock ticks].
  destruct s' as [electron' dataPath' comicsPath' genres' libraryIndex'
                    [files' failing' journal'] localStorage' clock' ticks'].
  run_storage. intros -> -> Hfile.
  destruct electron; cbn; [|reflexivity].
  rewrite Hfile. destruct (bool_decide _); cbn; [|reflexivity].
  destruct (files !! _) as [[]|]; reflexivity.
Qed.

(** What [saveComic] never changes. *)
Lemma saveComic_env (comic : Comic.t) (s : t) :
  isElectron (snd (saveComic comic s)) = isElectron s
  /\ dataPath (snd (saveComic comic s)) = dataPath s
  /\ comicsPath (snd (saveComic comic s)) = comicsPath s
  /\ Disk.failing (disk (snd (saveComic comic s))) = Disk.failing (disk s)
  /\ genres (snd (saveComic comic s)) = genres s
  /\ localStorage (snd (saveComic comic s)) = localStorage s.
Proof.
  open_storage s. destruct electron; cbn; [|repeat split].
  destruct (decide (_ ∈ failing)); cbn; [repeat split|].
  destruct (decide (_ ∈ failing)); cbn; repeat split.
Qed.

(** The files after [saveComic]: only the per-id file and the index
    file can differ. *)
Lemma saveComic_files (comic : Comic.t) (s : t) (path : string) :
  path <> comicFilePath s (Comic.id comic) ->
  path <> libraryIndexPath s ->
  Disk.files (disk (snd (saveComic comic s))) !! path
  = Disk.files (disk s) !! path.
Proof.
  intros Hcomic Hindex.
  open_storage s. destruct electron; cbn; [|reflexivity].
  destruct (decide (_ ∈ failing)); cbn; [reflexivity|].
  destruct (decide (_ ∈ failing)); cbn.
  - now rewrite lookup_insert_ne by congruence.
  - rewrite lookup_insert_ne by congruence.
    now rewrite lookup_insert_ne by congruence.
Qed.

(** X8.  Save, then get: in Electron, with the paths set up, a comic
    whose per-id file can be written is what [getComic] returns for its
    id afterwards, whether or not the index could be written. *)
Theorem getComic_after_saveComic (comic : Comic.t) (s : t) :
  isElectron s = true ->
  paths_initialized s ->
  comicFilePath s (Comic.id comic) ∉ Disk.failing (disk s) ->
  fst (saveComic comic s) = true
  /\ fst (getComic (Comic.id comic) (snd (saveComic comic s))) = Some comic.
Proof.
  intros He Hp Hok.
  pose proof (comicFilePath_not_index s (Comic.id comic) Hp) as Hindex.
  open_storage s. subst electron. cbn.
  destruct (decide (_ ∈ failing)) as [Hfail|_]; [contradiction|]. cbn.
  destruct (decide (_ ∈ failing)); cbn.
  - rewrite lookup_insert_eq.
    rewrite bool_decide_eq_true_2 by eauto. cbn. auto.
  - rewrite lookup_insert_ne by congruence. rewrite lookup_insert_eq.
    rewrite bool_decide_eq_true_2 by eauto. cbn. auto.
Qed.

(** X9.  Saving one comic leaves what [getComic] returns for every
    other id as it was, whether the save goes through or not. *)
Theorem getComic_other_after_saveComic (comic : Comic.t) (s : t)
        (other : string) :
  paths_initialized s ->
  other <> Comic.id comic ->
  fst (getComic other (snd (saveComic comic s))) = fst (getComic other s).
Proof.
  intros Hp Hother.
  destruct (saveComic_env comic s) as (He & _ & Hc & _).
  apply getComic_ext; [exact He | exact Hc |].
  apply saveComic_files.
  - intros Heq. apply comicFilePath_inj in Heq. contradiction.
  - now apply comicFilePath_not_index.
Qed.

Lemma getComic_after_saveComic_witness :
  fst (saveComic (Examples.authorB (Some "X") None)
         (Examples.storage_with (Examples.authorB None None)
            {[ "/data/json/library_index.json" ]}))
  = true
  /\ fst (getComic "authorb-0-L0xpYi9B"
            (snd (saveComic (Examples.authorB (Some "X") None)
                    (Examples.storage_with (Examples.authorB None None)
                       {[ "/data/json/library_index.json" ]}))))
     = Some (Examples.authorB (Some "X") None).
Proof.
  apply (getComic_after_saveComic (Examples.authorB (Some "X") None)
           (Examples.storage_with (Examples.authorB None None)
              {[ "/data/json/library_index.json" ]})).
  - reflexivity.
  - reflexivity.
  - cbn. intros H. apply elem_of_singleton in H. discriminate H.
Defined.

Lemma getComic_other_after_saveComic_witness :
  fst (getComic "authorb-0-L0xpYi9B"
         (snd (saveComic
                 {| Comic.id := "seriesx-1-L0xpYi9B";
                    Comic.title := "SeriesX";
                    Comic.displayTitle := None;
                    Comic.author := Some "AuthorA";
                    Comic.groupAuthor := None;
                    Comic.genres := [];
                    Comic.comicGenres := None;
                    Comic.genre := None;
                    Comic.tags := None;
                    Comic.description := None;
                    Comic.releaseDate := None;
                    Comic.lastRead := None;
                    Comic.lastReadPage := None;
                    Comic.lastReadDate := None;
                    Comic.coverImage := "/placeholder.svg";
                    Comic.totalPages := 2;
                    Comic.currentPage := 1;
                    Comic.folderPath := "/Lib/AuthorA/SeriesX";
                    Comic.pages := None;
                    Comic.depth := None |}
                 (Examples.storage_with (Examples.authorB None None) ∅))))
  = fst (getComic "authorb-0-L0xpYi9B"
           (Examples.storage_with (Examples.authorB None None) ∅)).
Proof.
  apply getComic_other_after_saveComic.
  - reflexivity.
  - discriminate.
Defined.

Lemma loadEach_eq (comicIds : list string) (s : t) :
  loadEach comicIds s
  = (omap (fun comicId => fst (getComic comicId s)) comicIds, s).
Proof.
  induction comicIds as [|comicId comicIds IH]; [reflexivity|].
  unfold loadEach; fold loadEach. unfold bind, ret.
  change (omap (fun comicId => fst (getComic comicId s))
            (comicId :: comicIds))
    with (match fst (getComic comicId s) with
          | Some comic =>
              comic :: omap (fun comicId => fst (getComic comicId s))
                            comicIds
          | None => omap (fun comicId => fst (getComic comicId s)) comicIds
          end).
  pose proof (getComic_state comicId s) as Hstate.
  destruct (getComic comicId s) as [comic s0]. cbn [fst snd] in *.
  subst s0. rewrite IH. now destruct comic.
Qed.

(** X10.  [getAllComics] only reads.  In Electron it returns, in the
    order of the index, the record of every indexed id whose file holds
    one; an id whose file is missing or corrupt is skipped and the
    others are still returned.  Outside Electron it returns nothing. *)
Theorem getAllComics_skips_unreadable (s : t) :
  getAllComics s
  = (if isElectron s
     then omap (fun comicId => fst (getComic comicId s))
               (JsObject.keys (LibraryIndex.comics (libraryIndex s)))
     else [],
     s).
Proof.
  unfold getAllComics, bind, gets, ret.
  destruct (isElectron s); [|reflexivity].
  apply loadEach_eq.
Qed.

(** A missing and a corrupt file among three indexed ids. *)
Example getAllComics_with_damaged_files :
  List.map Comic.id
    (fst (getAllComics
            (Examples.storage_on
               {| LibraryIndex.comics :=
                    [("gone", {| IndexEntry.title := "Gone";
                                 IndexEntry.folderPath := "/Lib/Gone";
                                 IndexEntry.lastModified := "t" |});
                     ("broken", {| IndexEntry.title := "Broken";
                                   IndexEntry.folderPath := "/Lib/Broken";
                                   IndexEntry.lastModified := "t" |});
                     ("authorb-0-L0xpYi9B",
                      {| IndexEntry.title := "AuthorB";
                         IndexEntry.folderPath := "/Lib/AuthorB";
                         IndexEntry.lastModified := "t" |})];
                  LibraryIndex.lastScan := "t";
                  LibraryIndex.totalComics := 3 |}
               (Examples.disk_of
                  (<["/data/json/comics/comic_broken.json" := Corrupt]>
                     {[ "/data/json/comics/comic_authorb-0-L0xpYi9B.json"
                          := ComicDoc (Examples.authorB None None) ]})
                  ∅))))
  = ["authorb-0-L0xpYi9B"].
Proof. vm_compute. reflexivity. Qed.

(** *** Bulk saving *)

Lemma saveEach_env (comics : list Comic.t) :
  forall s,
    isElectron (snd (saveEach comics s)) = isElectron s
    /\ dataPath (snd (saveEach comics s)) = dataPath s
    /\ comicsPath (snd (saveEach comics s)) = comicsPath s
    /\ Disk.failing (disk (snd (saveEach comics s))) = Disk.failing (disk s)
    /\ genres (snd (saveEach comics s)) = genres s
    /\ localStorage (snd (saveEach comics s)) = localStorage s.
Proof.
  induction comics as [|comic comics IH]; intros s; [repeat split|].
  cbn. unfold bind.
  pose proof (saveComic_env comic s) as Hstep.
  destruct (saveComic comic s) as [result s1]. cbn [snd] in Hstep.
  destruct Hstep as (He & Hd & Hc & Hf & Hg & Hl).
  destruct (IH s1) as (He' & Hd' & Hc' & Hf' & Hg' & Hl').
  rewrite He', Hd', Hc', Hf', Hg', Hl'. repeat split; assumption.
Qed.

(** A path at which writing fails keeps its content through a save. *)
Lemma saveComic_failing_files (comic : Comic.t) (s : t) (path : string) :
  path ∈ Disk.failing (disk s) ->
  Disk.files (disk (snd (saveComic comic s))) !! path
  = Disk.files (disk s) !! path.
Proof.
  intros Hpath.
  open_storage s. destruct electron; cbn; [|reflexivity].
  destruct (decide (_ ∈ failing)) as [|Hcomic]; cbn; [reflexivity|].
  destruct (decide (_ ∈ failing)) as [|Hindex]; cbn.
  - rewrite lookup_insert_ne; [reflexivity|]. intros <-. contradiction.
  - rewrite lookup_insert_ne by (intros <-; contradiction).
    rewrite lookup_insert_ne; [reflexivity|]. intros <-. contradiction.
Qed.

Lemma saveEach_failing_files (comics : list Comic.t) (path : string) :
  forall s,
    path ∈ Disk.failing (disk s) ->
    Disk.files (disk (snd (saveEach comics s))) !! path
    = Disk.files (disk s) !! path.
Proof.
  induction comics as [|comic comics IH]; intros s Hpath; [reflexivity|].
  cbn. unfold bind.
  pose proof (saveComic_env comic s) as (_ & _ & _ & Hf & _).
  pose proof (saveComic_failing_files comic s path Hpath) as Hstep.
  destruct (saveComic comic s) as [result s1]. cbn [snd] in *.
  rewrite IH by (now rewrite Hf). exact Hstep.
Qed.

Lemma saveComics_eq (comics : list Comic.t) (s : t) :
  isElectron s = true ->
  saveComics comics s
  = (true, closeIndex (length comics) (snd (saveEach comics s))).
Proof.
  intros He. unfold saveComics, closeIndex, bind, gets. cbn. rewrite He. cbn.
  destruct (saveEach comics s) as [[] s1]. cbn [snd].
  open_storage s1. destruct electron; cbn; [|reflexivity].
  destruct (decide (_ ∈ failing)); reflexivity.
Qed.

Lemma closeIndex_facts (total : nat) (s : t) :
  isElectron (closeIndex total s) = isElectron s
  /\ comicsPath (closeIndex total s) = comicsPath s
  /\ dataPath (closeIndex total s) = dataPath s
  /\ LibraryIndex.comics (libraryIndex (closeIndex total s))
     = LibraryIndex.comics (libraryIndex s)
  /\ LibraryIndex.totalComics (libraryIndex (closeIndex total s)) = total
  /\ (forall path,
        path <> libraryIndexPath s ->
        Disk.files (disk (closeIndex total s)) !! path
        = Disk.files (disk s) !! path)
  /\ (forall path,
        path ∈ Disk.failing (disk s) ->
        Disk.files (disk (closeIndex total s)) !! path
        = Disk.files (disk s) !! path).
Proof.
  unfold closeIndex. open_storage s.
  destruct electron; cbn; [|repeat split].
  destruct (decide (_ ∈ failing)) as [Hfail|Hok]; cbn; repeat split.
  - intros path Hne. now rewrite lookup_insert_ne by congruence.
  - intros path Hin. rewrite lookup_insert_ne; [reflexivity|].
    intros <-. contradiction.
Qed.

(** X11.  In Electron [saveComics] returns [true] whatever happened to
    the writes, and the index counts the comics it was given, not the
    ones it saved: a path at which writing fails keeps the content it
    had. *)
Theorem saveComics_true_whatever_was_written (comics : list Comic.t)
        (s : t) :
  isElectron s = true ->
  fst (saveComics comics s) = true
  /\ LibraryIndex.totalComics (libraryIndex (snd (saveComics comics s)))
     = length comics
  /\ (forall path,
        path ∈ Disk.failing (disk s) ->
        Disk.files (disk (snd (saveComics comics s))) !! path
        = Disk.files (disk s) !! path).
Proof.
  intros He. rewrite (saveComics_eq comics s He). cbn [fst snd].
  destruct (closeIndex_facts (length comics) (snd (saveEach comics s)))
    as (_ & _ & _ & _ & Htotal & _ & Hfailing).
  split; [reflexivity|]. split; [exact Htotal|].
  intros path Hpath.
  destruct (saveEach_env comics s) as (_ & _ & _ & Hf & _).
  rewrite Hfailing by (now rewrite Hf).
  now apply saveEach_failing_files.
Qed.

Lemma saveComics_true_whatever_was_written_witness :
  fst (saveComics [Examples.authorB None None]
         MoreExamples.read_only_storage)
  = true
  /\ LibraryIndex.totalComics
       (libraryIndex
          (snd (saveComics [Examples.authorB None None]
                  MoreExamples.read_only_storage)))
     = length [Examples.authorB None None]
  /\ (forall path,
        path ∈ Disk.failing (disk MoreExamples.read_only_storage) ->
        Disk.files
          (disk (snd (saveComics [Examples.authorB None None]
                        MoreExamples.read_only_storage)))
          !! path
        = Disk.files (disk MoreExamples.read_only_storage) !! path).
Proof.
  apply (saveComics_true_whatever_was_written
           [Examples.authorB None None] MoreExamples.read_only_storage).
  reflexivity.
Defined.

(** Nothing could be written: [true] all the same, one comic counted,
    none indexed, no record to read. *)
Example saveComics_on_a_read_only_disk :
  fst (saveComics [Examples.authorB None None]
         MoreExamples.read_only_storage) = true
  /\ LibraryIndex.totalComics
       (libraryIndex (snd (saveComics [Examples.authorB None None]
                             MoreExamples.read_only_storage))) = 1
  /\ LibraryIndex.comics
       (libraryIndex (snd (saveComics [Examples.authorB None None]
                             MoreExamples.read_only_storage))) = []
  /\ fst (getAllComics (snd (saveComics [Examples.authorB None None]
                               MoreExamples.read_only_storage)))
     = [].
Proof. vm_compute. repeat split. Qed.

(** *** Outside Electron *)

(** X12.  Outside Electron the comic methods of the store do nothing:
    saving and deleting return [false], reading returns nothing, and
    the store is left as it was. *)
Theorem outside_electron_no_comic_is_stored (s : t) (comic : Comic.t)
        (comics : list Comic.t) (comicId : string) :
  isElectron s = false ->
  saveComic comic s = (false, s)
  /\ saveComics comics s = (false, s)
  /\ deleteComic comicId s = (false, s)
  /\ getComic comicId s = (None, s)
  /\ getAllComics s = ([], s).
Proof.
  intros He. open_storage s. subst electron. cbn. repeat split.
Qed.

Lemma outside_electron_no_comic_is_stored_witness :
  saveComic (Examples.authorB None None) MoreExamples.browser_storage
  = (false, MoreExamples.browser_storage)
  /\ saveComics [Examples.authorB None None] MoreExamples.browser_storage
     = (false, MoreExamples.browser_storage)
  /\ deleteComic "authorb-0-L0xpYi9B" MoreExamples.browser_storage
     = (false, MoreExamples.browser_storage)
  /\ getComic "authorb-0-L0xpYi9B" MoreExamples.browser_storage
     = (None, MoreExamples.browser_storage)
  /\ getAllComics MoreExamples.browser_storage
     = ([], MoreExamples.browser_storage).
Proof.
  apply (outside_electron_no_comic_is_stored MoreExamples.browser_storage
           (Examples.authorB None None) [Examples.authorB None None]
           "authorb-0-L0xpYi9B").
  reflexivity.
Defined.

End FileStorageMore.
(** ** Round trips through the store *)

Module StoreRoundTrips.

Import FileStorage FileStorageFacts FileStorageMore ComicsLibrary
  StoreSteps.

Lemma omap_ext_in {A B} (f g : A -> option B) (l : list A) :
  (forall x, In x l -> f x = g x) -> omap f l = omap g l.
Proof.
  induction l as [|x l IH]; intros Hfg; [reflexivity|].
  cbn. rewrite (Hfg x) by now left.
  rewrite IH by (intros y Hy; apply Hfg; now right). reflexivity.
Qed.



Lemma keys_delete {V} (k : string) (o : JsObject.t V) :
  JsObject.keys (JsObject.delete k o)
  = List.filter (fun k' => negb (String.eqb k' k)) (JsObject.keys o).
Proof.
  induction o as [|[k' v'] o IH]; [reflexivity|].
  unfold JsObject.delete, JsObject.keys in *. cbn.
  destruct (String.eqb k' k); cbn; now rewrite IH.
Qed.

(** What [getAllComics] depends on. *)
Lemma getAllComics_frame (s s' : t) :
  isElectron s' = isElectron s ->
  comicsPath s' = comicsPath s ->
  LibraryIndex.comics (libraryIndex s')
  = LibraryIndex.comics (libraryIndex s) ->
  (forall comicId,
     Disk.files (disk s') !! comicFilePath s comicId
     = Disk.files (disk s) !! comicFilePath s comicId) ->
  fst (getAllComics s') = fst (getAllComics s).
Proof.
  intros He Hc Hi Hfiles.
  unfold getAllComics, bind, gets, ret.
  rewrite He. destruct (isElectron s) eqn:Hes; [|reflexivity].
  cbn [negb fst snd]. rewrite !loadEach_eq, Hi. cbn [fst].
  apply omap_ext_in. intros comicId _.
  apply getComic_ext; [congruence | exact Hc | apply Hfiles].
Qed.

(** *** Genres and comics do not meet *)

Lemma comicFilePath_not_genres (s : t) (i : string) :
  paths_initialized s -> comicFilePath s i <> dataPath s +:+ "/genres.json".
Proof.
  unfold paths_initialized, comicFilePath.
  intros -> H. rewrite append_assoc in H.
  apply StringFacts.append_cancel_l in H.
  cbn in H. discriminate H.
Qed.

Lemma setGenres_env (g : GenreCatalog.t) (s : t) :
  isElectron (snd (setGenres g s)) = isElectron s
  /\ comicsPath (snd (setGenres g s)) = comicsPath s
  /\ libraryIndex (snd (setGenres g s)) = libraryIndex s
  /\ (forall path,
        path <> dataPath s +:+ "/genres.json" ->
        Disk.files (disk (snd (setGenres g s))) !! path
        = Disk.files (disk s) !! path).
Proof.
  open_storage s. destruct electron; cbn; [|repeat split].
  destruct (decide (_ ∈ failing)); cbn; repeat split.
  intros path Hne. now rewrite lookup_insert_ne by congruence.
Qed.

(** X13.  Saving the genre catalog never touches the library: with the
    paths set up, the index, the record read for every id and the list
    of all comics are what they were, while the catalog read back is
    the one saved. *)
Theorem setGenres_leaves_the_library (g : GenreCatalog.t) (s : t) :
  paths_initialized s ->
  libraryIndex (snd (setGenres g s)) = libraryIndex s
  /\ (forall comicId,
        fst (getComic comicId (snd (setGenres g s)))
        = fst (getComic comicId s))
  /\ fst (getAllComics (snd (setGenres g s))) = fst (getAllComics s)
  /\ fst (getGenres (snd (setGenres g s))) = g.
Proof.
  intros Hp.
  destruct (setGenres_env g s) as (He & Hc & Hi & Hfiles).
  assert (Hcomics : forall comicId,
             Disk.files (disk (snd (setGenres g s)))
               !! comicFilePath s comicId
             = Disk.files (disk s) !! comicFilePath s comicId).
  { intros comicId. apply Hfiles. now apply comicFilePath_not_genres. }
  split; [exact Hi|]. split; [|split].
  - intros comicId. apply getComic_ext; [exact He | exact Hc | apply Hcomics].
  - apply getAllComics_frame; [exact He | exact Hc | | exact Hcomics].
    now rewrite Hi.
  - open_storage s. destruct electron; cbn.
    + destruct (decide (_ ∈ failing)); reflexivity.
    + now rewrite lookup_insert_eq.
Qed.

Lemma setGenres_leaves_the_library_witness :
  libraryIndex
    (snd (setGenres Examples.catalog
            (Examples.storage_with (Examples.authorB None None) ∅)))
  = libraryIndex (Examples.storage_with (Examples.authorB None None) ∅)
  /\ (forall comicId,
        fst (getComic comicId
               (snd (setGenres Examples.catalog
                       (Examples.storage_with
                          (Examples.authorB None None) ∅))))
        = fst (getComic comicId
                 (Examples.storage_with (Examples.authorB None None) ∅)))
  /\ fst (getAllComics
            (snd (setGenres Examples.catalog
                    (Examples.storage_with (Examples.authorB None None) ∅))))
     = fst (getAllComics
              (Examples.storage_with (Examples.authorB None None) ∅))
  /\ fst (getGenres
            (snd (setGenres Examples.catalog
                    (Examples.storage_with (Examples.authorB None None) ∅))))
     = Examples.catalog.
Proof.
  apply (setGenres_leaves_the_library Examples.catalog
           (Examples.storage_with (Examples.authorB None None) ∅)).
  reflexivity.
Defined.

(** *** Deleting, as the readers see it *)

Lemma deleteComic_env (comicId : string) (s : t) :
  isElectron (snd (deleteComic comicId s)) = isElectron s
  /\ comicsPath (snd (deleteComic comicId s)) = comicsPath s
  /\ (isElectron s = true ->
      LibraryIndex.comics (libraryIndex (snd (deleteComic comicId s)))
      = JsObject.delete comicId (LibraryIndex.comics (libraryIndex s)))
  /\ (forall path,
        path <> libraryIndexPath s ->
        Disk.files (disk (snd (deleteComic comicId s))) !! path
        = Disk.files (disk s) !! path).
Proof.
  open_storage s. destruct electron; cbn.
  - destruct (decide (_ ∈ failing)); cbn; repeat split.
    intros path Hne. now rewrite lookup_insert_ne by congruence.
  - repeat split. discriminate.
Qed.

(** X14.  After [deleteComic(comicId)], in Electron with the paths set
    up, [getComic] answers for every id as before, for [comicId] too,
    whose record is still on disk; [getAllComics] lists the records of
    the other indexed ids, in the same order, and no longer asks for
    [comicId]. *)
Theorem deleteComic_hides_the_record_from_the_list (comicId : string)
        (s : t) :
  isElectron s = true ->
  paths_initialized s ->
  (forall anyId,
     fst (getComic anyId (snd (deleteComic comicId s)))
     = fst (getComic anyId s))
  /\ fst (getAllComics (snd (deleteComic comicId s)))
     = omap (fun anyId => fst (getComic anyId s))
            (List.filter (fun anyId => negb (String.eqb anyId comicId))
               (JsObject.keys (LibraryIndex.comics (libraryIndex s)))).
Proof.
  intros He Hp.
  destruct (deleteComic_env comicId s) as (He' & Hc & Hi & Hfiles).
  specialize (Hi He).
  assert (Hcomics : forall anyId,
             Disk.files (disk (snd (deleteComic comicId s)))
               !! comicFilePath s anyId
             = Disk.files (disk s) !! comicFilePath s anyId).
  { intros anyId. apply Hfiles. now apply comicFilePath_not_index. }
  assert (Hget : forall anyId,
             fst (getComic anyId (snd (deleteComic comicId s)))
             = fst (getComic anyId s)).
  { intros anyId.
    apply getComic_ext; [exact He' | exact Hc | apply Hcomics]. }
  split; [exact Hget|].
  unfold getAllComics, bind, gets, ret.
  rewrite He', He. cbn [negb fst snd].
  rewrite loadEach_eq, Hi, keys_delete. cbn [fst].
  apply omap_ext_in. intros anyId _. apply Hget.
Qed.

Lemma deleteComic_hides_the_record_from_the_list_witness :
  (forall anyId,
     fst (getComic anyId
            (snd (deleteComic "authorb-0-L0xpYi9B"
                    (Examples.storage_with
                       (Examples.authorB None None) ∅))))
     = fst (getComic anyId
              (Examples.storage_with (Examples.authorB None None) ∅)))
  /\ fst (getAllComics
            (snd (deleteComic "authorb-0-L0xpYi9B"
                    (Examples.storage_with
                       (Examples.authorB None None) ∅))))
     = omap (fun anyId =>
               fst (getComic anyId
                      (Examples.storage_with
                         (Examples.authorB None None) ∅)))
            (List.filter
               (fun anyId => negb (String.eqb anyId "authorb-0-L0xpYi9B"))
               (JsObject.keys
                  (LibraryIndex.comics
                     (libraryIndex
                        (Examples.storage_with
                           (Examples.authorB None None) ∅))))).
Proof.
  apply (deleteComic_hides_the_record_from_the_list "authorb-0-L0xpYi9B"
           (Examples.storage_with (Examples.authorB None None) ∅)).
  - reflexivity.
  - reflexivity.
Defined.

(** The record of [authorB] after its deletion: still read by id, no
    longer listed. *)
Example deleted_record_is_read_but_not_listed :
  fst (getComic "authorb-0-L0xpYi9B"
         (snd (deleteComic "authorb-0-L0xpYi9B"
                 (Examples.storage_with (Examples.authorB None None) ∅))))
  = Some (Examples.authorB None None)
  /\ fst (getAllComics
            (snd (deleteComic "authorb-0-L0xpYi9B"
                    (Examples.storage_with
                       (Examples.authorB None None) ∅))))
     = [].
Proof. vm_compute. split; reflexivity. Qed.

(** *** Saving, as the readers see it *)

Lemma saveComic_file_written (comic : Comic.t) (s : t) :
  isElectron s = true ->
  paths_initialized s ->
  comicFilePath s (Comic.id comic) ∉ Disk.failing (disk s) ->
  Disk.files (disk (snd (saveComic comic s)))
    !! comicFilePath s (Comic.id comic)
  = Some (ComicDoc comic).
Proof.
  intros He Hp Hok.
  pose proof (comicFilePath_not_index s (Comic.id comic) Hp) as Hindex.
  open_storage s. subst electron. cbn.
  destruct (decide (_ ∈ failing)) as [Hfail|_]; [contradiction|]. cbn.
  destruct (decide (_ ∈ failing)); cbn.
  - apply lookup_insert_eq.
  - rewrite lookup_insert_ne by congruence. apply lookup_insert_eq.
Qed.



(** *** What a refresh leaves in the store *)

Lemma saveComic_index_other (comic : Comic.t) (s : t) (other : string) :
  other <> Comic.id comic ->
  JsObject.get other
    (LibraryIndex.comics (libraryIndex (snd (saveComic comic s))))
  = JsObject.get other (LibraryIndex.comics (libraryIndex s)).
Proof.
  intros Hne. open_storage s. destruct electron; cbn; [|reflexivity].
  destruct (decide (_ ∈ failing)); cbn; [reflexivity|].
  destruct (decide (_ ∈ failing)); cbn;
    now apply JsObjectFacts.get_set_ne.
Qed.

Lemma paths_initialized_env (s s' : t) :
  dataPath s' = dataPath s ->
  comicsPath s' = comicsPath s ->
  paths_initialized s -> paths_initialized s'.
Proof. unfold paths_initialized. now intros -> ->. Qed.

Lemma comicFilePath_env (s s' : t) (i : string) :
  comicsPath s' = comicsPath s -> comicFilePath s' i = comicFilePath s i.
Proof. unfold comicFilePath. now intros ->. Qed.

(** The saves of a list leave alone the ids that are not in it. *)
Lemma saveEach_other (comics : list Comic.t) (other : string) :
  forall s,
    paths_initialized s ->
    ~ In other (List.map Comic.id comics) ->
    Disk.files (disk (snd (saveEach comics s))) !! comicFilePath s other
    = Disk.files (disk s) !! comicFilePath s other
    /\ JsObject.get other
         (LibraryIndex.comics (libraryIndex (snd (saveEach comics s))))
       = JsObject.get other (LibraryIndex.comics (libraryIndex s)).
Proof.
  induction comics as [|comic comics IH]; intros s Hp Hother;
    [split; reflexivity|].
  cbn in Hother. cbn. unfold bind.
  assert (Hne : other <> Comic.id comic) by (intros ->; apply Hother; now left).
  pose proof (saveComic_env comic s) as (_ & Hd & Hc & _).
  pose proof (saveComic_files comic s (comicFilePath s other)) as Hfile.
  pose proof (saveComic_index_other comic s other Hne) as Hentry.
  destruct (saveComic comic s) as [result s1]. cbn [snd] in *.
  destruct (IH s1) as (Hfiles1 & Hentry1).
  - now apply (paths_initialized_env s).
  - intros Hin. apply Hother. now right.
  - rewrite (comicFilePath_env s s1 other Hc) in Hfiles1.
    rewrite Hfiles1, Hentry1. split; [|exact Hentry].
    apply Hfile.
    + intros Heq. apply comicFilePath_inj in Heq. contradiction.
    + now apply comicFilePath_not_index.
Qed.

(** The saves of a list without repeated ids write each comic whose
    file can be written. *)
Lemma saveEach_file_written (comics : list Comic.t) (comic : Comic.t) :
  forall s,
    isElectron s = true ->
    paths_initialized s ->
    NoDup (List.map Comic.id comics) ->
    In comic comics ->
    comicFilePath s (Comic.id comic) ∉ Disk.failing (disk s) ->
    Disk.files (disk (snd (saveEach comics s)))
      !! comicFilePath s (Comic.id comic)
    = Some (ComicDoc comic).
Proof.
  induction comics as [|first comics IH];
    intros s He Hp Hnodup Hin Hok; [destruct Hin|].
  cbn in Hnodup. apply NoDup_cons in Hnodup as [Hfresh Hnodup].
  cbn. unfold bind.
  pose proof (saveComic_env first s) as (He1 & Hd & Hc & Hf & _).
  destruct Hin as [->|Hin].
  - pose proof (saveComic_file_written comic s He Hp Hok) as Hfile.
    destruct (saveComic comic s) as [result s1]. cbn [snd] in *.
    destruct (saveEach_other comics (Comic.id comic) s1) as (Hfiles & _).
    + now apply (paths_initialized_env s).
    + intros Hin. apply Hfresh. now apply list_elem_of_In.
    + rewrite (comicFilePath_env s s1 _ Hc) in Hfiles.
      now rewrite Hfiles.
  - destruct (saveComic first s) as [result s1]. cbn [snd] in *.
    rewrite <- (comicFilePath_env s s1 _ Hc).
    apply IH; [congruence | now apply (paths_initialized_env s)
               | exact Hnodup | exact Hin |].
    rewrite (comicFilePath_env s s1 _ Hc), Hf. exact Hok.
Qed.

Section Refresh.

Variable tree : Fs.Tree.
Variables cwd targetDirectory : string.

Local Abbreviation scanned :=
  (DirectoryScanResult.comics (Main.read_directory tree cwd targetDirectory)).

(** The store after a refresh, from the saves. *)
Lemma handleRefresh_state (s : t) :
  isElectron s = true ->
  targetDirectory <> EmptyString ->
  snd (handleRefresh tree cwd targetDirectory s)
  = closeIndex (length scanned)
      (snd (saveEach
              (List.map
                 (fun comicFolder =>
                    mergedComic comicFolder
                      (fst (getComic (ComicFolder.id comicFolder) s)))
                 scanned)
              s)).
Proof.
  intros He Hdir.
  rewrite (ComicsLibraryFacts.handleRefresh_eq tree cwd targetDirectory s Hdir).
  cbn [snd]. rewrite (saveComics_eq _ s He). cbn [snd].
  now rewrite length_map.
Qed.

Lemma merged_ids (s : t) (folders : list ComicFolder.t) :
  List.map Comic.id
    (List.map
       (fun comicFolder =>
          mergedComic comicFolder
            (fst (getComic (ComicFolder.id comicFolder) s)))
       folders)
  = List.map ComicFolder.id folders.
Proof. rewrite List.map_map. reflexivity. Qed.

(** X16.  What a refresh saves can be read back: in Electron, with the
    paths set up, when the scanned folders have distinct ids, the
    record that [getComic] returns after the refresh for a scanned
    folder whose file can be written is the record merged for that
    folder from what was saved before. *)
Theorem refresh_saves_the_merged_record (s : t)
        (comicFolder : ComicFolder.t) :
  isElectron s = true ->
  paths_initialized s ->
  targetDirectory <> EmptyString ->
  NoDup (List.map ComicFolder.id scanned) ->
  In comicFolder scanned ->
  comicFilePath s (ComicFolder.id comicFolder) ∉ Disk.failing (disk s) ->
  fst (getComic (ComicFolder.id comicFolder)
         (snd (handleRefresh tree cwd targetDirectory s)))
  = Some (mergedComic comicFolder
            (fst (getComic (ComicFolder.id comicFolder) s))).
Proof.
  intros He Hp Hdir Hnodup Hin Hok.
  rewrite (handleRefresh_state s He Hdir).
  set (converted :=
         List.map
           (fun comicFolder =>
              mergedComic comicFolder
                (fst (getComic (ComicFolder.id comicFolder) s)))
           scanned).
  set (merged :=
         mergedComic comicFolder
           (fst (getComic (ComicFolder.id comicFolder) s))).
  assert (Hwritten :
            Disk.files (disk (snd (saveEach converted s)))
              !! comicFilePath s (Comic.id merged)
            = Some (ComicDoc merged)).
  { apply saveEach_file_written; [exact He | exact Hp | | | exact Hok].
    - unfold converted. now rewrite merged_ids.
    - unfold converted, merged.
      apply (List.in_map
               (fun comicFolder =>
                  mergedComic comicFolder
                    (fst (getComic (ComicFolder.id comicFolder) s)))
               _ _ Hin). }
  destruct (saveEach_env converted s) as (He1 & Hd1 & Hc1 & _).
  destruct (closeIndex_facts (length scanned) (snd (saveEach converted s)))
    as (He2 & Hc2 & Hd2 & _ & _ & Hfiles & _).
  apply getComic_Some. split; [congruence|].
  unfold comicFilePath in *. rewrite Hc2, Hc1.
  rewrite Hfiles; [exact Hwritten|].
  fold (comicFilePath s (ComicFolder.id comicFolder)).
  rewrite <- (comicFilePath_env s (snd (saveEach converted s)) _ Hc1).
  apply comicFilePath_not_index.
  now apply (paths_initialized_env s).
Qed.

(** X17.  A refresh never removes anything: for an id that no scanned
    folder has, the record that [getComic] returns and the entry of the
    index are after the refresh what they were before it, so that the
    comic of a folder that is gone stays in the library. *)
Theorem refresh_keeps_what_it_did_not_scan (s : t) (comicId : string) :
  paths_initialized s ->
  ~ In comicId (List.map ComicFolder.id scanned) ->
  fst (getComic comicId (snd (handleRefresh tree cwd targetDirectory s)))
  = fst (getComic comicId s)
  /\ JsObject.get comicId
       (LibraryIndex.comics
          (libraryIndex (snd (handleRefresh tree cwd targetDirectory s))))
     = JsObject.get comicId (LibraryIndex.comics (libraryIndex s)).
Proof.
  intros Hp Hother.
  destruct (isElectron s) eqn:He.
  - destruct (String.eqb_spec targetDirectory EmptyString) as [Hempty|Hdir].
    { unfold handleRefresh. rewrite Hempty. split; reflexivity. }
    rewrite (handleRefresh_state s He Hdir).
    set (converted :=
           List.map
             (fun comicFolder =>
                mergedComic comicFolder
                  (fst (getComic (ComicFolder.id comicFolder) s)))
             scanned).
    destruct (saveEach_other converted comicId s Hp) as (Hfile & Hentry).
    { unfold converted. now rewrite merged_ids. }
    destruct (saveEach_env converted s) as (He1 & Hd1 & Hc1 & _).
    destruct (closeIndex_facts (length scanned) (snd (saveEach converted s)))
      as (He2 & Hc2 & Hd2 & Hcomics & _ & Hfiles & _).
    split.
    + apply getComic_ext; [congruence | congruence |].
      rewrite Hfiles; [exact Hfile|].
      rewrite <- (comicFilePath_env s (snd (saveEach converted s)) _ Hc1).
      apply comicFilePath_not_index.
      now apply (paths_initialized_env s).
    + now rewrite Hcomics.
  - unfold handleRefresh.
    destruct (Js.truthy targetDirectory); cbn [negb]; [|split; reflexivity].
    unfold bind. rewrite ComicsLibraryFacts.convertAll_eq.
    assert (Hsave : forall comics, saveComics comics s = (false, s)).
    { intros comics. open_storage s. subst electron. reflexivity. }
    rewrite Hsave. split; reflexivity.
Qed.

End Refresh.

Lemma refresh_saves_the_merged_record_witness :
  fst (getComic (ComicFolder.id Examples.authorB_folder)
         (snd (handleRefresh Examples.library "/" "/Lib"
                 (Examples.storage_with
                    (Examples.authorB (Some "X") (Some Examples.brave)) ∅))))
  = Some (mergedComic Examples.authorB_folder
            (fst (getComic (ComicFolder.id Examples.authorB_folder)
                    (Examples.storage_with
                       (Examples.authorB (Some "X") (Some Examples.brave))
                       ∅)))).
Proof.
  apply (refresh_saves_the_merged_record Examples.library "/" "/Lib"
           (Examples.storage_with
              (Examples.authorB (Some "X") (Some Examples.brave)) ∅)
           Examples.authorB_folder).
  - reflexivity.
  - reflexivity.
  - discriminate.
  - vm_compute. repeat constructor; cbn; intros H;
      repeat (apply elem_of_cons in H as [H|H]; [discriminate H|]);
      now apply elem_of_nil in H.
  - vm_compute. right. left. reflexivity.
  - cbn. apply not_elem_of_empty.
Defined.

Lemma refresh_keeps_what_it_did_not_scan_witness :
  fst (getComic "authorb-0-L0xpYi9B"
         (snd (handleRefresh Examples.mixed_case_library "/" "/Shelf"
                 (Examples.storage_with (Examples.authorB None None) ∅))))
  = fst (getComic "authorb-0-L0xpYi9B"
           (Examples.storage_with (Examples.authorB None None) ∅))
  /\ JsObject.get "authorb-0-L0xpYi9B"
       (LibraryIndex.comics
          (libraryIndex
             (snd (handleRefresh Examples.mixed_case_library "/" "/Shelf"
                     (Examples.storage_with
                        (Examples.authorB None None) ∅)))))
     = JsObject.get "authorb-0-L0xpYi9B"
         (LibraryIndex.comics
            (libraryIndex
               (Examples.storage_with (Examples.authorB None None) ∅))).
Proof.
  apply (refresh_keeps_what_it_did_not_scan Examples.mixed_case_library
           "/" "/Shelf"
           (Examples.storage_with (Examples.authorB None None) ∅)
           "authorb-0-L0xpYi9B").
  - reflexivity.
  - vm_compute. intros [H|[]]. discriminate H.
Defined.

End StoreRoundTrips.

(** ** More on renaming folders *)

Module RenameMore.

Import FileStorage.

Local Abbreviation chars := list_ascii_of_string.

Lemma chars_string_map (Q : ascii -> Prop) (f : ascii -> ascii)
      (s : string) :
  (forall c, Q (f c)) -> List.Forall Q (chars (Js.string_map f s)).
Proof.
  intros HQ. induction s as [|c s IH]; cbn; constructor; auto.
Qed.

Lemma chars_replace_spaces (Q : ascii -> Prop) (by_ : ascii) (s : string) :
  Q by_ ->
  List.Forall Q (chars s) ->
  forall inRun, List.Forall Q (chars (Js.replace_spaces_from by_ inRun s)).
Proof.
  intros Hby. induction s as [|c s IH]; intros Hs inRun; cbn;
    [constructor|].
  cbn in Hs. inversion Hs as [|? ? Hc Hrest]; subst.
  destruct (Js.is_space c); [destruct inRun|]; cbn;
    try constructor; auto.
Qed.

Lemma chars_trimStart (Q : ascii -> Prop) (s : string) :
  List.Forall Q (chars s) -> List.Forall Q (chars (Js.trimStart s)).
Proof.
  induction s as [|c s IH]; intros Hs; cbn; [constructor|].
  cbn in Hs. inversion Hs as [|? ? Hc Hrest]; subst.
  destruct (Js.is_space c); [now apply IH|]. cbn. now constructor.
Qed.

Lemma chars_string_rev (Q : ascii -> Prop) (s : string) :
  List.Forall Q (chars s) -> List.Forall Q (chars (Js.string_rev s)).
Proof.
  intros Hs. unfold Js.string_rev.
  rewrite list_ascii_of_string_of_list_ascii.
  apply List.Forall_forall. intros c Hc. apply List.in_rev in Hc.
  revert c Hc. now apply List.Forall_forall.
Qed.

Lemma chars_trim (Q : ascii -> Prop) (s : string) :
  List.Forall Q (chars s) -> List.Forall Q (chars (Js.trim s)).
Proof.
  intros Hs. unfold Js.trim.
  now apply chars_string_rev, chars_trimStart, chars_string_rev,
    chars_trimStart.
Qed.

(** X18.  A sanitized title has none of the characters that a folder
    name may not have, whatever the title was. *)
Theorem sanitizeTitle_has_no_invalid_character (title : string) :
  List.Forall (fun c => invalid_title_char c = false)
              (chars (sanitizeTitle title)).
Proof.
  unfold sanitizeTitle.
  apply chars_trim, chars_replace_spaces; [reflexivity|].
  apply chars_string_map. intros c.
  destruct (invalid_title_char c) eqn:Hc; [reflexivity | exact Hc].
Qed.

Example sanitizeTitle_of_a_rough_title :
  sanitizeTitle "  What?   A: B/C  " = "What_ A_ B_C".
Proof. reflexivity. Qed.

(** *** The sibling path *)

Lemma lastIndexOf_from_absent (c : ascii) (s : string) :
  ~ In c (chars s) -> forall i, Js.lastIndexOf_from c i s = None.
Proof.
  induction s as [|c' s IH]; intros Habsent i; [reflexivity|].
  cbn in *. rewrite IH by tauto.
  destruct (Ascii.eqb_spec c' c) as [->|_]; [|reflexivity].
  exfalso. apply Habsent. now left.
Qed.

Lemma lastIndexOf_from_last (c : ascii) (before after : string) :
  ~ In c (chars after) ->
  forall i,
    Js.lastIndexOf_from c i (before +:+ String c after)
    = Some (i + String.length before).
Proof.
  intros Habsent. induction before as [|c' before IH]; intros i.
  - change (EmptyString +:+ String c after) with (String c after).
    cbn. rewrite (lastIndexOf_from_absent c after Habsent).
    rewrite Ascii.eqb_refl. f_equal. lia.
  - change (String c' before +:+ String c after)
      with (String c' (before +:+ String c after)).
    cbn. rewrite IH. f_equal. lia.
Qed.

Lemma substring_prefix (a b : string) :
  String.substring 0 (String.length a) (a +:+ b) = a.
Proof.
  induction a as [|c a IH].
  - cbn. apply ScanIds.substring_0_0.
  - change (String c a +:+ b) with (String c (a +:+ b)).
    cbn. now rewrite IH.
Qed.

(** X19.  For an old path made of a directory, a slash and a last
    segment without slash, the path computed for the renamed folder is
    the directory, a slash and the new name: the folder stays where it
    is.  The last segment may be empty (an old path that ends with a
    slash): the new path then lies inside the old folder. *)
Theorem siblingPath_replaces_the_last_segment
        (directory folderName newFolderName : string) :
  ~ In "/"%char (chars folderName) ->
  siblingPath (directory +:+ "/" +:+ folderName) newFolderName
  = directory +:+ "/" +:+ newFolderName.
Proof.
  intros Hname. unfold siblingPath, Js.lastIndexOf.
  change (directory +:+ "/" +:+ folderName)
    with (directory +:+ String "/" folderName).
  rewrite (lastIndexOf_from_last "/" directory folderName Hname 0).
  cbn [default Nat.add]. unfold id. now rewrite substring_prefix.
Qed.

Lemma siblingPath_replaces_the_last_segment_witness :
  siblingPath ("/Lib/AuthorA" +:+ "/" +:+ "SeriesX") "Series Y"
  = "/Lib/AuthorA" +:+ "/" +:+ "Series Y".
Proof.
  apply (siblingPath_replaces_the_last_segment "/Lib/AuthorA" "SeriesX"
           "Series Y").
  cbn. intros H. repeat (destruct H as [H|H]; [discriminate H|]).
  exact H.
Defined.

(** X20.  For an old path without any slash the path computed for the
    renamed folder is the new name under the root of the file system,
    not next to the old folder. *)
Theorem siblingPath_without_slash_is_under_the_root
        (oldPath newFolderName : string) :
  ~ In "/"%char (chars oldPath) ->
  siblingPath oldPath newFolderName = "/" +:+ newFolderName.
Proof.
  intros Hpath. unfold siblingPath, Js.lastIndexOf.
  rewrite (lastIndexOf_from_absent "/" oldPath Hpath 0).
  cbn [default]. now rewrite ScanIds.substring_0_0.
Qed.

Lemma siblingPath_without_slash_is_under_the_root_witness :
  siblingPath "Comics" "Manga" = "/" +:+ "Manga".
Proof.
  apply (siblingPath_without_slash_is_under_the_root "Comics" "Manga").
  cbn. intros H. repeat (destruct H as [H|H]; [discriminate H|]).
  exact H.
Defined.

(** *** The outcomes of a rename *)

Section Outcomes.

Variable renameSync : Fs.Tree -> string -> string -> Try Fs.Tree.

(** X21.  [renameComicFolder] never changes the store, so that the
    saved records and the index keep the old folder path.  When it
    returns [null] the library tree is as it was.  When it returns a
    path, either that is the old path, the sanitized titles being
    equal and the tree untouched, or it is the sibling path for the
    sanitized new title: then the old path existed, the new one did
    not, and the tree is the one that [fs.renameSync] returned. *)
Theorem renameComicFolder_outcomes (oldTitle newTitle oldPath : string)
        (tree : Fs.Tree) (s : t) :
  snd (renameComicFolder renameSync oldTitle newTitle oldPath tree s) = s
  /\ match fst (fst (renameComicFolder renameSync oldTitle newTitle
                       oldPath tree s)) with
     | None =>
         snd (fst (renameComicFolder renameSync oldTitle newTitle
                     oldPath tree s))
         = tree
     | Some newPath =>
         (newPath = oldPath
          /\ sanitizeTitle oldTitle = sanitizeTitle newTitle
          /\ snd (fst (renameComicFolder renameSync oldTitle newTitle
                         oldPath tree s))
             = tree)
         \/ (newPath = siblingPath oldPath (sanitizeTitle newTitle)
             /\ sanitizeTitle oldTitle <> sanitizeTitle newTitle
             /\ Fs.existsSync tree oldPath = true
             /\ Fs.existsSync tree newPath = false
             /\ renameSync tree oldPath newPath
                = Returns
                    (snd (fst (renameComicFolder renameSync oldTitle
                                 newTitle oldPath tree s))))
     end.
Proof.
  unfold renameComicFolder, bind, gets, ret. cbn.
  destruct (isElectron s); cbn; [|split; reflexivity].
  destruct (String.eqb_spec (sanitizeTitle oldTitle) (sanitizeTitle newTitle))
    as [Hsame|Hdiff]; cbn.
  { split; [reflexivity|]. left. auto. }
  unfold Main.rename_folder.
  destruct (Fs.existsSync tree oldPath) eqn:Hold; cbn;
    [|split; reflexivity].
  destruct (Fs.existsSync tree
              (siblingPath oldPath (sanitizeTitle newTitle))) eqn:Hnew;
    cbn; [split; reflexivity|].
  destruct (renameSync tree oldPath
              (siblingPath oldPath (sanitizeTitle newTitle)))
    as [tree'|message] eqn:Hrename; cbn; [|split; reflexivity].
  split; [reflexivity|]. right. auto.
Qed.

End Outcomes.

End RenameMore.

(** ** Adding and editing genres of the catalog *)

Module GenreEditingFacts.

Import FileStorage GenreManager GenreEditing.

Lemma catalog_get_set (g : GenreCatalog.t) (category : GenreCatalogType.t)
      (l : list string) :
  GenreCatalog.get (GenreCatalog.set g category l) category = l.
Proof. now destruct category. Qed.

Lemma catalog_get_set_other (g : GenreCatalog.t)
      (category other : GenreCatalogType.t) (l : list string) :
  other <> category ->
  GenreCatalog.get (GenreCatalog.set g category l) other
  = GenreCatalog.get g other.
Proof. destruct category, other; cbn; congruence. Qed.

Lemma catalog_set_set_get (g : GenreCatalog.t)
      (category : GenreCatalogType.t) (l : list string) :
  GenreCatalog.set (GenreCatalog.set g category l) category
    (GenreCatalog.get g category)
  = g.
Proof. now destruct g, category. Qed.

Lemma saveGenres_eq (newGenres : GenreCatalog.t) (st : State) (s : t) :
  saveGenres newGenres st s
  = ({| genres := newGenres;
        selectedGenre := selectedGenre st;
        showDeleteAlert := showDeleteAlert st;
        genreToDelete := genreToDelete st;
        affectedComics := affectedComics st;
        isCheckingGenres := isCheckingGenres st |},
     snd (setGenres newGenres s)).
Proof.
  unfold saveGenres, bind, ret. now destruct (setGenres newGenres s) as [[] s1].
Qed.

Lemma addGenre_eq (newGenre : NewGenre) (st : State) (s : t) :
  Js.trim (newValue newGenre) <> EmptyString ->
  addGenre newGenre st s
  = ({| genres :=
          GenreCatalog.set (genres st) (newCategory newGenre)
            (GenreCatalog.get (genres st) (newCategory newGenre)
               ++ [Js.trim (newValue newGenre)]);
        selectedGenre := selectedGenre st;
        showDeleteAlert := showDeleteAlert st;
        genreToDelete := genreToDelete st;
        affectedComics := affectedComics st;
        isCheckingGenres := isCheckingGenres st |},
     {| newCategory := newCategory newGenre; newValue := EmptyString |},
     snd (setGenres
            (GenreCatalog.set (genres st) (newCategory newGenre)
               (GenreCatalog.get (genres st) (newCategory newGenre)
                  ++ [Js.trim (newValue newGenre)]))
            s)).
Proof.
  intros Hvalue. unfold addGenre.
  rewrite (proj2 (StringFacts.truthy_nonempty _) Hvalue). cbn [negb].
  unfold bind, ret. now rewrite saveGenres_eq.
Qed.

Lemma map_index_ext {A B} (f g : A -> nat -> B) (l : list A) :
  forall i,
    (forall x j, i <= j -> f x j = g x j) ->
    map_index f i l = map_index g i l.
Proof.
  induction l as [|x l IH]; intros i Hext; [reflexivity|].
  cbn. rewrite (Hext x i) by lia.
  rewrite (IH (S i)) by (intros y j Hj; apply Hext; lia). reflexivity.
Qed.

Lemma map_index_same {A} (f : A -> nat -> A) (l : list A) :
  forall i,
    (forall x j, i <= j -> f x j = x) ->
    map_index f i l = l.
Proof.
  induction l as [|x l IH]; intros i Hsame; [reflexivity|].
  cbn. rewrite (Hsame x i) by lia.
  rewrite (IH (S i)) by (intros y j Hj; apply Hsame; lia). reflexivity.
Qed.

(** [l.map((x, i) => i === index ? v : x)] replaces the element at
    [index], and nothing when there is none. *)
Lemma map_index_insert {A} (v : A) (l : list A) :
  forall i index,
    map_index (fun x j => if Nat.eqb j (i + index) then v else x) i l
    = <[index := v]> l.
Proof.
  induction l as [|x l IH]; intros i index; [reflexivity|].
  cbn [map_index]. destruct index as [|index].
  - change (<[0 := v]> (x :: l)) with (v :: l).
    rewrite Nat.add_0_r, Nat.eqb_refl. f_equal.
    apply map_index_same. intros y j Hj.
    replace (Nat.eqb j i) with false
      by (symmetry; apply Nat.eqb_neq; lia).
    reflexivity.
  - change (<[S index := v]> (x :: l)) with (x :: <[index := v]> l).
    replace (Nat.eqb i (i + S index)) with false
      by (symmetry; apply Nat.eqb_neq; lia).
    f_equal. rewrite <- (IH (S i) index).
    apply map_index_ext. intros y j _.
    replace (i + S index) with (S i + index) by lia. reflexivity.
Qed.

Lemma saveEdit_eq (editing : Selection) (st : State) (s : t) :
  Js.trim (value editing) <> EmptyString ->
  saveEdit (Some editing) st s
  = ({| genres :=
          GenreCatalog.set (genres st) (category editing)
            (<[index editing := Js.trim (value editing)]>
               (GenreCatalog.get (genres st) (category editing)));
        selectedGenre := None;
        showDeleteAlert := showDeleteAlert st;
        genreToDelete := genreToDelete st;
        affectedComics := affectedComics st;
        isCheckingGenres := isCheckingGenres st |},
     None,
     snd (setGenres
            (GenreCatalog.set (genres st) (category editing)
               (<[index editing := Js.trim (value editing)]>
                  (GenreCatalog.get (genres st) (category editing))))
            s)).
Proof.
  intros Hvalue. unfold saveEdit.
  rewrite (proj2 (StringFacts.truthy_nonempty _) Hvalue). cbn [negb].
  unfold bind, ret. rewrite saveGenres_eq.
  cbn [genres showDeleteAlert genreToDelete affectedComics isCheckingGenres].
  pose proof (map_index_insert (Js.trim (value editing))
                (GenreCatalog.get (genres st) (category editing))
                0 (index editing)) as Hmap.
  cbn [Nat.add] in Hmap. now rewrite Hmap.
Qed.

(** X22.  [addGenre] with an input that is not blank puts the trimmed
    input at the end of its category, whether the category has it
    already or not, leaves the other categories as they are, empties
    the input, and the catalog read back from storage is the new
    one. *)
Theorem addGenre_appends_the_trimmed_input (newGenre : NewGenre)
        (st : State) (s : t) :
  Js.trim (newValue newGenre) <> EmptyString ->
  GenreCatalog.get (genres (fst (fst (addGenre newGenre st s))))
                   (newCategory newGenre)
  = GenreCatalog.get (genres st) (newCategory newGenre)
      ++ [Js.trim (newValue newGenre)]
  /\ (forall other,
        other <> newCategory newGenre ->
        GenreCatalog.get (genres (fst (fst (addGenre newGenre st s)))) other
        = GenreCatalog.get (genres st) other)
  /\ snd (fst (addGenre newGenre st s))
     = {| newCategory := newCategory newGenre; newValue := EmptyString |}
  /\ fst (getGenres (snd (addGenre newGenre st s)))
     = genres (fst (fst (addGenre newGenre st s))).
Proof.
  intros Hvalue. rewrite (addGenre_eq newGenre st s Hvalue).
  cbn [fst snd genres]. split; [apply catalog_get_set|].
  split; [intros other Hother; now apply catalog_get_set_other|].
  split; [reflexivity|]. apply GenreManagerFacts.getGenres_setGenres.
Qed.

Lemma addGenre_appends_the_trimmed_input_witness :
  GenreCatalog.get
    (genres
       (fst (fst (addGenre
                    {| newCategory := GenreCatalogType.personality;
                       newValue := "  shy " |}
                    Examples.manager_state Examples.fresh_storage))))
    GenreCatalogType.personality
  = ["brave"; "shy"] ++ ["shy"]
  /\ (forall other,
        other <> GenreCatalogType.personality ->
        GenreCatalog.get
          (genres
             (fst (fst (addGenre
                          {| newCategory := GenreCatalogType.personality;
                             newValue := "  shy " |}
                          Examples.manager_state Examples.fresh_storage))))
          other
        = GenreCatalog.get Examples.catalog other)
  /\ snd (fst (addGenre
                 {| newCategory := GenreCatalogType.personality;
                    newValue := "  shy " |}
                 Examples.manager_state Examples.fresh_storage))
     = {| newCategory := GenreCatalogType.personality;
          newValue := EmptyString |}
  /\ fst (getGenres
            (snd (addGenre
                    {| newCategory := GenreCatalogType.personality;
                       newValue := "  shy " |}
                    Examples.manager_state Examples.fresh_storage)))
     = genres
         (fst (fst (addGenre
                      {| newCategory := GenreCatalogType.personality;
                         newValue := "  shy " |}
                      Examples.manager_state Examples.fresh_storage))).
Proof.
  apply (addGenre_appends_the_trimmed_input
           {| newCategory := GenreCatalogType.personality;
              newValue := "  shy " |}
           Examples.manager_state Examples.fresh_storage).
  discriminate.
Defined.

(** X23.  [saveEdit] with an edited value that is not blank puts the
    trimmed value at the edited index of its category and changes no
    other element and no other category; the category keeps its length,
    and an index beyond it changes nothing.  The selection and the
    editing state are cleared, and the catalog read back from storage
    is the new one. *)
Theorem saveEdit_replaces_the_genre_at_the_index (editing : Selection)
        (st : State) (s : t) :
  Js.trim (value editing) <> EmptyString ->
  GenreCatalog.get (genres (fst (fst (saveEdit (Some editing) st s))))
                   (category editing)
  = <[index editing := Js.trim (value editing)]>
      (GenreCatalog.get (genres st) (category editing))
  /\ length (GenreCatalog.get
               (genres (fst (fst (saveEdit (Some editing) st s))))
               (category editing))
     = length (GenreCatalog.get (genres st) (category editing))
  /\ (length (GenreCatalog.get (genres st) (category editing))
      <= index editing ->
      genres (fst (fst (saveEdit (Some editing) st s))) = genres st)
  /\ (forall other,
        other <> category editing ->
        GenreCatalog.get
          (genres (fst (fst (saveEdit (Some editing) st s)))) other
        = GenreCatalog.get (genres st) other)
  /\ selectedGenre (fst (fst (saveEdit (Some editing) st s))) = None
  /\ snd (fst (saveEdit (Some editing) st s)) = None
  /\ fst (getGenres (snd (saveEdit (Some editing) st s)))
     = genres (fst (fst (saveEdit (Some editing) st s))).
Proof.
  intros Hvalue. rewrite (saveEdit_eq editing st s Hvalue).
  cbn [fst snd genres selectedGenre].
  rewrite catalog_get_set.
  split; [reflexivity|]. split; [apply length_insert|].
  split.
  { intros Hbeyond. rewrite list_insert_ge by exact Hbeyond.
    now destruct (genres st), (category editing). }
  split; [intros other Hother; now apply catalog_get_set_other|].
  split; [reflexivity|]. split; [reflexivity|].
  apply GenreManagerFacts.getGenres_setGenres.
Qed.

Lemma saveEdit_replaces_the_genre_at_the_index_witness :
  GenreCatalog.get
    (genres
       (fst (fst (saveEdit
                    (Some {| category := GenreCatalogType.personality;
                             index := 1; value := " timid " |})
                    Examples.manager_state Examples.fresh_storage))))
    (category {| category := GenreCatalogType.personality;
                 index := 1; value := " timid " |})
  = <[index {| category := GenreCatalogType.personality;
               index := 1; value := " timid " |}
      := Js.trim (value {| category := GenreCatalogType.personality;
                           index := 1; value := " timid " |})]>
      (GenreCatalog.get (genres Examples.manager_state)
         (category {| category := GenreCatalogType.personality;
                      index := 1; value := " timid " |})).
Proof.
  apply (saveEdit_replaces_the_genre_at_the_index
           {| category := GenreCatalogType.personality;
              index := 1; value := " timid " |}
           Examples.manager_state Examples.fresh_storage).
  discriminate.
Defined.

Example saveEdit_of_shy :
  genres
    (fst (fst (saveEdit
                 (Some {| category := GenreCatalogType.personality;
                          index := 1; value := " timid " |})
                 Examples.manager_state Examples.fresh_storage)))
  = {| GenreCatalog.personality := ["brave"; "timid"];
       GenreCatalog.verb := ["fighting"];
       GenreCatalog.plot := [] |}.
Proof. reflexivity. Qed.

(** X24.  No empty genre enters the catalog: when no genre of the
    catalog is empty, none is after [addGenre], after [saveEdit] or
    after the usage check of [deleteGenre], whatever the input, the
    edited value and the selection are.  A blank input and a blank
    edited value leave the component and the store as they are. *)
Theorem catalog_never_gets_an_empty_genre (st : State) (s : t)
        (newGenre : NewGenre) (editingGenre : option Selection) :
  (forall category,
     List.Forall (fun genre => genre <> EmptyString)
                 (GenreCatalog.get (genres st) category)) ->
  (forall category,
     List.Forall (fun genre => genre <> EmptyString)
       (GenreCatalog.get (genres (fst (fst (addGenre newGenre st s))))
                         category))
  /\ (forall category,
        List.Forall (fun genre => genre <> EmptyString)
          (GenreCatalog.get
             (genres (fst (fst (saveEdit editingGenre st s)))) category))
  /\ (forall category,
        List.Forall (fun genre => genre <> EmptyString)
          (GenreCatalog.get (genres (fst (deleteGenre st s))) category))
  /\ (Js.trim (newValue newGenre) = EmptyString ->
      addGenre newGenre st s = (st, newGenre, s))
  /\ (forall editing,
        editingGenre = Some editing ->
        Js.trim (value editing) = EmptyString ->
        saveEdit editingGenre st s = (st, editingGenre, s)).
Proof.
  intros Hcatalog.
  assert (Hset : forall category l other,
             List.Forall (fun genre => genre <> EmptyString) l ->
             List.Forall (fun genre => genre <> EmptyString)
               (GenreCatalog.get (GenreCatalog.set (genres st) category l)
                                 other)).
  { intros category l other Hl.
    destruct category, other; cbn; try exact Hl;
      first [ exact (Hcatalog GenreCatalogType.personality)
            | exact (Hcatalog GenreCatalogType.verb)
            | exact (Hcatalog GenreCatalogType.plot) ]. }
  split; [|split; [|split; [|split]]].
  - intros other.
    destruct (string_dec (Js.trim (newValue newGenre)) EmptyString)
      as [Hblank|Hvalue].
    + unfold addGenre. rewrite Hblank. apply Hcatalog.
    + rewrite (addGenre_eq newGenre st s Hvalue). cbn [fst snd genres].
      apply Hset. apply List.Forall_app. split; [apply Hcatalog|].
      constructor; [exact Hvalue | constructor].
  - intros other. destruct editingGenre as [editing|]; [|apply Hcatalog].
    destruct (string_dec (Js.trim (value editing)) EmptyString)
      as [Hblank|Hvalue].
    + unfold saveEdit. rewrite Hblank. apply Hcatalog.
    + rewrite (saveEdit_eq editing st s Hvalue). cbn [fst snd genres].
      apply Hset. apply Forall_insert; [apply Hcatalog | exact Hvalue].
  - intros other. unfold deleteGenre.
    destruct (selectedGenre st) as [selected|]; [|apply Hcatalog].
    unfold checkGenreUsage, bind.
    destruct (getLibrary s) as [allComics s0]. cbn [fst snd].
    destruct (Nat.eqb _ 0); [|apply Hcatalog].
    rewrite saveGenres_eq. cbn [fst snd genres ret].
    apply Hset.
    pose proof (GenreManagerFacts.filter_index_delete
                  (GenreCatalog.get (genres st) (category selected))
                  0 (index selected)) as Hdelete.
    cbn [Nat.add] in Hdelete. rewrite Hdelete.
    apply Forall_delete, Hcatalog.
  - intros Hblank. unfold addGenre. now rewrite Hblank.
  - intros editing -> Hblank. unfold saveEdit. now rewrite Hblank.
Qed.

Lemma catalog_never_gets_an_empty_genre_witness :
  (forall category,
     List.Forall (fun genre => genre <> EmptyString)
       (GenreCatalog.get
          (genres
             (fst (fst (addGenre
                          {| newCategory := GenreCatalogType.plot;
                             newValue := "   " |}
                          Examples.manager_state Examples.fresh_storage))))
          category))
  /\ (forall category,
        List.Forall (fun genre => genre <> EmptyString)
          (GenreCatalog.get
             (genres
                (fst (fst (saveEdit
                             (Some {| category := GenreCatalogType.verb;
                                      index := 0; value := " " |})
                             Examples.manager_state
                             Examples.fresh_storage))))
             category))
  /\ (forall category,
        List.Forall (fun genre => genre <> EmptyString)
          (GenreCatalog.get
             (genres (fst (deleteGenre Examples.manager_state
                             Examples.fresh_storage)))
             category))
  /\ (Js.trim (newValue {| newCategory := GenreCatalogType.plot;
                           newValue := "   " |})
      = EmptyString ->
      addGenre {| newCategory := GenreCatalogType.plot;
                  newValue := "   " |}
               Examples.manager_state Examples.fresh_storage
      = (Examples.manager_state,
         {| newCategory := GenreCatalogType.plot; newValue := "   " |},
         Examples.fresh_storage))
  /\ (forall editing,
        Some {| category := GenreCatalogType.verb;
                index := 0; value := " " |}
        = Some editing ->
        Js.trim (value editing) = EmptyString ->
        saveEdit (Some {| category := GenreCatalogType.verb;
                          index := 0; value := " " |})
                 Examples.manager_state Examples.fresh_storage
        = (Examples.manager_state,
           Some {| category := GenreCatalogType.verb;
                   index := 0; value := " " |},
           Examples.fresh_storage)).
Proof.
  apply (catalog_never_gets_an_empty_genre Examples.manager_state
           Examples.fresh_storage
           {| newCategory := GenreCatalogType.plot; newValue := "   " |}
           (Some {| category := GenreCatalogType.verb;
                    index := 0; value := " " |})).
  intros []; cbn; repeat constructor; discriminate.
Defined.

(** *** Adding a genre, then deleting it *)

Lemma delete_last {A} (l : list A) (x : A) :
  delete (length l) (l ++ [x]) = l.
Proof.
  induction l as [|y l IH]; [reflexivity|].
  change (delete (length (y :: l)) ((y :: l) ++ [x]))
    with (y :: delete (length l) (l ++ [x])).
  now rewrite IH.
Qed.

Lemma checkGenreUsage_unused_eq (category : GenreCatalogType.t)
      (index : nat) (value : string) (st : State) (s : t) :
  List.Forall (fun comic => hasGenre comic value = false)
              (fst (getLibrary s)) ->
  checkGenreUsage category index value st s
  = ({| genres :=
          GenreCatalog.set (genres st) category
            (delete index (GenreCatalog.get (genres st) category));
        selectedGenre := None;
        showDeleteAlert := showDeleteAlert st;
        genreToDelete := genreToDelete st;
        affectedComics := [];
        isCheckingGenres := false |},
     snd (setGenres
            (GenreCatalog.set (genres st) category
               (delete index (GenreCatalog.get (genres st) category)))
            s)).
Proof.
  intros Hunused. unfold checkGenreUsage, bind.
  pose proof (GenreManagerFacts.getLibrary_state s) as Hstate.
  destruct (getLibrary s) as [allComics s0]. cbn [fst snd] in *. subst s0.
  rewrite (GenreManagerFacts.affectedBy_unused value allComics Hunused).
  cbn [length Nat.eqb]. rewrite saveGenres_eq.
  pose proof (GenreManagerFacts.filter_index_delete
                (GenreCatalog.get (genres st) category) 0 index)
    as Hdelete.
  cbn [Nat.add] in Hdelete. rewrite Hdelete. reflexivity.
Qed.

(** X25.  Adding a genre and deleting it again gives the catalog back.
    Let no comic of the library use the trimmed input, which is not
    blank; let [addGenre] run, and then [deleteGenre] with the new
    genre selected, at the index that was the length of its category.
    Then the catalog of the component, and the one read back from
    storage, are the catalog before the addition. *)
Theorem addGenre_then_deleteGenre_restores_the_catalog
        (newGenre : NewGenre) (st afterSelect : State) (s : t) :
  paths_initialized s ->
  Js.trim (newValue newGenre) <> EmptyString ->
  List.Forall
    (fun comic => hasGenre comic (Js.trim (newValue newGenre)) = false)
    (fst (getLibrary s)) ->
  genres afterSelect = genres (fst (fst (addGenre newGenre st s))) ->
  selectedGenre afterSelect
  = Some {| category := newCategory newGenre;
            index :=
              length (GenreCatalog.get (genres st) (newCategory newGenre));
            value := Js.trim (newValue newGenre) |} ->
  genres (fst (deleteGenre afterSelect (snd (addGenre newGenre st s))))
  = genres st
  /\ fst (getGenres
            (snd (deleteGenre afterSelect (snd (addGenre newGenre st s)))))
     = genres st.
Proof.
  intros Hp Hvalue Hunused Hgenres Hselected.
  rewrite (addGenre_eq newGenre st s Hvalue) in *.
  cbn [fst snd genres] in *.
  unfold deleteGenre. rewrite Hselected. cbn [category index value].
  rewrite checkGenreUsage_unused_eq.
  - cbn [fst snd genres]. rewrite Hgenres, catalog_get_set, delete_last.
    rewrite catalog_set_set_get. split; [reflexivity|].
    apply GenreManagerFacts.getGenres_setGenres.
  - unfold getLibrary in *.
    destruct (StoreRoundTrips.setGenres_env
                (GenreCatalog.set (genres st) (newCategory newGenre)
                   (GenreCatalog.get (genres st) (newCategory newGenre)
                      ++ [Js.trim (newValue newGenre)]))
                s) as (He & Hc & Hi & Hfiles).
    rewrite (StoreRoundTrips.getAllComics_frame s _ He Hc).
    + exact Hunused.
    + now rewrite Hi.
    + intros comicId. apply Hfiles.
      now apply StoreRoundTrips.comicFilePath_not_genres.
Qed.

Lemma addGenre_then_deleteGenre_restores_the_catalog_witness :
  genres
    (fst (deleteGenre
            {| genres := {| GenreCatalog.personality := ["brave"; "shy"];
                            GenreCatalog.verb := ["fighting"];
                            GenreCatalog.plot := ["revenge"] |};
               selectedGenre :=
                 Some {| category := GenreCatalogType.plot;
                         index := 0; value := "revenge" |};
               showDeleteAlert := false;
               genreToDelete := None;
               affectedComics := [];
               isCheckingGenres := false |}
            (snd (addGenre
                    {| newCategory := GenreCatalogType.plot;
                       newValue := " revenge" |}
                    Examples.manager_state
                    (Examples.storage_with
                       (Examples.authorB None (Some Examples.brave)) ∅)))))
  = genres Examples.manager_state
  /\ fst (getGenres
            (snd (deleteGenre
                    {| genres :=
                         {| GenreCatalog.personality := ["brave"; "shy"];
                            GenreCatalog.verb := ["fighting"];
                            GenreCatalog.plot := ["revenge"] |};
                       selectedGenre :=
                         Some {| category := GenreCatalogType.plot;
                                 index := 0; value := "revenge" |};
                       showDeleteAlert := false;
                       genreToDelete := None;
                       affectedComics := [];
                       isCheckingGenres := false |}
                    (snd (addGenre
                            {| newCategory := GenreCatalogType.plot;
                               newValue := " revenge" |}
                            Examples.manager_state
                            (Examples.storage_with
                               (Examples.authorB None (Some Examples.brave))
                               ∅))))))
     = genres Examples.manager_state.
Proof.
  apply (addGenre_then_deleteGenre_restores_the_catalog
           {| newCategory := GenreCatalogType.plot;
              newValue := " revenge" |}
           Examples.manager_state
           {| genres := {| GenreCatalog.personality := ["brave"; "shy"];
                           GenreCatalog.verb := ["fighting"];
                           GenreCatalog.plot := ["revenge"] |};
              selectedGenre :=
                Some {| category := GenreCatalogType.plot;
                        index := 0; value := "revenge" |};
              showDeleteAlert := false;
              genreToDelete := None;
              affectedComics := [];
              isCheckingGenres := false |}
           (Examples.storage_with
              (Examples.authorB None (Some Examples.brave)) ∅)).
  - reflexivity.
  - discriminate.
  - vm_compute. repeat constructor.
  - reflexivity.
  - reflexivity.
Defined.

End GenreEditingFacts.

(** ** What the library shows *)

Module LibraryViewFacts.

Import GenreManager LibraryView.

Lemma matchesGenres_hasGenre (selectedGenres : list string)
      (comic : Comic.t) :
  matchesGenres selectedGenres comic
  = existsb (hasGenre comic) selectedGenres.
Proof.
  unfold matchesGenres, hasGenre.
  now destruct (Comic.comicGenres comic).
Qed.

Lemma filter_nil_iff {A} (keep : A -> bool) (l : list A) :
  List.filter keep l = [] <-> List.Forall (fun x => keep x = false) l.
Proof.
  induction l as [|x l IH]; cbn; [split; auto|].
  destruct (keep x) eqn:Hx; split.
  - discriminate.
  - intros Hall. inversion Hall; congruence.
  - intros Hnil. constructor; [exact Hx | now apply IH].
  - intros Hall. inversion Hall; subst. now apply IH.
Qed.

Lemma filter_filter_and {A} (f g : A -> bool) (l : list A) :
  List.filter f (List.filter g l) = List.filter (fun x => g x && f x) l.
Proof.
  induction l as [|x l IH]; [reflexivity|].
  cbn. destruct (g x); cbn; [destruct (f x)|]; now rewrite IH.
Qed.

Lemma filter_all {A} (keep : A -> bool) (l : list A) :
  (forall x, keep x = true) -> List.filter keep l = l.
Proof.
  intros Hall. induction l as [|x l IH]; [reflexivity|].
  cbn. now rewrite Hall, IH.
Qed.

Lemma NoDup_List_filter {A} (keep : A -> bool) (l : list A) :
  NoDup l -> NoDup (List.filter keep l).
Proof.
  induction 1 as [|x l Hx Hl IH]; cbn; [constructor|].
  destruct (keep x); [|exact IH]. constructor; [|exact IH].
  intros Hin. apply Hx. apply list_elem_of_In.
  apply list_elem_of_In, List.filter_In in Hin. tauto.
Qed.

(** The two filters as one. *)
Lemma filterComics_eq (comics : list Comic.t) (searchText : string)
      (selectedGenres : list string) :
  filterComics comics searchText selectedGenres
  = List.filter
      (fun comic =>
         (negb (Js.truthy searchText) || matchesText searchText comic)
         && (Nat.eqb (length selectedGenres) 0
             || existsb (hasGenre comic) selectedGenres))
      comics.
Proof.
  unfold filterComics.
  destruct (Js.truthy searchText);
    destruct selectedGenres as [|genre selectedGenres];
    cbn [length Nat.ltb Nat.leb Nat.eqb negb orb].
  - apply List.filter_ext. intros comic. now rewrite andb_true_r.
  - rewrite filter_filter_and. apply List.filter_ext. intros comic.
    now rewrite matchesGenres_hasGenre.
  - symmetry. now apply filter_all.
  - apply List.filter_ext. intros comic.
    now rewrite matchesGenres_hasGenre.
Qed.

Lemma shown_iff (searchText : string) (selectedGenres : list string)
      (comic : Comic.t) :
  (negb (Js.truthy searchText) || matchesText searchText comic)
  && (Nat.eqb (length selectedGenres) 0
      || existsb (hasGenre comic) selectedGenres) = true <->
  (searchText = EmptyString \/ matchesText searchText comic = true)
  /\ (selectedGenres = []
      \/ exists genre,
           In genre selectedGenres /\ hasGenre comic genre = true).
Proof.
  rewrite andb_true_iff, !orb_true_iff, List.existsb_exists.
  rewrite negb_true_iff, Nat.eqb_eq, length_zero_iff_nil.
  assert (Htext : Js.truthy searchText = false <-> searchText = EmptyString)
    by (destruct searchText; cbn; split; congruence).
  now rewrite Htext.
Qed.

(** X26.  A comic is shown exactly when it is in the library, the
    search text is empty or occurs in it, and no genre is selected or
    the comic has one of the selected genres in one of its tiers. *)
Theorem filterComics_shows_the_matching_comics (comics : list Comic.t)
        (searchText : string) (selectedGenres : list string)
        (comic : Comic.t) :
  In comic (filterComics comics searchText selectedGenres) <->
  In comic comics
  /\ (searchText = EmptyString \/ matchesText searchText comic = true)
  /\ (selectedGenres = []
      \/ exists genre,
           In genre selectedGenres /\ hasGenre comic genre = true).
Proof.
  rewrite filterComics_eq, List.filter_In, shown_iff. reflexivity.
Qed.

Lemma hasGenre_formatGenres (comic : Comic.t) (value : string) :
  hasGenre comic value = true <->
  In value (formatGenres (Comic.comicGenres comic)).
Proof.
  unfold hasGenre, formatGenres.
  destruct (Comic.comicGenres comic) as [g|];
    [|split; [discriminate | intros []]].
  rewrite List.existsb_exists, List.in_concat. split.
  - intros (genreList & Hlist & Hhas).
    apply List.existsb_exists in Hhas as (genre & Hin & Heq).
    apply String.eqb_eq in Heq. subst genre. exists genreList. auto.
  - intros (genreList & Hlist & Hin). exists genreList.
    split; [exact Hlist|]. apply List.existsb_exists.
    exists value. split; [exact Hin | apply String.eqb_refl].
Qed.

(** X27.  The filter, the genres shown for a comic and the usage check
    of the genre manager agree: filtering by one genre, without search
    text, shows the comics that have the genre in one of their tiers,
    which are the comics for which [formatGenres] lists the genre; and
    it shows none exactly when the usage check finds no affected comic,
    which is when the genre is deleted at once. *)
Theorem genre_filter_agrees_with_the_usage_check (value : string)
        (comics : list Comic.t) :
  filterComics comics EmptyString [value]
  = List.filter (fun comic => hasGenre comic value) comics
  /\ (forall comic,
        In comic (filterComics comics EmptyString [value]) <->
        In comic comics
        /\ In value (formatGenres (Comic.comicGenres comic)))
  /\ (affectedBy value comics = [] <->
      filterComics comics EmptyString [value] = []).
Proof.
  assert (Hfilter : filterComics comics EmptyString [value]
                    = List.filter (fun comic => hasGenre comic value)
                                  comics).
  { unfold filterComics. cbn [Js.truthy length Nat.ltb Nat.leb].
    apply List.filter_ext. intros comic.
    rewrite matchesGenres_hasGenre. cbn. apply orb_false_r. }
  split; [exact Hfilter|]. rewrite Hfilter. split.
  { intros comic. now rewrite List.filter_In, hasGenre_formatGenres. }
  rewrite filter_nil_iff. split.
  - intros Hnone. apply List.Forall_forall. intros comic Hin.
    destruct (hasGenre comic value) eqn:Hhas; [|reflexivity].
    exfalso. revert Hnone.
    apply GenreManagerFacts.affectedBy_used.
    apply List.Exists_exists. exists comic. auto.
  - apply GenreManagerFacts.affectedBy_unused.
Qed.

(** X28.  With some genre selected already, selecting one more hides no
    comic that was shown: the selected genres are alternatives. *)
Theorem selecting_one_more_genre_hides_no_comic (comics : list Comic.t)
        (searchText : string) (selectedGenres : list string)
        (genre : string) (comic : Comic.t) :
  selectedGenres <> [] ->
  ~ In genre selectedGenres ->
  In comic (filterComics comics searchText selectedGenres) ->
  In comic
     (filterComics comics searchText
        (handleGenreToggle selectedGenres genre)).
Proof.
  intros Hsome Hnew Hshown.
  assert (Htoggle : handleGenreToggle selectedGenres genre
                    = selectedGenres ++ [genre]).
  { unfold handleGenreToggle.
    destruct (existsb (String.eqb genre) selectedGenres) eqn:Hex;
      [|reflexivity].
    apply List.existsb_exists in Hex as (g & Hin & Heq).
    apply String.eqb_eq in Heq. subst g. contradiction. }
  rewrite Htoggle.
  rewrite filterComics_eq, List.filter_In, shown_iff in Hshown.
  rewrite filterComics_eq, List.filter_In, shown_iff.
  destruct Hshown as (Hin & Ht & [Hnil|(g & Hg & Hhas)]);
    [contradiction|].
  split; [exact Hin|]. split; [exact Ht|]. right.
  exists g. split; [apply List.in_or_app; now left | exact Hhas].
Qed.

Lemma selecting_one_more_genre_hides_no_comic_witness :
  In (Examples.authorB None (Some Examples.brave))
     (filterComics [Examples.authorB None (Some Examples.brave)]
        "author" (handleGenreToggle ["brave"] "shy")).
Proof.
  apply (selecting_one_more_genre_hides_no_comic
           [Examples.authorB None (Some Examples.brave)]
           "author" ["brave"] "shy"
           (Examples.authorB None (Some Examples.brave))).
  - discriminate.
  - intros [H|[]]. discriminate H.
  - left. reflexivity.
Defined.

(** From no genre selected to one, the same comic is hidden. *)
Example selecting_a_first_genre_can_hide_a_comic :
  filterComics [Examples.authorB None (Some Examples.brave)]
    EmptyString []
  = [Examples.authorB None (Some Examples.brave)]
  /\ filterComics [Examples.authorB None (Some Examples.brave)]
       EmptyString (handleGenreToggle [] "shy")
     = [].
Proof. split; reflexivity. Qed.

(** X29.  [handleGenreToggle] flips the selection of one genre: the
    genre is selected afterwards exactly when it was not before, every
    other genre is selected exactly when it was, a selection without
    repetition stays so, and toggling twice a genre that was not
    selected gives the selection back. *)
Theorem handleGenreToggle_flips_one_genre (prev : list string)
        (genre : string) :
  (In genre (handleGenreToggle prev genre) <-> ~ In genre prev)
  /\ (forall other,
        other <> genre ->
        In other (handleGenreToggle prev genre) <-> In other prev)
  /\ (NoDup prev -> NoDup (handleGenreToggle prev genre))
  /\ (~ In genre prev ->
      handleGenreToggle (handleGenreToggle prev genre) genre = prev).
Proof.
  assert (Hincludes : existsb (String.eqb genre) prev = true <->
                      In genre prev).
  { rewrite List.existsb_exists. split.
    - intros (g & Hin & Heq). apply String.eqb_eq in Heq. now subst g.
    - intros Hin. exists genre. split; [exact Hin|]. apply String.eqb_refl. }
  assert (Hremoved : forall l other,
             In other (List.filter (fun g => negb (String.eqb g genre)) l)
             <-> In other l /\ other <> genre).
  { intros l other. rewrite List.filter_In, negb_true_iff, String.eqb_neq.
    reflexivity. }
  assert (Hfresh : forall l,
             ~ In genre l ->
             List.filter (fun g => negb (String.eqb g genre)) l = l).
  { intros l Hl. induction l as [|g l IH]; [reflexivity|].
    cbn. destruct (String.eqb_spec g genre) as [->|Hne]; cbn.
    - exfalso. apply Hl. now left.
    - rewrite IH; [reflexivity|]. intros Hin. apply Hl. now right. }
  unfold handleGenreToggle at 1 2 3.
  destruct (existsb (String.eqb genre) prev) eqn:Hex.
  - assert (Hin : In genre prev) by now apply Hincludes.
    split; [|split; [|split]].
    + rewrite Hremoved. tauto.
    + intros other Hother. rewrite Hremoved. tauto.
    + intros Hnodup. now apply NoDup_List_filter.
    + intros Hnot. contradiction.
  - assert (Hnot : ~ In genre prev).
    { intros Hin. apply Hincludes in Hin. congruence. }
    split; [|split; [|split]].
    + rewrite List.in_app_iff. cbn. tauto.
    + intros other Hother. rewrite List.in_app_iff. cbn. split.
      * intros [Hin|[Heq|[]]]; [exact Hin | congruence].
      * auto.
    + intros Hnodup. apply NoDup_app. split; [exact Hnodup|].
      split; [|apply NoDup_singleton].
      intros g Hg Hg'. apply list_elem_of_In in Hg.
      apply list_elem_of_In in Hg'. destruct Hg' as [<-|[]]. contradiction.
    + intros _. unfold handleGenreToggle. rewrite Hex.
      replace (existsb (String.eqb genre) (prev ++ [genre])) with true.
      * rewrite List.filter_app, (Hfresh prev Hnot). cbn.
        rewrite String.eqb_refl. cbn. apply List.app_nil_r.
      * symmetry. rewrite List.existsb_app. cbn.
        rewrite String.eqb_refl. apply orb_true_r.
Qed.


End LibraryViewFacts.

(** ** The automatic refresh of the metadata form *)

Module AutoRefreshFacts.

Import FileStorage AutoRefresh.

(** X30.  Let the directory be set, the hook enabled and the cooldown
    over at [now].  Then [refreshMetadata] hands over the comics of the
    library whose folder path is the directory itself, notes [now] as
    the time of the last refresh and leaves the store as it is; and a
    call less than five seconds later hands over nothing and keeps the
    noted time. *)
Theorem refreshMetadata_runs_then_cools_down (directory : string)
        (now later lastRefreshTime : Z) (s : t) :
  directory <> EmptyString ->
  (refreshCooldown <= now - lastRefreshTime)%Z ->
  (later - now < refreshCooldown)%Z ->
  refreshMetadata (Some directory) true now lastRefreshTime s
  = (Some (List.filter
             (fun comic => String.eqb (Comic.folderPath comic) directory)
             (fst (getLibrary s))),
     now, s)
  /\ List.Forall
       (fun comic => Comic.folderPath comic = directory)
       (List.filter
          (fun comic => String.eqb (Comic.folderPath comic) directory)
          (fst (getLibrary s)))
  /\ refreshMetadata (Some directory) true later now s = (None, now, s).
Proof.
  intros Hdirectory Hover Hsoon. unfold refreshMetadata.
  rewrite (proj2 (StringFacts.truthy_nonempty _) Hdirectory).
  cbn [negb orb].
  rewrite (proj2 (Z.ltb_ge _ _) Hover), (proj2 (Z.ltb_lt _ _) Hsoon).
  split; [|split; [|reflexivity]].
  - unfold bind, ret.
    pose proof (GenreManagerFacts.getLibrary_state s) as Hstate.
    destruct (getLibrary s) as [updatedComics s0].
    cbn [fst snd] in *. now subst s0.
  - apply List.Forall_forall. intros comic Hin.
    apply List.filter_In in Hin as (_ & Heq). now apply String.eqb_eq.
Qed.

Lemma refreshMetadata_runs_then_cools_down_witness :
  refreshMetadata (Some "/Lib/AuthorB") true 1700000010000 0
    (Examples.storage_with (Examples.authorB None None) ∅)
  = (Some (List.filter
             (fun comic =>
                String.eqb (Comic.folderPath comic) "/Lib/AuthorB")
             (fst (getLibrary
                     (Examples.storage_with
                        (Examples.authorB None None) ∅)))),
     1700000010000%Z,
     Examples.storage_with (Examples.authorB None None) ∅)
  /\ List.Forall
       (fun comic => Comic.folderPath comic = "/Lib/AuthorB")
       (List.filter
          (fun comic =>
             String.eqb (Comic.folderPath comic) "/Lib/AuthorB")
          (fst (getLibrary
                  (Examples.storage_with
                     (Examples.authorB None None) ∅))))
  /\ refreshMetadata (Some "/Lib/AuthorB") true 1700000012000
       1700000010000
       (Examples.storage_with (Examples.authorB None None) ∅)
     = (None, 1700000010000%Z,
        Examples.storage_with (Examples.authorB None None) ∅).
Proof.
  apply (refreshMetadata_runs_then_cools_down "/Lib/AuthorB"
           1700000010000 1700000012000 0
           (Examples.storage_with (Examples.authorB None None) ∅)).
  - discriminate.
  - unfold refreshCooldown. lia.
  - unfold refreshCooldown. lia.
Defined.

(** The comics of the folders below the directory are not handed
    over: a refresh of [/Lib] saves [/Lib/AuthorB], and the automatic
    refresh for [/Lib] hands over no comic. *)
Example refreshMetadata_hands_over_no_comic_of_a_subfolder :
  fst (fst (refreshMetadata (Some "/Lib") true 1700000010000 0
              (Examples.storage_with (Examples.authorB None None) ∅)))
  = Some [].
Proof. vm_compute. reflexivity. Qed.

End AutoRefreshFacts.
